(** * invoke-training: LoRA training pipeline and textual-inversion data loader

    A shallow embedding of

    - [invoke_training/pipelines/stable_diffusion/lora/train.py]
      ([train_forward], the control skeleton of [train],
      [_save_sd_lora_checkpoint] and what the two cache-filling passes
      compute for a batch), and
    - [invoke_training/training/_shared/data/data_loaders/textual_inversion_sd_dataloader.py]
      ([get_preset_ti_caption_templates], [build_textual_inversion_sd_dataloader]).

    Python exceptions are values of [exception]; a call that may raise
    returns a [result].  Side effects that matter for the statements
    (calls into collaborators, the mutable scheduler configuration, the
    random generator) are explicit: as an event trace or as threaded state. *)

From Stdlib Require Import ZArith QArith Qminmax Bool Lia.
From stdpp Require Import base strings pretty list gmap.

Local Open Scope string_scope.
Local Open Scope list_scope.
Local Open Scope Z_scope.

(** ** Exceptions and results *)

Inductive exception : Type :=
| ValueError (msg : string)
| AssertionError
| KeyError (key : string)
| TypeError (msg : string)
| ZeroDivisionError
| RuntimeError (msg : string).

Inductive result (A : Type) : Type :=
| Ok (a : A)
| Raise (e : exception).
Arguments Ok {A} a.
Arguments Raise {A} e.

Definition is_ok {A} (r : result A) : bool :=
  match r with Ok _ => true | Raise _ => false end.

(** A computation that records the collaborator calls it makes, in order,
    and either returns or raises.  The trace survives a raise: it is what
    had already happened when the exception left the function. *)
Definition traced (E A : Type) : Type := (list E * result A)%type.

Definition tret {E A} (a : A) : traced E A := ([], Ok a).
Definition traise {E A} (e : exception) : traced E A := ([], Raise e).
Definition emit {E} (ev : E) : traced E unit := ([ev], Ok tt).
Definition tlift {E A} (r : result A) : traced E A := ([], r).
Definition tbind {E A B} (m : traced E A) (f : A -> traced E B) : traced E B :=
  match m with
  | (t, Ok a) => let '(t', r) := f a in (t ++ t', r)
  | (t, Raise e) => (t, Raise e)
  end.

#[global] Instance traced_ret {E} : MRet (traced E) := fun A a => tret a.
#[global] Instance traced_bind {E} : MBind (traced E) := fun A B f m => tbind m f.

Definition rbind {A B} (m : result A) (f : A -> result B) : result B :=
  match m with Ok a => f a | Raise e => Raise e end.

#[global] Instance result_ret : MRet result := fun A a => Ok a.
#[global] Instance result_bind : MBind result := fun A B f m => rbind m f.

(** Python's [sum] over a list of booleans. *)
Definition sum_bools (bs : list bool) : Z :=
  foldr (fun b acc => Z.b2z b + acc) 0 bs.

(** [x is not None]. *)
Definition is_not_None {A} (o : option A) : bool :=
  match o with Some _ => true | None => false end.

(** ** The textual-inversion data loader *)

Module TIDataLoader.

(** [get_preset_ti_caption_templates]. *)
Definition object_templates : list string :=
  [ "a photo of a {}";
    "a rendering of a {}";
    "a cropped photo of the {}";
    "the photo of a {}";
    "a photo of a clean {}";
    "a photo of a dirty {}";
    "a dark photo of the {}";
    "a photo of my {}";
    "a photo of the cool {}";
    "a close-up photo of a {}";
    "a bright photo of the {}";
    "a cropped photo of a {}";
    "a photo of the {}";
    "a good photo of the {}";
    "a photo of one {}";
    "a close-up photo of the {}";
    "a rendition of the {}";
    "a photo of the clean {}";
    "a rendition of a {}";
    "a photo of a nice {}";
    "a good photo of a {}";
    "a photo of the nice {}";
    "a photo of the small {}";
    "a photo of the weird {}";
    "a photo of the large {}";
    "a photo of a cool {}";
    "a photo of a small {}" ].

Definition style_templates : list string :=
  [ "a painting in the style of {}";
    "a rendering in the style of {}";
    "a cropped painting in the style of {}";
    "the painting in the style of {}";
    "a clean painting in the style of {}";
    "a dirty painting in the style of {}";
    "a dark painting in the style of {}";
    "a picture in the style of {}";
    "a cool painting in the style of {}";
    "a close-up painting in the style of {}";
    "a bright painting in the style of {}";
    "a cropped painting in the style of {}";
    "a good painting in the style of {}";
    "a close-up painting in the style of {}";
    "a rendition in the style of {}";
    "a nice painting in the style of {}";
    "a small painting in the style of {}";
    "a weird painting in the style of {}";
    "a large painting in the style of {}" ].

Definition get_preset_ti_caption_templates (preset : string) : result (list string) :=
  if String.eqb preset "object" then Ok object_templates
  else if String.eqb preset "style" then Ok style_templates
  else Raise (ValueError ("Unrecognized learnable property type: '" +:+ preset +:+ "'.")).

(** The dataset configurations the loader dispatches on with [isinstance];
    [OtherDatasetConfig] stands for an object of any other class. *)
Inductive dataset_config : Type :=
| HFHubImageCaptionDatasetConfig (dataset_name : string)
| HFDirImageCaptionDatasetConfig (dataset_dir : string)
| ImageDirDatasetConfig (dataset_dir : string) (keep_in_memory : bool)
| OtherDatasetConfig (type_name : string).

(** The dataset objects the three builders return. *)
Inductive base_dataset : Type :=
| HFHubImageCaptionDataset (cfg : dataset_config)
| HFDirImageCaptionDataset (cfg : dataset_config)
| ImageDirDataset (image_dir : string) (keep_in_memory : bool).

(** The aspect-ratio bucket configuration, which the builder only hands on. *)
Inductive AspectRatioBucketConfig : Type :=
| aspect_ratio_bucket_config (description : string).

(** The fields of [TextualInversionSDDataLoaderConfig] the builder reads. *)
Record TextualInversionSDDataLoaderConfig : Type := {
  dataset : dataset_config;
  caption_templates : option (list string);
  caption_preset : option string;
  apply_caption_prefix : bool;
  aspect_ratio_buckets : option AspectRatioBucketConfig;
  resolution : Z;
  shuffle_caption_delimiter : option string;
  center_crop : bool;
  random_flip : bool;
  dataloader_num_workers : Z
}.

Inductive AspectRatioBucketManager : Type :=
| build_aspect_ratio_bucket_manager (config : AspectRatioBucketConfig).

Inductive TensorDiskCache : Type :=
| TensorDiskCache_new (cache_dir : string).

(** The transform objects, by constructor call. *)
Inductive transform : Type :=
| TemplateCaptionTransform (field_name placeholder_str : string)
    (caption_templates : list string)
| CaptionPrefixTransform (caption_field_name prefix : string)
| ShuffleCaptionTransform (field_name delimiter : string)
| SDImageTransform (resolution : option Z)
    (aspect_ratio_bucket_manager : option AspectRatioBucketManager)
    (center_crop random_flip : bool)
| LoadCacheTransform (cache : TensorDiskCache) (cache_key_field : string)
    (cache_field_to_output_field : list (string * string))
| DropFieldTransform (field_to_drop : string).

Definition is_caption_transform (t : transform) : bool :=
  match t with
  | TemplateCaptionTransform _ _ _ | CaptionPrefixTransform _ _
  | ShuffleCaptionTransform _ _ => true
  | _ => false
  end.

Definition is_image_transform (t : transform) : bool :=
  match t with SDImageTransform _ _ _ _ => true | _ => false end.

Definition is_load_cache (t : transform) : bool :=
  match t with LoadCacheTransform _ _ _ => true | _ => false end.

Definition drops_field (field : string) (t : transform) : bool :=
  match t with DropFieldTransform f => String.eqb f field | _ => false end.

Record AspectRatioBucketBatchSampler : Type := {
  bucket_manager : AspectRatioBucketManager;
  image_sizes_of : base_dataset;
  sampler_batch_size : Z;
  sampler_shuffle : bool;
  seed : Z
}.

Inductive TransformDataset : Type :=
| TransformDataset_new (base : base_dataset) (transforms : list transform).

Definition transforms_of (d : TransformDataset) : list transform :=
  match d with TransformDataset_new _ ts => ts end.

(** [torch.utils.data.DataLoader], by its constructor arguments
    ([collate_fn] is the same constant in both calls). *)
Record DataLoader : Type := {
  dl_dataset : TransformDataset;
  dl_shuffle : option bool;
  dl_batch_sampler : option AspectRatioBucketBatchSampler;
  dl_batch_size : option Z;
  dl_num_workers : Z;
  dl_persistent_workers : bool
}.

(** [DataLoader(...)]: the constructor checks its arguments before it
    builds the loader.  The number of workers must not be negative, and
    workers can persist only if there are any.  A batch sampler excludes a
    batch size other than the default and shuffling; without one, the
    constructor makes a [BatchSampler] of the batch size, which must be
    positive.  (What the
    constructor checks of the dataset's content is out of sight here, as
    the content is: a [RandomSampler], made when shuffling, wants a dataset
    that is not empty.) *)
Definition DataLoader_new (dataset : TransformDataset) (shuffle : option bool)
    (batch_sampler : option AspectRatioBucketBatchSampler) (batch_size : option Z)
    (num_workers : Z) (persistent_workers : bool) : result DataLoader :=
  let loader :=
    {| dl_dataset := dataset; dl_shuffle := shuffle;
       dl_batch_sampler := batch_sampler; dl_batch_size := batch_size;
       dl_num_workers := num_workers;
       dl_persistent_workers := persistent_workers |} in
  if num_workers <? 0 then
    Raise (ValueError ("num_workers option should be non-negative; "
                       +:+ "use num_workers=0 to disable multiprocessing."))
  else if persistent_workers && (num_workers =? 0) then
    Raise (ValueError "persistent_workers option needs num_workers > 0")
  else
    match batch_sampler with
    | Some _ =>
        let exclusive :=
          ValueError ("batch_sampler option is mutually exclusive with "
                      +:+ "batch_size, shuffle, sampler, and drop_last") in
        match shuffle, batch_size with
        | Some true, _ => Raise exclusive
        | _, Some n => if n =? 1 then Ok loader else Raise exclusive
        | _, None => Ok loader
        end
    | None =>
        match batch_size with
        | Some n =>
            if n <=? 0 then
              Raise (ValueError ("batch_size should be a positive integer value, "
                                 +:+ "but got batch_size=" +:+ pretty n))
            else Ok loader
        | None => Ok loader
        end
    end.

Arguments DataLoader_new : simpl never.

(** What the builder does that can be observed from outside. *)
Inductive event : Type :=
| EvBuildBaseDataset (d : base_dataset)
| EvConstructTransform (t : transform)
| EvBuildBatchSampler
| EvTransformDataset
| EvDataLoader.

Definition exactly_one_msg : string :=
  "Exactly one of caption_templates, caption_preset, or apply_caption_prefix must be set.".

Definition construct (t : transform) : traced event transform :=
  emit (EvConstructTransform t) ;; tret t.

(** Lines 111-120: resolve the dataset. *)
Definition build_base_dataset (config : TextualInversionSDDataLoaderConfig)
  : traced event base_dataset :=
  match dataset config with
  | HFHubImageCaptionDatasetConfig _ =>
      let d := HFHubImageCaptionDataset (dataset config) in
      emit (EvBuildBaseDataset d) ;; tret d
  | HFDirImageCaptionDatasetConfig _ =>
      let d := HFDirImageCaptionDataset (dataset config) in
      emit (EvBuildBaseDataset d) ;; tret d
  | ImageDirDatasetConfig dir keep =>
      let d := ImageDirDataset dir keep in
      emit (EvBuildBaseDataset d) ;; tret d
  | OtherDatasetConfig ty =>
      traise (ValueError ("Unexpected dataset config type: '" +:+ ty +:+ "'."))
  end.

(** The [isinstance] chain of lines 111-120 recognises the configuration. *)
Definition supported_dataset (d : dataset_config) : bool :=
  match d with OtherDatasetConfig _ => false | _ => true end.

(** Line 122: the three caption sources, counted. *)
Definition caption_source_count (config : TextualInversionSDDataLoaderConfig) : Z :=
  sum_bools [ is_not_None (caption_templates config);
              is_not_None (caption_preset config);
              apply_caption_prefix config ].

(** Lines 125-144: the caption transform. *)
Definition build_caption_tf (config : TextualInversionSDDataLoaderConfig)
    (placeholder_token : string) : traced event transform :=
  match caption_templates config with
  | Some templates =>
      construct (TemplateCaptionTransform "caption" placeholder_token templates)
  | None =>
      match caption_preset config with
      | Some preset =>
          templates ← tlift (get_preset_ti_caption_templates preset);
          construct (TemplateCaptionTransform "caption" placeholder_token templates)
      | None =>
          if apply_caption_prefix config then
            construct (CaptionPrefixTransform "caption" (placeholder_token +:+ " "))
          else traise (ValueError exactly_one_msg)
      end
  end.

(** Lines 146-161: a fixed target resolution, or aspect-ratio buckets. *)
Definition build_batching (config : TextualInversionSDDataLoaderConfig)
    (base : base_dataset) (batch_size : Z) (shuffle : bool)
  : traced event (option Z * option AspectRatioBucketManager
                  * option AspectRatioBucketBatchSampler) :=
  match aspect_ratio_buckets config with
  | None => tret (Some (resolution config), None, None)
  | Some buckets =>
      let mgr := build_aspect_ratio_bucket_manager buckets in
      emit EvBuildBatchSampler ;;
      tret (None, Some mgr,
            Some {| bucket_manager := mgr; image_sizes_of := base;
                    sampler_batch_size := batch_size;
                    sampler_shuffle := shuffle; seed := 0 |})
  end.

(** Lines 165-166: the optional caption shuffle, appended. *)
Definition append_shuffle_tf (config : TextualInversionSDDataLoaderConfig)
    (all_transforms : list transform) : traced event (list transform) :=
  match shuffle_caption_delimiter config with
  | Some delimiter =>
      t ← construct (ShuffleCaptionTransform "caption" delimiter);
      tret (all_transforms ++ [t])
  | None => tret all_transforms
  end.

(** Lines 168-191: the image transform, or the cache in its place. *)
Definition vae_cache_fields : list (string * string) :=
  [ ("vae_output", "vae_output");
    ("original_size_hw", "original_size_hw");
    ("crop_top_left_yx", "crop_top_left_yx") ].

Definition append_image_tfs (config : TextualInversionSDDataLoaderConfig)
    (target_resolution : option Z)
    (aspect_ratio_bucket_manager : option AspectRatioBucketManager)
    (vae_output_cache_dir : option string)
    (all_transforms : list transform) : traced event (list transform) :=
  match vae_output_cache_dir with
  | None =>
      t ← construct (SDImageTransform target_resolution aspect_ratio_bucket_manager
                       (center_crop config) (random_flip config));
      tret (all_transforms ++ [t])
  | Some dir =>
      let vae_cache := TensorDiskCache_new dir in
      l ← construct (LoadCacheTransform vae_cache "id" vae_cache_fields);
      let all_transforms := all_transforms ++ [l] in
      d ← construct (DropFieldTransform "image");
      tret (all_transforms ++ [d])
  end.

Definition build_textual_inversion_sd_dataloader
    (config : TextualInversionSDDataLoaderConfig)
    (placeholder_token : string) (batch_size : Z)
    (vae_output_cache_dir : option string) (shuffle : bool)
  : traced event DataLoader :=
  base_dataset ← build_base_dataset config;
  (if negb (caption_source_count config =? 1)
   then traise (ValueError exactly_one_msg) else tret tt) ;;
  caption_tf ← build_caption_tf config placeholder_token;
  '(target_resolution, aspect_ratio_bucket_manager, batch_sampler) ←
    build_batching config base_dataset batch_size shuffle;
  let all_transforms := [caption_tf] in
  all_transforms ← append_shuffle_tf config all_transforms;
  all_transforms ← append_image_tfs config target_resolution
                     aspect_ratio_bucket_manager vae_output_cache_dir all_transforms;
  emit EvTransformDataset ;;
  let dataset := TransformDataset_new base_dataset all_transforms in
  emit EvDataLoader ;;
  match batch_sampler with
  | None =>
      tlift (DataLoader_new dataset (Some shuffle) None (Some batch_size)
               (dataloader_num_workers config)
               (0 <? dataloader_num_workers config))
  | Some sampler =>
      tlift (DataLoader_new dataset None (Some sampler) None
               (dataloader_num_workers config)
               (0 <? dataloader_num_workers config))
  end.

(** *** What the transforms do to a sample

    The transform classes and [TransformDataset] live in other files of the
    repository.  A sample is a dictionary from field names to values. *)

Section Samples.

Context {V : Type}.

(** What is on disk: the bundle stored under a cache directory for an id. *)
Variable disk : string -> V -> option (gmap string V).

(** [__call__] of the caption and image transforms. *)
Variable call_other : transform -> gmap string V -> result (gmap string V).

(** Modelled from the spec: [TensorDiskCache.load] is missing here; the
    spec has [load(id)] return the bundle saved under the id and fail with a
    missing-entry error when there is none. *)
Definition TensorDiskCache_load (cache : TensorDiskCache) (id : V)
  : result (gmap string V) :=
  match cache with
  | TensorDiskCache_new dir =>
      match disk dir id with
      | Some bundle => Ok bundle
      | None => Raise (KeyError "missing cache entry")
      end
  end.

(** Modelled from the spec: [LoadCacheTransform.__call__] is missing here;
    the spec has it hydrate the sample from the cache, by id: each cache
    field is copied into the output field it is mapped to. *)
Fixpoint hydrate (bundle : gmap string V) (fields : list (string * string))
    (sample : gmap string V) : result (gmap string V) :=
  match fields with
  | [] => Ok sample
  | (cache_field, output_field) :: rest =>
      match bundle !! cache_field with
      | Some v => hydrate bundle rest (<[output_field := v]> sample)
      | None => Raise (KeyError cache_field)
      end
  end.

(** Modelled from the spec: [DropFieldTransform.__call__] is missing here;
    the spec has it drop the named field from the sample. *)
Definition call_transform (t : transform) (sample : gmap string V)
  : result (gmap string V) :=
  match t with
  | LoadCacheTransform cache key fields =>
      match sample !! key with
      | Some id => bundle ← TensorDiskCache_load cache id; hydrate bundle fields sample
      | None => Raise (KeyError key)
      end
  | DropFieldTransform field => Ok (delete field sample)
  | _ => call_other t sample
  end.

(** Modelled from the spec: [TransformDataset.__getitem__] is missing here;
    the spec has the data pipeline apply the transform chain in order. *)
Fixpoint apply_transforms (ts : list transform) (sample : gmap string V)
  : result (gmap string V) :=
  match ts with
  | [] => Ok sample
  | t :: rest => sample' ← call_transform t sample; apply_transforms rest sample'
  end.

End Samples.

End TIDataLoader.

(** *** Loader configurations to evaluate *)

Module TIDataLoaderExample.

Import TIDataLoader.

(** Captions from the [object] preset, fixed resolution. *)
Definition preset_config : TextualInversionSDDataLoaderConfig :=
  {| dataset := ImageDirDatasetConfig "/data/images" false;
     caption_templates := None;
     caption_preset := Some "object";
     apply_caption_prefix := false;
     aspect_ratio_buckets := None;
     resolution := 512;
     shuffle_caption_delimiter := None;
     center_crop := true;
     random_flip := false;
     dataloader_num_workers := 0 |}.

(** No caption source at all. *)
Definition no_caption_source : TextualInversionSDDataLoaderConfig :=
  {| dataset := ImageDirDatasetConfig "/data/images" false;
     caption_templates := None;
     caption_preset := None;
     apply_caption_prefix := false;
     aspect_ratio_buckets := None;
     resolution := 512;
     shuffle_caption_delimiter := None;
     center_crop := true;
     random_flip := false;
     dataloader_num_workers := 0 |}.

End TIDataLoaderExample.

(** ** The forward pass of LoRA training *)

(** A computation over mutable state that either returns or raises; the
    state it leaves behind is the state at the return or at the raise. *)
Definition stateful (S A : Type) : Type := S -> result A * S.

Definition sret {S A} (a : A) : stateful S A := fun s => (Ok a, s).
Definition sraise {S A} (e : exception) : stateful S A := fun s => (Raise e, s).
Definition slift {S A} (r : result A) : stateful S A := fun s => (r, s).
Definition sbind {S A B} (m : stateful S A) (f : A -> stateful S B) : stateful S B :=
  fun s => match m s with
           | (Ok a, s') => f a s'
           | (Raise e, s') => (Raise e, s')
           end.
Definition sget {S} : stateful S S := fun s => (Ok s, s).
Definition smodify {S} (f : S -> S) : stateful S unit := fun s => (Ok tt, f s).

#[global] Instance stateful_ret {S} : MRet (stateful S) := fun A a => sret a.
#[global] Instance stateful_bind {S} : MBind (stateful S) := fun A B f m => sbind m f.

Module Forward.

(** [torch.dtype], as far as the pipeline uses it. *)
Inductive dtype : Type := float16 | bfloat16 | float32.

(** The arithmetic of tensor elements.  Nothing is assumed about it, so
    what is proved holds for the floating-point operations of the tensor
    library as for exact arithmetic. *)
Class Scalar (R : Type) : Type := {
  rzero : R;
  rone : R;
  radd : R -> R -> R;
  rsub : R -> R -> R;
  rmul : R -> R -> R;
  rdiv : R -> R -> R;
  rmin : R -> R -> R;
  rof_nat : nat -> R;
  rcast : dtype -> R -> R
}.

(** A tensor of two dimensions, the first being the batch: one row per
    example, the values of the example laid out in the row (latents, noise,
    predictions and targets are of this kind).  Broadcasting is between
    rows and within a row. *)
Abbreviation tensor R := (list (list R)).
(** A one-dimensional tensor. *)
Abbreviation vec R := (list R).

(** A value stored in a batch dictionary. *)
Inductive value (R : Type) : Type :=
| VTensor (t : tensor R)
| VVec (v : vec R)
| VCaptions (captions : list string).
Arguments VTensor {R} t.
Arguments VVec {R} v.
Arguments VCaptions {R} captions.

Definition as_tensor {R} (field : string) (v : value R) : result (tensor R) :=
  match v with
  | VTensor t => Ok t
  | _ => Raise (TypeError (field +:+ " is not a batched tensor"))
  end.

Definition as_captions {R} (field : string) (v : value R) : result (list string) :=
  match v with
  | VCaptions c => Ok c
  | _ => Raise (TypeError (field +:+ " is not a list of captions"))
  end.

(** [data_batch[key]]. *)
Definition getitem {R} (data_batch : gmap string (value R)) (key : string)
  : result (value R) :=
  match data_batch !! key with
  | Some v => Ok v
  | None => Raise (KeyError key)
  end.

(** [DDPMScheduler]: the two configuration entries the forward pass reads
    and the noise schedule its formulas work from. *)
Record DDPMScheduler (R : Type) : Type := {
  num_train_timesteps : Z;
  prediction_type : string;
  alphas_cumprod : list R
}.
Arguments num_train_timesteps {R} _.
Arguments prediction_type {R} _.
Arguments alphas_cumprod {R} _.

(** [noise_scheduler.register_to_config(prediction_type=p)]. *)
Definition register_to_config {R} (p : string) (sch : DDPMScheduler R) : DDPMScheduler R :=
  {| num_train_timesteps := num_train_timesteps sch;
     prediction_type := p;
     alphas_cumprod := alphas_cumprod sch |}.

(** The state the forward pass works on: the scheduler object it is handed
    and the generator behind [torch.randn_like], [torch.randint] and the
    sampling of the VAE's latent distribution. *)
Record state (R G : Type) : Type := {
  noise_scheduler : DDPMScheduler R;
  generator : G
}.
Arguments noise_scheduler {R G} _.
Arguments generator {R G} _.

(** The tensor library and the scheduler's formulas. *)
Class Library (R G : Type) : Type := {
  randn_like : tensor R -> G -> tensor R * G;
  randint : Z -> Z -> nat -> G -> list Z * G;
  add_noise : DDPMScheduler R -> tensor R -> tensor R -> list Z -> tensor R;
  get_velocity : DDPMScheduler R -> tensor R -> tensor R -> list Z -> tensor R;
  compute_snr : DDPMScheduler R -> list Z -> vec R
}.

(** The models handed to [train_forward]. *)
Record AutoencoderKL (R G : Type) : Type := {
  encode_sample : tensor R -> G -> tensor R * G;
  scaling_factor : R
}.
Arguments encode_sample {R G} _.
Arguments scaling_factor {R G} _.

Definition CLIPTokenizer : Type := list string -> list (list Z).
Definition CLIPTextModel (R : Type) : Type := list (list Z) -> tensor R.
Definition UNet2DConditionModel (R : Type) : Type :=
  tensor R -> list Z -> tensor R -> tensor R.

(** The part of [SdLoraConfig] the forward pass reads. *)
Record ForwardConfig : Type := {
  config_prediction_type : option string
}.

Section TrainForward.

Context {R G : Type} `{Scalar R} `{Library R G}.

(** Drawing from the generator. *)
Definition draw {A} (f : G -> A * G) : stateful (state R G) A :=
  fun st =>
    let '(a, g) := f (generator st) in
    (Ok a, {| noise_scheduler := noise_scheduler st; generator := g |}).

Definition scheduler : stateful (state R G) (DDPMScheduler R) :=
  fun st => (Ok (noise_scheduler st), st).

Definition update_scheduler (f : DDPMScheduler R -> DDPMScheduler R)
  : stateful (state R G) unit :=
  smodify (fun st => {| noise_scheduler := f (noise_scheduler st);
                        generator := generator st |}).

(** [t.to(dtype=...)], [t.float()], [t * c]. *)
Definition tensor_to (d : dtype) (t : tensor R) : tensor R := map (map (rcast d)) t.
Definition tensor_float (t : tensor R) : tensor R := tensor_to float32 t.
Definition tensor_scale (t : tensor R) (c : R) : tensor R :=
  map (map (fun x => rmul x c)) t.

(** An elementwise operation along one dimension, with broadcasting: the
    sizes are equal, or one of them is one and its entry meets every entry
    of the other side. *)
Definition broadcast {A B C} (op : A -> B -> C) (a : list A) (b : list B)
  : result (list C) :=
  if bool_decide (length a = length b) then Ok (zip_with op a b)
  else match a, b with
       | _, [y] => Ok (map (fun x => op x y) a)
       | [x], _ => Ok (map (fun y => op x y) b)
       | _, _ => Raise (RuntimeError "the sizes of the tensors must match")
       end.

(** The results of a list of steps, or the first exception among them. *)
Fixpoint collect {A} (rs : list (result A)) : result (list A) :=
  match rs with
  | [] => Ok []
  | r :: rs => x ← r; xs ← collect rs; Ok (x :: xs)
  end.

(** An elementwise operation on two tensors, with broadcasting along both
    dimensions. *)
Definition broadcast_tensors (op : R -> R -> R) (a b : tensor R)
  : result (tensor R) :=
  rows ← broadcast (broadcast op) a b; collect rows.

(** [torch.nn.functional.mse_loss(a, b, reduction="none")]: the squared
    differences, element by element, of the two tensors broadcast against
    each other. *)
Definition squared_error (x y : R) : R := rmul (rsub x y) (rsub x y).

Definition mse_loss_none (a b : tensor R) : result (tensor R) :=
  broadcast_tensors squared_error a b.

(** [v.mean()] of a one-dimensional tensor, and [t.mean(dim=[1, ..])]. *)
Definition vsum (v : vec R) : R := foldr radd rzero v.
Definition vmean (v : vec R) : R := rdiv (vsum v) (rof_nat (length v)).
Definition mean_except_batch (t : tensor R) : vec R := map vmean t.

(** [torch.clamp(v, max=m)]. *)
Definition clamp_max (v : vec R) (m : R) : vec R := map (fun x => rmin x m) v.

(** Lines 176-181: the latents, cached or encoded now. *)
Definition get_latents (data_batch : gmap string (value R)) (vae : AutoencoderKL R G)
    (weight_dtype : dtype) : stateful (state R G) (tensor R) :=
  match data_batch !! "vae_output" with
  | Some v => slift (as_tensor "vae_output" v)
  | None =>
      image ← slift (getitem data_batch "image" ≫= as_tensor "image");
      latents ← draw (encode_sample vae (tensor_to weight_dtype image));
      mret (tensor_scale latents (scaling_factor vae))
  end.

(** Lines 200-205: the conditioning, cached or encoded now. *)
Definition get_encoder_hidden_states (data_batch : gmap string (value R))
    (tokenizer : CLIPTokenizer) (text_encoder : CLIPTextModel R)
    (weight_dtype : dtype) : stateful (state R G) (tensor R) :=
  match data_batch !! "text_encoder_output" with
  | Some v => slift (as_tensor "text_encoder_output" v)
  | None =>
      captions ← slift (getitem data_batch "caption" ≫= as_captions "caption");
      let caption_token_ids := tokenizer captions in
      mret (tensor_to weight_dtype (text_encoder caption_token_ids))
  end.

Definition unknown_prediction_type (p : string) : exception :=
  ValueError ("Unknown prediction type " +:+ p).

(** Lines 207-216: the target of the loss. *)
Definition select_target (config : ForwardConfig) (latents noise : tensor R)
    (timesteps : list Z) : stateful (state R G) (tensor R) :=
  match config_prediction_type config with
  | Some p => update_scheduler (register_to_config p)
  | None => mret tt
  end ;;
  sch ← scheduler;
  if String.eqb (prediction_type sch) "epsilon" then mret noise
  else if String.eqb (prediction_type sch) "v_prediction" then
    mret (get_velocity sch latents noise timesteps)
  else sraise (unknown_prediction_type (prediction_type sch)).

(** Lines 221-239: the min-SNR weights, if a gamma is given. *)
Definition compute_min_snr_weights (timesteps : list Z) (min_snr_gamma : option R)
  : stateful (state R G) (option (vec R)) :=
  match min_snr_gamma with
  | None => mret None
  | Some gamma =>
      sch ← scheduler;
      let snr := compute_snr sch timesteps in
      min_snr_weights ← slift (broadcast rdiv (clamp_max snr gamma) snr);
      if String.eqb (prediction_type sch) "epsilon" then mret (Some min_snr_weights)
      else if String.eqb (prediction_type sch) "v_prediction" then
        mret (Some (map (fun w => radd w rone) min_snr_weights))
      else sraise (unknown_prediction_type (prediction_type sch))
  end.

(** Line 252, [loss * data_batch["loss_weight"]]: the product of the
    one-dimensional loss with whatever the batch holds under the key,
    broadcast.  Against a tensor of two dimensions the loss is a single row,
    and the product has a row for each row of the tensor; its entries are
    listed row by row, as all that follows is their mean.  A list is no
    factor for a tensor of floating-point numbers. *)
Definition mul_loss_weight (loss : vec R) (v : value R) : result (vec R) :=
  match v with
  | VVec w => broadcast rmul loss w
  | VTensor t => rows ← collect (map (broadcast rmul loss) t); Ok (concat rows)
  | VCaptions _ =>
      Raise (TypeError "only integer tensors of a single element can be converted to an index")
  end.

(** Lines 241-252: the loss of each example, weighted. *)
Definition per_example_loss (data_batch : gmap string (value R))
    (model_pred target : tensor R) (min_snr_weights : option (vec R))
  : result (vec R) :=
  loss ← mse_loss_none (tensor_float model_pred) (tensor_float target);
  let loss := mean_except_batch loss in
  loss ← match min_snr_weights with
         | Some w => broadcast rmul loss w
         | None => Ok loss
         end;
  match data_batch !! "loss_weight" with
  | Some v => mul_loss_weight loss v
  | None => Ok loss
  end.

(** Lines 241-254. *)
Definition reduce_loss (data_batch : gmap string (value R))
    (model_pred target : tensor R) (min_snr_weights : option (vec R)) : result R :=
  loss ← per_example_loss data_batch model_pred target min_snr_weights;
  Ok (vmean loss).

(** The local variables of [train_forward] when it reaches line 241. *)
Record locals : Type := {
  latents : tensor R;
  noise : tensor R;
  timesteps : list Z;
  noisy_latents : tensor R;
  encoder_hidden_states : tensor R;
  target : tensor R;
  model_pred : tensor R;
  min_snr_weights : option (vec R)
}.

(** Lines 176-239. *)
Definition forward_locals (config : ForwardConfig)
    (data_batch : gmap string (value R))
    (vae : AutoencoderKL R G)
    (tokenizer : CLIPTokenizer) (text_encoder : CLIPTextModel R)
    (unet : UNet2DConditionModel R)
    (weight_dtype : dtype) (min_snr_gamma : option R)
  : stateful (state R G) locals :=
  latents ← get_latents data_batch vae weight_dtype;
  noise ← draw (randn_like latents);
  let batch_size := length latents in
  sch ← scheduler;
  timesteps ← draw (randint 0 (num_train_timesteps sch) batch_size);
  sch ← scheduler;
  let noisy_latents := add_noise sch latents noise timesteps in
  encoder_hidden_states ←
    get_encoder_hidden_states data_batch tokenizer text_encoder weight_dtype;
  target ← select_target config latents noise timesteps;
  let model_pred := unet noisy_latents timesteps encoder_hidden_states in
  min_snr_weights ← compute_min_snr_weights timesteps min_snr_gamma;
  mret {| latents := latents; noise := noise; timesteps := timesteps;
          noisy_latents := noisy_latents;
          encoder_hidden_states := encoder_hidden_states;
          target := target; model_pred := model_pred;
          min_snr_weights := min_snr_weights |}.

Definition train_forward (config : ForwardConfig)
    (data_batch : gmap string (value R))
    (vae : AutoencoderKL R G)
    (tokenizer : CLIPTokenizer) (text_encoder : CLIPTextModel R)
    (unet : UNet2DConditionModel R)
    (weight_dtype : dtype) (min_snr_gamma : option R)
  : stateful (state R G) R :=
  l ← forward_locals config data_batch vae tokenizer text_encoder unet
        weight_dtype min_snr_gamma;
  slift (reduce_loss data_batch (model_pred l) (target l) (min_snr_weights l)).

(** The prediction type the scheduler is configured with once the
    configuration's override, if any, has been registered. *)
Definition effective_prediction_type (config : ForwardConfig) (st : state R G) : string :=
  match config_prediction_type config with
  | Some p => p
  | None => prediction_type (noise_scheduler st)
  end.

(** The state once the configuration's override, if any, has been
    registered with the scheduler. *)
Definition registered (config : ForwardConfig) (st : state R G) : state R G :=
  match config_prediction_type config with
  | Some p => {| noise_scheduler := register_to_config p (noise_scheduler st);
                 generator := generator st |}
  | None => st
  end.

End TrainForward.

End Forward.

(** *** A small instance to run the forward pass on

    Exact rational arithmetic, a counter as generator, and toy models. *)

Module ForwardExample.

Import Forward.

#[export] Instance Q_scalar : Scalar Q := {|
  rzero := 0%Q;
  rone := 1%Q;
  radd x y := Qred (x + y);
  rsub x y := Qred (x - y);
  rmul x y := Qred (x * y);
  rdiv x y := Qred (x / y);
  rmin x y := Qmin x y;
  rof_nat n := inject_Z (Z.of_nat n);
  rcast _ x := x
|}.

(** The generator counts the draws; the [n]-th draw fills a tensor with
    [n + 1], or picks the timestep [n] modulo the range. *)
#[export] Instance counter_library : Library Q nat := {|
  randn_like t g := (map (map (fun _ => inject_Z (Z.of_nat (S g)))) t, S g);
  randint low high size g :=
    (replicate size (low + Z.of_nat g `mod` (high - low)), S g);
  add_noise sch latents noise timesteps :=
    zip_with (zip_with (fun x n => Qred (x + n))) latents noise;
  get_velocity sch latents noise timesteps :=
    zip_with (zip_with (fun x n => Qred (n - x))) latents noise;
  compute_snr sch timesteps := map (fun t => inject_Z (t + 1)) timesteps
|}.

Definition vae : AutoencoderKL Q nat :=
  {| encode_sample image g := (image, S g); scaling_factor := (1 # 2)%Q |}.

Definition tokenizer : CLIPTokenizer := map (fun caption => [Z.of_nat (String.length caption)]).

Definition text_encoder : CLIPTextModel Q := map (map inject_Z).

(** The toy denoiser answers with the noisy latents it was given. *)
Definition unet : UNet2DConditionModel Q :=
  fun noisy_latents timesteps encoder_hidden_states => noisy_latents.

Definition epsilon_scheduler : DDPMScheduler Q :=
  {| num_train_timesteps := 1000; prediction_type := "epsilon";
     alphas_cumprod := [] |}.

Definition initial_state : state Q nat :=
  {| noise_scheduler := epsilon_scheduler; generator := 3%nat |}.

(** Two examples of two latent values each, with cached latents and
    conditioning and a per-example loss weight. *)
Definition cached_batch : gmap string (value Q) :=
  <["vae_output" := VTensor [[1%Q; 2%Q]; [3%Q; 5%Q]]]>
  (<["text_encoder_output" := VTensor [[0%Q]; [0%Q]]]>
  (<["loss_weight" := VVec [2%Q; (1 # 2)%Q]]> ∅)).

(** The same examples as raw images with captions. *)
Definition raw_batch : gmap string (value Q) :=
  <["image" := VTensor [[2%Q; 4%Q]; [6%Q; 10%Q]]]>
  (<["caption" := VCaptions ["a photo"; "a painting"]]> ∅).

Definition no_override : ForwardConfig := {| config_prediction_type := None |}.
Definition v_override : ForwardConfig :=
  {| config_prediction_type := Some "v_prediction" |}.
Definition sample_override : ForwardConfig :=
  {| config_prediction_type := Some "sample" |}.

End ForwardExample.

(** ** The training run *)

Module Train.

(** The fields of the data loader configuration [train] reads itself. *)
Record DataLoaderConfig : Type := {
  type : string;
  random_flip : bool;
  center_crop : bool
}.

(** The fields of [SdLoraConfig] that decide what [train] does. *)
Record SdLoraConfig : Type := {
  seed : option Z;
  xformers : bool;
  cache_text_encoder_outputs : bool;
  cache_vae_outputs : bool;
  data_loader : DataLoaderConfig;
  train_unet : bool;
  train_text_encoder : bool;
  gradient_checkpointing : bool;
  gradient_accumulation_steps : Z;
  max_train_steps : option Z;
  max_train_epochs : option Z;
  save_every_n_steps : option Z;
  save_every_n_epochs : option Z;
  validate_every_n_steps : option Z;
  validate_every_n_epochs : option Z;
  validation_prompts : list string;
  lora_checkpoint_format : string
}.

(** What the run cannot read off its configuration: which process it is,
    how many batches the data loader has, and whether [train_forward], the
    backward pass and the optimizer step of a given batch go through (the
    forward pass itself is the subject of [Forward]). *)
Record Environment : Type := {
  is_local_main_process : bool;
  is_main_process : bool;
  (* [len(data_loader)] as built, and after [accelerator.prepare] *)
  num_batches : nat;
  prepared_num_batches : nat;
  train_step : Z -> nat -> result unit
}.

(** The calls [train] makes into its collaborators. *)
Inductive event : Type :=
| EvMakeDirs
| EvInitAccelerator
| EvSetSeed (seed : Z)
| EvWriteConfig
| EvLoadModels
| EvEnableXformers
| EvBuildDataLoader
| EvCacheTextEncoderOutputs
| EvCacheVaeOutputs
| EvInjectLora (model : string)
| EvGradientCheckpointing
| EvInitOptimizer
| EvGetScheduler (num_train_steps : Z)
| EvPrepare
| EvInitTrackers
| EvTrainStep (epoch : Z) (data_batch_idx : nat)
| EvLog (global_step : Z)
| EvSaveCheckpoint (num_completed_epochs num_completed_steps : Z)
| EvValidate (num_completed_epochs num_completed_steps : Z)
| EvBatchDone (epoch : Z) (data_batch_idx : nat) (sync_gradients : bool)
    (global_step : Z)
| EvEndTraining.

Definition when (b : bool) (m : traced event unit) : traced event unit :=
  if b then m else tret tt.

(** [_build_data_loader]: dispatch on the configured loader type. *)
Definition _build_data_loader (data_loader_config : DataLoaderConfig)
  : traced event unit :=
  if String.eqb (type data_loader_config) "IMAGE_CAPTION_SD_DATA_LOADER" then
    emit EvBuildDataLoader
  else if String.eqb (type data_loader_config) "DREAMBOOTH_SD_DATA_LOADER" then
    emit EvBuildDataLoader
  else traise (ValueError ("Unsupported data loader config type: '"
                           +:+ type data_loader_config +:+ "'.")).

(** Lines 113-138 and 141-157: the two cache-filling passes. *)
Definition cache_text_encoder_outputs_job (config : SdLoraConfig) : traced event unit :=
  _build_data_loader (data_loader config) ;; emit EvCacheTextEncoderOutputs.

Definition cache_vae_outputs_job : traced event unit := emit EvCacheVaeOutputs.

Definition cache_conflict_msg : string :=
  "'cache_text_encoder_outputs' and 'train_text_encoder' cannot both be True.".

(** Lines 266-304: output directory, accelerator, seed, configuration
    dump, model loading, xformers. *)
Definition start_up (config : SdLoraConfig) : traced event unit :=
  emit EvMakeDirs ;;
  emit EvInitAccelerator ;;
  match seed config with Some s => emit (EvSetSeed s) | None => tret tt end ;;
  emit EvWriteConfig ;;
  emit EvLoadModels ;;
  when (xformers config) (emit EvEnableXformers).

(** Lines 306-328: the text encoder output cache. *)
Definition prepare_text_encoder_cache (config : SdLoraConfig) (env : Environment)
  : traced event unit :=
  if cache_text_encoder_outputs config then
    (if train_text_encoder config then traise (ValueError cache_conflict_msg)
     else tret tt) ;;
    when (is_local_main_process env) (cache_text_encoder_outputs_job config)
  else tret tt.

(** Lines 330-357: the VAE output cache. *)
Definition prepare_vae_cache (config : SdLoraConfig) (env : Environment)
  : traced event unit :=
  if cache_vae_outputs config then
    (if random_flip (data_loader config) then
       traise (ValueError "'cache_vae_outputs' cannot be True if 'random_flip' is True.")
     else tret tt) ;;
    (if negb (center_crop (data_loader config)) then
       traise (ValueError "'cache_vae_outputs' cannot be True if 'center_crop' is False.")
     else tret tt) ;;
    when (is_local_main_process env)
      (_build_data_loader (data_loader config) ;; cache_vae_outputs_job)
  else tret tt.

(** Lines 361-439: adapters, optimizer, data loader. *)
Definition build_trainables (config : SdLoraConfig) : traced event unit :=
  when (train_unet config) (emit (EvInjectLora "unet")) ;;
  when (train_text_encoder config) (emit (EvInjectLora "text_encoder")) ;;
  when (gradient_checkpointing config) (emit EvGradientCheckpointing) ;;
  emit EvInitOptimizer ;;
  _build_data_loader (data_loader config).

(** Lines 441-443. *)
Definition exactly_one {A B} (a : option A) (b : option B) : bool :=
  sum_bools [is_not_None a; is_not_None b] =? 1.

Definition assert (b : bool) : traced event unit :=
  if b then tret tt else traise AssertionError.

Definition check_exactly_one (config : SdLoraConfig) : traced event unit :=
  assert (exactly_one (max_train_steps config) (max_train_epochs config)) ;;
  assert (exactly_one (save_every_n_steps config) (save_every_n_epochs config)) ;;
  assert (exactly_one (validate_every_n_steps config) (validate_every_n_epochs config)).

(** [n / d] rounded to the nearest integer, a tie going to the even one;
    for [0 < d]. *)
Definition round_half_even (n d : Z) : Z :=
  let q := n / d in
  let r := n `mod` d in
  if 2 * r <? d then q
  else if d <? 2 * r then q + 1
  else if Z.even q then q else q + 1.

(** [2 ^ e <= a / b], for positive [a] and [b]. *)
Definition pow2_le_quotient (e a b : Z) : bool :=
  if 0 <=? e then b * 2 ^ e <=? a else b <=? a * 2 ^ (- e).

(** The binary exponent of [a / b]: the [e] with
    [2 ^ e <= a / b < 2 ^ (e + 1)]. *)
Definition quotient_exponent (a b : Z) : Z :=
  let e := Z.log2 a - Z.log2 b in
  if pow2_le_quotient e a b then e else e - 1.

(** [a / b] on Python integers, for [0 <= a] and [0 < b]: the float
    (IEEE 754 binary64) nearest to the quotient, a tie going to the even
    mantissa.  The float is [m * 2 ^ k]: a mantissa of 53 bits, or of fewer
    below [2 ^ -1022], where the floats are [2 ^ -1074] apart.  The exponent
    has no upper bound here: a quotient beyond the largest float (about
    1.8e308), where Python raises [OverflowError], is not told apart. *)
Definition float_quotient (a b : Z) : Z * Z :=
  let k := Z.max (quotient_exponent a b - 52) (-1074) in
  let m := if 0 <=? k then round_half_even a (b * 2 ^ k)
           else round_half_even (a * 2 ^ (- k)) b in
  (m, k).

(** [math.ceil] of the float [m * 2 ^ k]. *)
Definition ceil_float (m k : Z) : Z :=
  if 0 <=? k then m * 2 ^ k else - ((- m) / 2 ^ (- k)).

(** [math.ceil(a / b)] for [b] other than zero: the quotient is rounded
    to a float before the ceiling is taken. *)
Definition true_div_ceil (a b : Z) : Z :=
  let '(m, k) := float_quotient (Z.abs a) (Z.abs b) in
  ceil_float (Z.sgn a * Z.sgn b * m) k.

(** [math.ceil(a / b)]. *)
Definition ceil_div (a b : Z) : result Z :=
  if b =? 0 then Raise ZeroDivisionError else Ok (true_div_ceil a b).

(** The step budget of lines 448-450. *)
Record Schedule : Type := {
  num_steps_per_epoch : Z;
  num_train_steps : Z;
  num_train_epochs : Z
}.

(** [config.max_train_steps or config.max_train_epochs * num_steps_per_epoch]:
    the right operand is evaluated when the left is [None] or zero. *)
Definition steps_or_epochs (config : SdLoraConfig) (num_steps_per_epoch : Z) : result Z :=
  let from_epochs :=
    match max_train_epochs config with
    | Some e => Ok (e * num_steps_per_epoch)
    | None => Raise (TypeError "unsupported operand type(s) for *: 'NoneType' and 'int'")
    end in
  match max_train_steps config with
  | Some s => if s =? 0 then from_epochs else Ok s
  | None => from_epochs
  end.

Definition compute_schedule (config : SdLoraConfig) (len_data_loader : nat)
  : result Schedule :=
  num_steps_per_epoch ←
    ceil_div (Z.of_nat len_data_loader) (gradient_accumulation_steps config);
  num_train_steps ← steps_or_epochs config num_steps_per_epoch;
  num_train_epochs ← ceil_div num_train_steps num_steps_per_epoch;
  Ok {| num_steps_per_epoch := num_steps_per_epoch;
        num_train_steps := num_train_steps;
        num_train_epochs := num_train_epochs |}.

(** The accelerator's bookkeeping of gradient accumulation. *)
Record Accelerator : Type := {
  step : Z;
  sync_gradients : bool
}.

(** Entering [accelerator.accumulate(...)] under the accelerator's default
    policy, the one the comment at lines 445-447 relies on: gradients are
    synchronised every [gradient_accumulation_steps] batches, and on the
    last batch of the data loader, where the batch counter starts over. *)
Definition accelerate_accumulate (gradient_accumulation_steps : Z)
    (end_of_dataloader : bool) (acc : Accelerator) : Accelerator :=
  if end_of_dataloader then {| step := 0; sync_gradients := true |}
  else {| step := step acc + 1;
          sync_gradients := (step acc + 1) `mod` gradient_accumulation_steps =? 0 |}.

Record LoopState : Type := {
  global_step : Z;
  completed_epochs : Z;
  accelerator : Accelerator
}.

(** [cadence is not None and x % cadence == 0]. *)
Definition is_multiple (cadence : option Z) (x : Z) : result bool :=
  match cadence with
  | None => Ok false
  | Some n => if n =? 0 then Raise ZeroDivisionError else Ok (x `mod` n =? 0)
  end.

Section Loop.

(** Entering the accumulation context: how the accelerator decides, batch
    by batch, whether this one completes an optimizer update. *)
Variable accumulate : bool -> Accelerator -> Accelerator.

Variable config : SdLoraConfig.
Variable env : Environment.
Variable schedule : Schedule.

(** Lines 515-528 with [_save_sd_lora_checkpoint]. *)
Definition save_checkpoint (num_completed_epochs num_completed_steps : Z)
  : traced event unit :=
  when (is_main_process env)
    (if String.eqb (lora_checkpoint_format config) "invoke_peft" then
       emit (EvSaveCheckpoint num_completed_epochs num_completed_steps)
     else if String.eqb (lora_checkpoint_format config) "kohya" then
       emit (EvSaveCheckpoint num_completed_epochs num_completed_steps)
     else traise (ValueError ("Unsupported lora_checkpoint_format: '"
                              +:+ lora_checkpoint_format config +:+ "'."))).

(** Lines 530-547. *)
Definition validate (num_completed_epochs num_completed_steps : Z)
  : traced event unit :=
  when (is_main_process env) (emit (EvValidate num_completed_epochs num_completed_steps)).

Definition has_prompts : bool := negb (length (validation_prompts config) =? 0)%nat.

(** Lines 580-610: what happens when the accelerator has synchronised. *)
Definition on_sync (epoch : Z) (data_batch_idx : nat) (st : LoopState)
  : traced event LoopState :=
  let global_step := global_step st + 1 in
  let completed_epochs :=
    if (Z.of_nat data_batch_idx + 1 <? Z.of_nat (prepared_num_batches env))
    then epoch else epoch + 1 in
  emit (EvLog global_step) ;;
  due ← tlift (is_multiple (save_every_n_steps config) global_step);
  when due (save_checkpoint completed_epochs global_step) ;;
  due ← tlift (is_multiple (validate_every_n_steps config) global_step);
  when (due && has_prompts) (validate completed_epochs global_step) ;;
  tret {| global_step := global_step; completed_epochs := completed_epochs;
          accelerator := accelerator st |}.

(** Lines 552-616: one batch. *)
Definition train_batch (epoch : Z) (data_batch_idx : nat) (st : LoopState)
  : traced event LoopState :=
  let end_of_dataloader := (S data_batch_idx =? prepared_num_batches env)%nat in
  let st := {| global_step := global_step st;
               completed_epochs := completed_epochs st;
               accelerator := accumulate end_of_dataloader (accelerator st) |} in
  tlift (train_step env epoch data_batch_idx) ;;
  emit (EvTrainStep epoch data_batch_idx) ;;
  st ← (if sync_gradients (accelerator st) then on_sync epoch data_batch_idx st
        else tret st);
  emit (EvBatchDone epoch data_batch_idx (sync_gradients (accelerator st))
          (global_step st)) ;;
  tret st.

(** Lines 551-619: the batches of one epoch, left early once the step
    budget is used up. *)
Fixpoint batch_loop (epoch : Z) (batches : list nat) (st : LoopState)
  : traced event LoopState :=
  match batches with
  | [] => tret st
  | data_batch_idx :: rest =>
      st ← train_batch epoch data_batch_idx st;
      if num_train_steps schedule <=? global_step st then tret st
      else batch_loop epoch rest st
  end.

(** Lines 621-631: what follows the batches of an epoch. *)
Definition after_epoch (st : LoopState) : traced event unit :=
  due ← tlift (is_multiple (save_every_n_epochs config) (completed_epochs st));
  when due (save_checkpoint (completed_epochs st) (global_step st)) ;;
  due ← tlift (is_multiple (validate_every_n_epochs config) (completed_epochs st));
  when (due && has_prompts) (validate (completed_epochs st) (global_step st)).

(** Lines 549-631. *)
Fixpoint epoch_loop (epochs : list Z) (st : LoopState) : traced event LoopState :=
  match epochs with
  | [] => tret st
  | epoch :: rest =>
      st ← batch_loop epoch (seq 0 (prepared_num_batches env)) st;
      after_epoch st ;;
      epoch_loop rest st
  end.

(** [range(first_epoch, num_train_epochs)] with [first_epoch = 0]. *)
Definition epoch_range : list Z :=
  map Z.of_nat (seq 0 (Z.to_nat (num_train_epochs schedule))).

Definition initial_loop_state : LoopState :=
  {| global_step := 0; completed_epochs := 0;
     accelerator := {| step := 0; sync_gradients := false |} |}.

Definition training_loop : traced event LoopState :=
  epoch_loop epoch_range initial_loop_state.

End Loop.

(** Lines 266-439: everything before the assertions. *)
Definition before_asserts (config : SdLoraConfig) (env : Environment)
  : traced event unit :=
  start_up config ;;
  prepare_text_encoder_cache config env ;;
  prepare_vae_cache config env ;;
  build_trainables config.

(** Lines 266-443: everything before the step budget is computed. *)
Definition set_up (config : SdLoraConfig) (env : Environment) : traced event unit :=
  before_asserts config env ;;
  check_exactly_one config.

Definition train (config : SdLoraConfig) (env : Environment) : traced event LoopState :=
  set_up config env ;;
  schedule ← tlift (compute_schedule config (num_batches env));
  emit (EvGetScheduler (num_train_steps schedule)) ;;
  emit EvPrepare ;;
  when (is_main_process env) (emit EvInitTrackers) ;;
  st ← training_loop (accelerate_accumulate (gradient_accumulation_steps config))
         config env schedule;
  emit EvEndTraining ;;
  tret st.

(** Exactly one of two options is set. *)
Definition exactly_one_set {A B} (a : option A) (b : option B) : Prop :=
  (is_Some a /\ b = None) \/ (a = None /\ is_Some b).

(** No cadence is zero: [x % 0] raises. *)
Definition nonzero (cadence : option Z) : bool :=
  match cadence with Some n => negb (n =? 0) | None => true end.

Definition cadences_nonzero (config : SdLoraConfig) : bool :=
  nonzero (save_every_n_steps config) && nonzero (save_every_n_epochs config)
  && nonzero (validate_every_n_steps config) && nonzero (validate_every_n_epochs config).

Definition supported_checkpoint_format (config : SdLoraConfig) : bool :=
  String.eqb (lora_checkpoint_format config) "invoke_peft"
  || String.eqb (lora_checkpoint_format config) "kohya".

(** The step budget as the configuration states it: [max_train_steps], or
    [max_train_epochs] times the optimizer updates of an epoch. *)
Definition step_budget (config : SdLoraConfig) (len_data_loader : nat) : Z :=
  match max_train_steps config with
  | Some s => s
  | None =>
      match max_train_epochs config with
      | Some e =>
          e * ((Z.of_nat len_data_loader + gradient_accumulation_steps config - 1)
               / gradient_accumulation_steps config)
      | None => 0
      end
  end.

(** The batches a trace ran in a given epoch that completed an optimizer
    update. *)
Definition is_update_in (epoch : Z) (ev : event) : bool :=
  match ev with
  | EvBatchDone e _ sync _ => (e =? epoch) && sync
  | _ => false
  end.

Definition updates_in (epoch : Z) (trace : list event) : nat :=
  length (filter (fun ev => is_update_in epoch ev = true) trace).

Definition is_batch_done (ev : event) : bool :=
  match ev with EvBatchDone _ _ _ _ => true | _ => false end.

(** The batches of a trace, as (sync, global step) pairs in order. *)
Definition batch_record (ev : event) : option (bool * Z) :=
  match ev with
  | EvBatchDone _ _ sync global_step => Some (sync, global_step)
  | _ => None
  end.

Definition batch_records (trace : list event) : list (bool * Z) :=
  omap batch_record trace.

(** Each batch leaves the step counter where it was, or one higher when
    the batch synchronised. *)
Fixpoint counts_syncs (global_step : Z) (records : list (bool * Z)) : Prop :=
  match records with
  | [] => True
  | (sync, global_step') :: rest =>
      global_step' = global_step + Z.b2z sync /\ counts_syncs global_step' rest
  end.

(** Under the accelerator's default policy, batch [idx] of an epoch of
    [len] batches synchronises when it is the last one or completes a group
    of [gradient_accumulation_steps]. *)
Definition sync_at (gradient_accumulation_steps : Z) (len idx : nat) : bool :=
  (S idx =? len)%nat || ((Z.of_nat idx + 1) `mod` gradient_accumulation_steps =? 0).

(** The number of synchronising batches among the [k] batches from [i] on. *)
Fixpoint syncs (gradient_accumulation_steps : Z) (len i k : nat) : Z :=
  match k with
  | O => 0
  | S k' => Z.b2z (sync_at gradient_accumulation_steps len i)
            + syncs gradient_accumulation_steps len (S i) k'
  end.

(** The batches recorded stay below the budget [n], except that the last
    one may reach it, by a synchronisation. *)
Definition stops_at (n : Z) (records : list (bool * Z)) (final : Z) : Prop :=
  if final <? n then Forall (fun r => r.2 < n) records
  else exists init, records = init ++ [(true, n)] /\ Forall (fun r => r.2 < n) init.

(** Every forward and backward pass goes through. *)
Definition steps_succeed (env : Environment) : Prop :=
  forall epoch idx, train_step env epoch idx = Ok tt.

(** How many of the recorded batches synchronised. *)
Definition sync_count (records : list (bool * Z)) : Z :=
  foldr (fun r n => Z.b2z r.1 + n) 0 records.

(** The step counter after the batches recorded, starting from
    [global_step]. *)
Definition last_step (global_step : Z) (records : list (bool * Z)) : Z :=
  foldl (fun _ r => r.2) global_step records.

(** What a run of (part of) the loop from [global_step] leaves in the
    trace and in the state: every batch counted as [counts_syncs] says, and
    the state's counter where the last batch left it. *)
Definition tracks (global_step0 : Z) (m : traced event LoopState) : Prop :=
  counts_syncs global_step0 (batch_records m.1) /\
  (forall st, m.2 = Ok st ->
     global_step st = last_step global_step0 (batch_records m.1)).

(** Events that compute with a model. *)
Definition is_computation (ev : event) : bool :=
  match ev with
  | EvCacheTextEncoderOutputs | EvCacheVaeOutputs | EvTrainStep _ _
  | EvValidate _ _ => true
  | _ => false
  end.

(** Events of the training loop proper. *)
Definition is_training (ev : event) : bool :=
  match ev with
  | EvTrainStep _ _ | EvLog _ | EvSaveCheckpoint _ _ | EvValidate _ _
  | EvBatchDone _ _ _ _ | EvEndTraining => true
  | _ => false
  end.

(** The exceptions [train] raises over its configuration: the [ValueError]s
    of its checks and the [AssertionError] of lines 441-443. *)
Definition is_configuration_error (e : exception) : bool :=
  match e with
  | ValueError _ | AssertionError => true
  | _ => false
  end.

(** A phase of the set-up: it runs no part of the training loop, and what
    it raises is a configuration error. *)
Definition set_up_phase {A} (m : traced event A) : Prop :=
  (forall ev, ev ∈ m.1 -> is_training ev = false) /\
  (forall e, m.2 = Raise e -> is_configuration_error e = true).

End Train.

(** *** Runs to evaluate *)

Module TrainExample.

Import Train.

Definition single_process (len_data_loader : nat) : Environment :=
  {| is_local_main_process := true; is_main_process := true;
     num_batches := len_data_loader; prepared_num_batches := len_data_loader;
     train_step := fun _ _ => Ok tt |}.

(** One of two processes: [accelerator.prepare] hands it every other one of
    the ten batches. *)
Definition two_processes : Environment :=
  {| is_local_main_process := true; is_main_process := true;
     num_batches := 10; prepared_num_batches := 5;
     train_step := fun _ _ => Ok tt |}.

(** A plain configuration: ten optimizer updates, two batches each, a
    checkpoint and validation images after every epoch. *)
Definition ten_steps : SdLoraConfig :=
  {| seed := Some 1; xformers := false;
     cache_text_encoder_outputs := false; cache_vae_outputs := false;
     data_loader := {| type := "IMAGE_CAPTION_SD_DATA_LOADER";
                       random_flip := false; center_crop := true |};
     train_unet := true; train_text_encoder := false;
     gradient_checkpointing := false;
     gradient_accumulation_steps := 2;
     max_train_steps := Some 10; max_train_epochs := None;
     save_every_n_steps := None; save_every_n_epochs := Some 1;
     validate_every_n_steps := None; validate_every_n_epochs := Some 1;
     validation_prompts := ["a photo"];
     lora_checkpoint_format := "invoke_peft" |}.

Definition with_max_train_steps (n : Z) (config : SdLoraConfig) : SdLoraConfig :=
  {| seed := seed config; xformers := xformers config;
     cache_text_encoder_outputs := cache_text_encoder_outputs config;
     cache_vae_outputs := cache_vae_outputs config;
     data_loader := data_loader config;
     train_unet := train_unet config; train_text_encoder := train_text_encoder config;
     gradient_checkpointing := gradient_checkpointing config;
     gradient_accumulation_steps := gradient_accumulation_steps config;
     max_train_steps := Some n; max_train_epochs := None;
     save_every_n_steps := save_every_n_steps config;
     save_every_n_epochs := save_every_n_epochs config;
     validate_every_n_steps := validate_every_n_steps config;
     validate_every_n_epochs := validate_every_n_epochs config;
     validation_prompts := validation_prompts config;
     lora_checkpoint_format := lora_checkpoint_format config |}.

(** Caching the text encoder's outputs while training it. *)
Definition cache_and_train_text_encoder : SdLoraConfig :=
  {| seed := None; xformers := false;
     cache_text_encoder_outputs := true; cache_vae_outputs := false;
     data_loader := {| type := "IMAGE_CAPTION_SD_DATA_LOADER";
                       random_flip := false; center_crop := true |};
     train_unet := true; train_text_encoder := true;
     gradient_checkpointing := false;
     gradient_accumulation_steps := 1;
     max_train_steps := Some 10; max_train_epochs := None;
     save_every_n_steps := None; save_every_n_epochs := Some 1;
     validate_every_n_steps := None; validate_every_n_epochs := Some 1;
     validation_prompts := [];
     lora_checkpoint_format := "invoke_peft" |}.

(** Both a step bound and an epoch bound. *)
Definition steps_and_epochs : SdLoraConfig :=
  {| seed := None; xformers := false;
     cache_text_encoder_outputs := false; cache_vae_outputs := false;
     data_loader := {| type := "IMAGE_CAPTION_SD_DATA_LOADER";
                       random_flip := false; center_crop := true |};
     train_unet := true; train_text_encoder := false;
     gradient_checkpointing := false;
     gradient_accumulation_steps := 1;
     max_train_steps := Some 10; max_train_epochs := Some 2;
     save_every_n_steps := None; save_every_n_epochs := Some 1;
     validate_every_n_steps := None; validate_every_n_epochs := Some 1;
     validation_prompts := [];
     lora_checkpoint_format := "invoke_peft" |}.

End TrainExample.

(** *** Predicates on the run's events *)

Module TrainEvents.

Import Train.

(** Every event of a computation satisfies [Pev], and what it raises
    satisfies [Pexn]. *)
Definition phase {A} (Pev : event -> Prop) (Pexn : exception -> Prop)
    (m : traced event A) : Prop :=
  (forall ev, ev ∈ m.1 -> Pev ev) /\ (forall e, m.2 = Raise e -> Pexn e).

Definition is_ValueError (e : exception) : Prop := exists msg, e = ValueError msg.

(** What the configuration and the process's rank allow to happen. *)
Definition permitted (config : SdLoraConfig) (env : Environment) (ev : event) : bool :=
  match ev with
  | EvSetSeed s => bool_decide (seed config = Some s)
  | EvEnableXformers => xformers config
  | EvCacheTextEncoderOutputs =>
      cache_text_encoder_outputs config && negb (train_text_encoder config)
      && is_local_main_process env
  | EvCacheVaeOutputs =>
      cache_vae_outputs config && negb (random_flip (data_loader config))
      && center_crop (data_loader config) && is_local_main_process env
  | EvInjectLora model =>
      (String.eqb model "unet" && train_unet config)
      || (String.eqb model "text_encoder" && train_text_encoder config)
  | EvGradientCheckpointing => gradient_checkpointing config
  | EvInitTrackers => is_main_process env
  | EvSaveCheckpoint _ _ =>
      is_main_process env && supported_checkpoint_format config
  | EvValidate _ _ =>
      is_main_process env && negb (length (validation_prompts config) =? 0)%nat
  | _ => true
  end.

(** [x] is a multiple of the cadence, which is set and not zero. *)
Definition on_cadence (cadence : option Z) (x : Z) : Prop :=
  exists n, cadence = Some n /\ n <> 0 /\ x `mod` n = 0.

(** A checkpoint or a validation comes on one of its two cadences. *)
Definition on_schedule (config : SdLoraConfig) (ev : event) : Prop :=
  match ev with
  | EvSaveCheckpoint epochs steps =>
      on_cadence (save_every_n_steps config) steps
      \/ on_cadence (save_every_n_epochs config) epochs
  | EvValidate epochs steps =>
      on_cadence (validate_every_n_steps config) steps
      \/ on_cadence (validate_every_n_epochs config) epochs
  | _ => True
  end.

(** An event is permitted and, if a checkpoint or a validation, on schedule. *)
Definition guarded (config : SdLoraConfig) (env : Environment) (ev : event) : Prop :=
  permitted config env ev = true /\ on_schedule config ev.

Definition any_exception (e : exception) : Prop := True.

(** What can have happened when the VAE cache is prepared. *)
Definition before_vae_cache (ev : event) : bool :=
  match ev with
  | EvMakeDirs | EvInitAccelerator | EvSetSeed _ | EvWriteConfig | EvLoadModels
  | EvEnableXformers | EvBuildDataLoader | EvCacheTextEncoderOutputs => true
  | _ => false
  end.

(** Events that need a data loader. *)
Definition uses_data_loader (ev : event) : bool :=
  match ev with
  | EvBuildDataLoader | EvCacheTextEncoderOutputs | EvCacheVaeOutputs => true
  | _ => is_training ev
  end.

Definition supported_data_loader (config : SdLoraConfig) : bool :=
  String.eqb (type (data_loader config)) "IMAGE_CAPTION_SD_DATA_LOADER"
  || String.eqb (type (data_loader config)) "DREAMBOOTH_SD_DATA_LOADER".

End TrainEvents.

(** ** Filling the caches *)

Module Caching.

Import Forward.

Section Caching.

Context {R G : Type} `{Scalar R} `{Library R G}.

(** [cache_vae_outputs], lines 146-147: the latents computed for one batch
    of the data loader; [vae_dtype] is [vae.dtype]. *)
Definition cache_vae_outputs_latents (data_batch : gmap string (value R))
    (vae : AutoencoderKL R G) (vae_dtype : dtype) : stateful (state R G) (tensor R) :=
  image ← slift (getitem data_batch "image" ≫= as_tensor "image");
  latents ← draw (encode_sample vae (tensor_to vae_dtype image));
  mret (tensor_scale latents (scaling_factor vae)).

(** [cache_text_encoder_outputs], lines 134-135: the text encoder's output
    for one batch of the data loader. *)
Definition cache_text_encoder_outputs_batch (data_batch : gmap string (value R))
    (tokenizer : CLIPTokenizer) (text_encoder : CLIPTextModel R)
  : result (tensor R) :=
  captions ← getitem data_batch "caption" ≫= as_captions "caption";
  let caption_token_ids := tokenizer captions in
  Ok (text_encoder caption_token_ids).

End Caching.

End Caching.

(** ** Saving a checkpoint *)

Module Checkpoint.

Inductive ModelType : Type := SD1_LORA_PEFT | SD1_LORA_KOHYA.

Record ModelCheckpoint : Type := {
  file_path : string;
  model_type : ModelType
}.

Record TrainingCheckpoint : Type := {
  models : list ModelCheckpoint;
  epoch : Z;
  step : Z
}.

(** [CheckpointTracker], as [_save_sd_lora_checkpoint] uses it: how many
    checkpoints [prune(n)] removes, and the path [get_path] answers. *)
Record CheckpointTracker : Type := {
  prune : Z -> Z;
  get_path : Z -> Z -> string
}.

Section SaveCheckpoint.

(** The PEFT models and the callback objects. *)
Context {Model Callback : Type}.

(** What a callback's [on_save_checkpoint] does with a checkpoint: it
    returns, or raises. *)
Variable on_save_checkpoint : Callback -> TrainingCheckpoint -> result unit.

Inductive event : Type :=
| EvPrune (n : Z)
| EvLogPruned (num_pruned : Z)
| EvSavePeft (save_path : string) (unet text_encoder : option Model)
| EvSaveKohya (save_path : string) (unet text_encoder : option Model)
| EvOnSaveCheckpoint (cb : Callback) (checkpoint : TrainingCheckpoint).

(** Lines 72-79: the loop over the callbacks. *)
Fixpoint notify (callbacks : list Callback) (checkpoint : TrainingCheckpoint)
  : traced event unit :=
  match callbacks with
  | [] => tret tt
  | cb :: rest =>
      emit (EvOnSaveCheckpoint cb checkpoint) ;;
      tlift (on_save_checkpoint cb checkpoint) ;;
      notify rest checkpoint
  end.

Definition unsupported_format (lora_checkpoint_format : string) : exception :=
  ValueError ("Unsupported lora_checkpoint_format: '"
              +:+ lora_checkpoint_format +:+ "'.").

(** Lines 48-79. *)
Definition _save_sd_lora_checkpoint (epoch step : Z)
    (unet text_encoder : option Model) (checkpoint_tracker : CheckpointTracker)
    (lora_checkpoint_format : string) (callbacks : option (list Callback))
  : traced event unit :=
  emit (EvPrune 1) ;;
  let num_pruned := prune checkpoint_tracker 1 in
  (if 0 <? num_pruned then emit (EvLogPruned num_pruned) else tret tt) ;;
  let save_path := get_path checkpoint_tracker epoch step in
  model_type ←
    (if String.eqb lora_checkpoint_format "invoke_peft" then
       emit (EvSavePeft save_path unet text_encoder) ;; tret SD1_LORA_PEFT
     else if String.eqb lora_checkpoint_format "kohya" then
       emit (EvSaveKohya save_path unet text_encoder) ;; tret SD1_LORA_KOHYA
     else traise (unsupported_format lora_checkpoint_format));
  match callbacks with
  | Some callbacks =>
      notify callbacks
        {| models := [{| file_path := save_path; model_type := model_type |}];
           epoch := epoch; step := step |}
  | None => tret tt
  end.

(** The checkpoint files a trace has written, with their formats. *)
Definition saved (ev : event) : option (string * ModelType) :=
  match ev with
  | EvSavePeft save_path _ _ => Some (save_path, SD1_LORA_PEFT)
  | EvSaveKohya save_path _ _ => Some (save_path, SD1_LORA_KOHYA)
  | _ => None
  end.

(** The callbacks a trace has called, with what they were told. *)
Definition notified (ev : event) : option (Callback * TrainingCheckpoint) :=
  match ev with
  | EvOnSaveCheckpoint cb checkpoint => Some (cb, checkpoint)
  | _ => None
  end.

(** The model type that goes with a supported format. *)
Definition model_type_of (lora_checkpoint_format : string) : option ModelType :=
  if String.eqb lora_checkpoint_format "invoke_peft" then Some SD1_LORA_PEFT
  else if String.eqb lora_checkpoint_format "kohya" then Some SD1_LORA_KOHYA
  else None.

End SaveCheckpoint.

End Checkpoint.

(** *** Further inputs to evaluate *)

Module TIDataLoaderCases.

Import TIDataLoader.

(** A preset that does not exist. *)
Definition unknown_preset : TextualInversionSDDataLoaderConfig :=
  {| dataset := ImageDirDatasetConfig "/data/images" false;
     caption_templates := None;
     caption_preset := Some "animal";
     apply_caption_prefix := false;
     aspect_ratio_buckets := None;
     resolution := 512;
     shuffle_caption_delimiter := None;
     center_crop := true;
     random_flip := false;
     dataloader_num_workers := 0 |}.

(** Captions from a hub dataset, prefixed and shuffled; aspect-ratio
    buckets; four workers. *)
Definition bucketed_prefix : TextualInversionSDDataLoaderConfig :=
  {| dataset := HFHubImageCaptionDatasetConfig "lambdalabs/pokemon";
     caption_templates := None;
     caption_preset := None;
     apply_caption_prefix := true;
     aspect_ratio_buckets := Some (aspect_ratio_bucket_config "512, 64 apart");
     resolution := 512;
     shuffle_caption_delimiter := Some ",";
     center_crop := true;
     random_flip := true;
     dataloader_num_workers := 4 |}.

(** A dataset configuration of a class the builder does not know. *)
Definition unknown_dataset : TextualInversionSDDataLoaderConfig :=
  {| dataset := OtherDatasetConfig "ImagePairPreferenceDatasetConfig";
     caption_templates := None;
     caption_preset := None;
     apply_caption_prefix := false;
     aspect_ratio_buckets := None;
     resolution := 512;
     shuffle_caption_delimiter := None;
     center_crop := true;
     random_flip := false;
     dataloader_num_workers := 0 |}.

End TIDataLoaderCases.

Module ForwardCases.

Import Forward ForwardExample.

(** A second set of encoders, unlike the first. *)
Definition other_vae : AutoencoderKL Q nat :=
  {| encode_sample image g := (map (map (fun _ => 7%Q)) image, S (S g));
     scaling_factor := 3%Q |}.

Definition other_tokenizer : CLIPTokenizer := map (fun caption => [0; 1]).

Definition other_text_encoder : CLIPTextModel Q := map (map (fun _ => 9%Q)).

Definition cached_latents : value Q := VTensor [[1%Q; 2%Q]; [3%Q; 5%Q]].

Definition cached_conditioning : value Q := VTensor [[0%Q]; [0%Q]].

(** The cached batch with the images still in it. *)
Definition cached_batch_with_image : gmap string (value Q) :=
  <["image" := VTensor [[2%Q; 4%Q]; [6%Q; 10%Q]]]> cached_batch.

(** The cached batch with the captions still in it. *)
Definition cached_batch_with_caption : gmap string (value Q) :=
  <["caption" := VCaptions ["a photo"; "a painting"]]> cached_batch.

(** Captions and no images. *)
Definition captions_only : gmap string (value Q) :=
  <["caption" := VCaptions ["a photo"; "a painting"]]> ∅.

(** Images and no captions. *)
Definition images_only : gmap string (value Q) :=
  <["image" := VTensor [[2%Q; 4%Q]; [6%Q; 10%Q]]]> ∅.

(** The raw batch with the sample ids. *)
Definition raw_batch_with_id : gmap string (value Q) :=
  <["id" := VCaptions ["7"; "8"]]> raw_batch.

(** What the toy VAE makes of the images of [raw_batch], and the state it
    leaves. *)
Definition encoded_latents : tensor Q := [[1%Q; 2%Q]; [3%Q; 5%Q]].

Definition after_encoding : state Q nat :=
  {| noise_scheduler := epsilon_scheduler; generator := 4%nat |}.

(** What the toy text encoder makes of the captions of [raw_batch]. *)
Definition encoded_captions : tensor Q := [[7%Q]; [10%Q]].

(** The raw batch with the cached latents, or the cached conditioning. *)
Definition raw_batch_with_latents : gmap string (value Q) :=
  <["vae_output" := VTensor encoded_latents]> raw_batch.

Definition raw_batch_with_conditioning : gmap string (value Q) :=
  <["text_encoder_output" := VTensor encoded_captions]> raw_batch.

End ForwardCases.

Module TrainCases.

Import Train TrainExample.

(** [ten_steps] with another loader, VAE cache setting, accumulation count
    and bounds. *)
Definition configure (cache_vae : bool) (loader : DataLoaderConfig)
    (accumulation : Z) (steps epochs : option Z) : SdLoraConfig :=
  {| seed := seed ten_steps; xformers := xformers ten_steps;
     cache_text_encoder_outputs := cache_text_encoder_outputs ten_steps;
     cache_vae_outputs := cache_vae;
     data_loader := loader;
     train_unet := train_unet ten_steps;
     train_text_encoder := train_text_encoder ten_steps;
     gradient_checkpointing := gradient_checkpointing ten_steps;
     gradient_accumulation_steps := accumulation;
     max_train_steps := steps; max_train_epochs := epochs;
     save_every_n_steps := save_every_n_steps ten_steps;
     save_every_n_epochs := save_every_n_epochs ten_steps;
     validate_every_n_steps := validate_every_n_steps ten_steps;
     validate_every_n_epochs := validate_every_n_epochs ten_steps;
     validation_prompts := validation_prompts ten_steps;
     lora_checkpoint_format := lora_checkpoint_format ten_steps |}.

(** The VAE cache with a loader that flips and does not crop at the centre. *)
Definition vae_cache_with_flip : SdLoraConfig :=
  configure true {| type := "IMAGE_CAPTION_SD_DATA_LOADER";
                    random_flip := true; center_crop := false |}
    2 (Some 10) None.

(** A loader type [train] does not build. *)
Definition textual_inversion_loader : SdLoraConfig :=
  configure false {| type := "TEXTUAL_INVERSION_SD_DATA_LOADER";
                     random_flip := false; center_crop := true |}
    2 (Some 10) None.

Definition zero_steps : SdLoraConfig :=
  configure false (data_loader ten_steps) 2 (Some 0) None.

Definition zero_accumulation : SdLoraConfig :=
  configure false (data_loader ten_steps) 0 (Some 10) None.

(** Three epochs, two batches to the step. *)
Definition three_epochs : SdLoraConfig :=
  configure false (data_loader ten_steps) 2 None (Some 3).

End TrainCases.

Module CheckpointCases.

Import Checkpoint.

(** A tracker that has one old checkpoint to remove. *)
Definition tracker : CheckpointTracker :=
  {| prune := fun n => 1;
     get_path := fun epoch step => "checkpoints/checkpoint" |}.

(** Callbacks are numbered; the one numbered 1 fails. *)
Definition second_fails (cb : nat) (checkpoint : TrainingCheckpoint) : result unit :=
  if (cb =? 1)%nat then Raise (RuntimeError "callback failed") else Ok tt.

Definition all_succeed (cb : nat) (checkpoint : TrainingCheckpoint) : result unit :=
  Ok tt.

End CheckpointCases.

(** * Properties *)

(** ** Reasoning about traced computations *)

Lemma tbind_Ok_inv {E A B} (m : traced E A) (f : A -> traced E B) t b :
  m ≫= f = (t, Ok b) ->
  exists t1 a t2, m = (t1, Ok a) /\ f a = (t2, Ok b) /\ t = t1 ++ t2.
Proof.
  unfold mbind, traced_bind, tbind. destruct m as [t1 [a|e]]; [|discriminate].
  destruct (f a) as [t2 r] eqn:Hf. intros [= <- ->]. eauto 6.
Qed.

Section TIDataLoaderFacts.

Import TIDataLoader.

Lemma sum_bools_three (a b c : bool) :
  sum_bools [a; b; c] = 1 <->
  (a = true /\ b = false /\ c = false) \/
  (a = false /\ b = true /\ c = false) \/
  (a = false /\ b = false /\ c = true).
Proof.
  destruct a, b, c; cbn; intuition (try discriminate; try lia).
Qed.

(** A loader that is built has the constructor's arguments. *)
Lemma DataLoader_new_Ok dataset shuffle batch_sampler batch_size num_workers
    persistent_workers (dl : DataLoader) :
  DataLoader_new dataset shuffle batch_sampler batch_size num_workers
    persistent_workers = Ok dl ->
  dl = {| dl_dataset := dataset; dl_shuffle := shuffle;
          dl_batch_sampler := batch_sampler; dl_batch_size := batch_size;
          dl_num_workers := num_workers;
          dl_persistent_workers := persistent_workers |}.
Proof.
  unfold DataLoader_new.
  repeat match goal with
         | |- context [if ?b then _ else _] => destruct b
         | |- context [match ?x with _ => _ end] => destruct x
         end; congruence.
Qed.

(** Whether a loader is built, and what is raised instead, does not depend
    on the dataset. *)
Lemma DataLoader_new_dataset (d1 d2 : TransformDataset) shuffle batch_sampler
    batch_size num_workers persistent_workers (e : exception) :
  DataLoader_new d1 shuffle batch_sampler batch_size num_workers
    persistent_workers = Raise e <->
  DataLoader_new d2 shuffle batch_sampler batch_size num_workers
    persistent_workers = Raise e.
Proof.
  unfold DataLoader_new.
  repeat match goal with
         | |- context [if ?b then _ else _] => destruct b
         | |- context [match ?x with _ => _ end] => destruct x
         end; split; congruence.
Qed.

Lemma DataLoader_new_fixed dataset (shuffle : option bool) (n num_workers : Z) :
  0 <= num_workers -> 0 < n ->
  is_ok (DataLoader_new dataset shuffle None (Some n) num_workers
           (0 <? num_workers)) = true.
Proof.
  intros Hw Hn. unfold DataLoader_new.
  replace (num_workers <? 0) with false by (symmetry; apply Z.ltb_ge; lia).
  replace (n <=? 0) with false by (symmetry; apply Z.leb_gt; lia).
  destruct (0 <? num_workers) eqn:Hpos; [|reflexivity].
  replace (num_workers =? 0) with false
    by (symmetry; apply Z.eqb_neq; apply Z.ltb_lt in Hpos; lia).
  reflexivity.
Qed.

Lemma DataLoader_new_sampler dataset (sampler : AspectRatioBucketBatchSampler)
    (num_workers : Z) :
  0 <= num_workers ->
  is_ok (DataLoader_new dataset None (Some sampler) None num_workers
           (0 <? num_workers)) = true.
Proof.
  intros Hw. unfold DataLoader_new.
  replace (num_workers <? 0) with false by (symmetry; apply Z.ltb_ge; lia).
  destruct (0 <? num_workers) eqn:Hpos; [|reflexivity].
  replace (num_workers =? 0) with false
    by (symmetry; apply Z.eqb_neq; apply Z.ltb_lt in Hpos; lia).
  reflexivity.
Qed.

(** C10: the builder wants exactly one of [caption_templates],
    [caption_preset] and [apply_caption_prefix].  With none or several it
    raises a [ValueError] (the exactly-one message whenever the dataset
    configuration was recognised) and no transform has been constructed by
    then.  With exactly one, a loader that is returned has the matching
    caption transform at the head of its chain: the template transform over
    the given templates, the template transform over the preset's
    templates, or the prefix transform; and a loader is returned when the
    dataset configuration and the preset (if used) are recognised, the
    number of workers is not negative, the batch size is positive and the
    data is not shuffled (with shuffling, an empty dataset is refused). *)
Theorem build_ti_dataloader_caption_source
    (config : TextualInversionSDDataLoaderConfig) (placeholder_token : string)
    (batch_size : Z) (vae_output_cache_dir : option string) (shuffle : bool) :
  let run := build_textual_inversion_sd_dataloader config placeholder_token
               batch_size vae_output_cache_dir shuffle in
  (caption_source_count config <> 1 ->
     (exists msg, run.2 = Raise (ValueError msg)) /\
     (supported_dataset (dataset config) = true ->
        run.2 = Raise (ValueError exactly_one_msg)) /\
     (forall t, EvConstructTransform t ∉ run.1)) /\
  (caption_source_count config = 1 ->
     (forall dl, run.2 = Ok dl ->
        let first := head (transforms_of (dl_dataset dl)) in
        (forall templates, caption_templates config = Some templates ->
           first = Some (TemplateCaptionTransform "caption" placeholder_token templates)) /\
        (forall preset, caption_preset config = Some preset ->
           exists templates,
             get_preset_ti_caption_templates preset = Ok templates /\
             first = Some (TemplateCaptionTransform "caption" placeholder_token templates)) /\
        (apply_caption_prefix config = true ->
           first = Some (CaptionPrefixTransform "caption" (placeholder_token +:+ " ")))) /\
     (supported_dataset (dataset config) = true ->
      (forall preset, caption_preset config = Some preset ->
         is_ok (get_preset_ti_caption_templates preset) = true) ->
      0 <= dataloader_num_workers config ->
      0 < batch_size ->
      shuffle = false ->
      is_ok run.2 = true)).
Proof.
  destruct config as [ds templates preset prefix buckets res delim cc rf nw].
  cbn zeta. unfold caption_source_count. cbn [caption_templates caption_preset
    apply_caption_prefix dataset]. split.
  - intros Hcount.
    assert (Hneg : negb (sum_bools [is_not_None templates; is_not_None preset; prefix] =? 1) = true).
    { apply negb_true_iff, Z.eqb_neq, Hcount. }
    unfold build_textual_inversion_sd_dataloader, caption_source_count.
    cbn [caption_templates caption_preset apply_caption_prefix dataset].
    rewrite Hneg. destruct ds; cbn; repeat split; eauto; try discriminate;
      intros t Ht; repeat (apply elem_of_cons in Ht as [Ht|Ht]; [discriminate|]);
      now apply elem_of_nil in Ht.
  - intros Hcount. apply sum_bools_three in Hcount.
    unfold build_textual_inversion_sd_dataloader, caption_source_count.
    cbn [caption_templates caption_preset apply_caption_prefix dataset].
    split.
    + intros dl Hdl.
      destruct Hcount as [(Ht & Hp & Hx) | [(Ht & Hp & Hx) | (Ht & Hp & Hx)]];
        destruct templates as [ts|]; try discriminate;
        destruct preset as [p|]; try discriminate; subst prefix.
      * repeat split; [| intros ? [=] | intros [=]].
        intros ? [= <-]. revert Hdl.
        destruct ds, buckets, delim, vae_output_cache_dir; cbn;
          try discriminate; intros ->%DataLoader_new_Ok; reflexivity.
      * repeat split; [intros ? [=] | | intros [=]].
        intros ? [= <-]. revert Hdl. unfold build_caption_tf. cbn.
        destruct (get_preset_ti_caption_templates p) as [tpl|e] eqn:Hget.
        -- intros Hdl. exists tpl. split; [reflexivity|]. revert Hdl.
           destruct ds, buckets, delim, vae_output_cache_dir; cbn;
             try discriminate; intros ->%DataLoader_new_Ok; reflexivity.
        -- destruct ds; cbn; discriminate.
      * repeat split; [intros ? [=] | intros ? [=] |].
        intros _. revert Hdl.
        destruct ds, buckets, delim, vae_output_cache_dir; cbn;
          try discriminate; intros ->%DataLoader_new_Ok; reflexivity.
    + intros Hds Hpreset Hworkers Hbatch _.
      cbn [dataloader_num_workers] in Hworkers.
      destruct Hcount as [(Ht & Hp & Hx) | [(Ht & Hp & Hx) | (Ht & Hp & Hx)]];
        destruct templates as [ts|]; try discriminate;
        destruct preset as [p|]; try discriminate; subst prefix.
      * destruct ds, buckets, delim, vae_output_cache_dir; try discriminate; cbn;
          first [now apply DataLoader_new_fixed | now apply DataLoader_new_sampler].
      * specialize (Hpreset p eq_refl). unfold build_caption_tf. cbn.
        destruct (get_preset_ti_caption_templates p); [|discriminate].
        destruct ds, buckets, delim, vae_output_cache_dir; try discriminate; cbn;
          first [now apply DataLoader_new_fixed | now apply DataLoader_new_sampler].
      * destruct ds, buckets, delim, vae_output_cache_dir; try discriminate; cbn;
          first [now apply DataLoader_new_fixed | now apply DataLoader_new_sampler].
Qed.

Lemma apply_transforms_app {V} disk call_other (pre post : list transform)
    (s : gmap string V) :
  apply_transforms disk call_other (pre ++ post) s =
  apply_transforms disk call_other pre s ≫= apply_transforms disk call_other post.
Proof.
  revert s. induction pre as [|t pre IH]; intros s; [reflexivity|].
  cbn. destruct (call_transform disk call_other t s); cbn; [apply IH | reflexivity].
Qed.

Lemma hydrate_vae_cache_fields {V} (bundle s s' : gmap string V) :
  hydrate bundle vae_cache_fields s = Ok s' ->
  exists latents size crop,
    bundle !! "vae_output" = Some latents /\
    bundle !! "original_size_hw" = Some size /\
    bundle !! "crop_top_left_yx" = Some crop /\
    s' = <["crop_top_left_yx" := crop]>
           (<["original_size_hw" := size]> (<["vae_output" := latents]> s)).
Proof.
  unfold vae_cache_fields. cbn [hydrate].
  destruct (bundle !! "vae_output") as [latents|]; [|discriminate].
  destruct (bundle !! "original_size_hw") as [size|]; [|discriminate].
  destruct (bundle !! "crop_top_left_yx") as [crop|]; [|discriminate].
  intros [= <-]. eauto 8.
Qed.

(** The tail of the chain when a cache directory is given: load by id, then
    drop the image. *)
Lemma apply_cache_tail {V} disk call_other dir (s s' : gmap string V) :
  apply_transforms disk call_other
    [LoadCacheTransform (TensorDiskCache_new dir) "id" vae_cache_fields;
     DropFieldTransform "image"] s = Ok s' ->
  exists id bundle latents size crop,
    s !! "id" = Some id /\ disk dir id = Some bundle /\
    bundle !! "vae_output" = Some latents /\
    bundle !! "original_size_hw" = Some size /\
    bundle !! "crop_top_left_yx" = Some crop /\
    s' !! "vae_output" = Some latents /\
    s' !! "original_size_hw" = Some size /\
    s' !! "crop_top_left_yx" = Some crop /\
    s' !! "image" = None.
Proof.
  cbn -[hydrate]. destruct (s !! "id") as [id|] eqn:Hid; [|discriminate].
  cbn -[hydrate]. destruct (disk dir id) as [bundle|] eqn:Hdisk; [|discriminate].
  cbn -[hydrate].
  destruct (hydrate bundle vae_cache_fields s) as [s1|] eqn:Hh; [|discriminate].
  cbn. intros [= <-].
  apply hydrate_vae_cache_fields in Hh as (latents & size & crop & H1 & H2 & H3 & ->).
  exists id, bundle, latents, size, crop.
  repeat split; try assumption.
  - rewrite lookup_delete_ne by discriminate.
    rewrite !lookup_insert_ne by discriminate. apply lookup_insert_eq.
  - rewrite lookup_delete_ne by discriminate.
    rewrite lookup_insert_ne by discriminate. apply lookup_insert_eq.
  - rewrite lookup_delete_ne by discriminate. apply lookup_insert_eq.
  - apply lookup_delete_eq.
Qed.

(** The chain the builder assembles, read off a returned loader. *)
Lemma build_ti_dataloader_chain
    (config : TextualInversionSDDataLoaderConfig) (placeholder_token : string)
    (batch_size : Z) (vae_output_cache_dir : option string) (shuffle : bool)
    (dl : DataLoader) :
  (build_textual_inversion_sd_dataloader config placeholder_token batch_size
     vae_output_cache_dir shuffle).2 = Ok dl ->
  exists caption_tfs,
    transforms_of (dl_dataset dl) =
      caption_tfs ++
      match vae_output_cache_dir with
      | None =>
          [SDImageTransform
             (match aspect_ratio_buckets config with
              | Some _ => None
              | None => Some (resolution config)
              end)
             (build_aspect_ratio_bucket_manager <$> aspect_ratio_buckets config)
             (center_crop config) (random_flip config)]
      | Some dir =>
          [LoadCacheTransform (TensorDiskCache_new dir) "id" vae_cache_fields;
           DropFieldTransform "image"]
      end /\
    forallb is_caption_transform caption_tfs = true.
Proof.
  destruct config as [ds templates preset prefix buckets res delim cc rf nw].
  unfold build_textual_inversion_sd_dataloader, caption_source_count, build_caption_tf.
  cbn [caption_templates caption_preset apply_caption_prefix dataset
       aspect_ratio_buckets resolution center_crop random_flip].
  destruct ds; cbn; try discriminate;
    (destruct templates as [ts|], preset as [p|], prefix; cbn; try discriminate;
     try (destruct (get_preset_ti_caption_templates p) as [tpl|]; cbn; [|discriminate]);
     destruct buckets, delim, vae_output_cache_dir; cbn;
     intros ->%DataLoader_new_Ok; cbn;
     first [ eexists [_]; split; reflexivity
           | eexists [_; _]; split; reflexivity ]).
Qed.

Lemma existsb_caption_tfs (p : transform -> bool) (ts : list transform) :
  (forall t, is_caption_transform t = true -> p t = false) ->
  forallb is_caption_transform ts = true -> existsb p ts = false.
Proof.
  intros Hp. induction ts as [|t ts IH]; [reflexivity|].
  cbn. intros [Ht Hts]%andb_true_iff. now rewrite (Hp t Ht), IH.
Qed.

(** C9: a loader built with a VAE cache directory has no image transform
    in its chain; the chain ends with the cache-load transform (keyed by
    the [id] field, hydrating [vae_output], [original_size_hw] and
    [crop_top_left_yx]) followed by the transform that drops [image], so
    every sample that comes out of the chain has those three fields from
    the bundle cached under its id and has no [image] field.  Built
    without a cache directory, the chain ends with the image transform and
    contains neither a cache load nor a drop of [image]. *)
Theorem build_ti_dataloader_vae_cache
    (config : TextualInversionSDDataLoaderConfig) (placeholder_token : string)
    (batch_size : Z) (vae_output_cache_dir : option string) (shuffle : bool)
    (dl : DataLoader) :
  (build_textual_inversion_sd_dataloader config placeholder_token batch_size
     vae_output_cache_dir shuffle).2 = Ok dl ->
  let ts := transforms_of (dl_dataset dl) in
  match vae_output_cache_dir with
  | Some dir =>
      existsb is_image_transform ts = false /\
      (exists caption_tfs,
         forallb is_caption_transform caption_tfs = true /\
         ts = caption_tfs ++
              [LoadCacheTransform (TensorDiskCache_new dir) "id" vae_cache_fields;
               DropFieldTransform "image"]) /\
      (forall (V : Type) (disk : string -> V -> option (gmap string V))
              (call_other : transform -> gmap string V -> result (gmap string V))
              (sample sample' : gmap string V),
         apply_transforms disk call_other ts sample = Ok sample' ->
         sample' !! "image" = None /\
         exists id bundle,
           disk dir id = Some bundle /\
           is_Some (sample' !! "vae_output") /\
           is_Some (sample' !! "original_size_hw") /\
           is_Some (sample' !! "crop_top_left_yx") /\
           sample' !! "vae_output" = bundle !! "vae_output" /\
           sample' !! "original_size_hw" = bundle !! "original_size_hw" /\
           sample' !! "crop_top_left_yx" = bundle !! "crop_top_left_yx")
  | None =>
      (exists resolution manager,
         last ts = Some (SDImageTransform resolution manager
                           (center_crop config) (random_flip config))) /\
      existsb is_load_cache ts = false /\
      existsb (drops_field "image") ts = false
  end.
Proof.
  intros Hdl ts.
  destruct (build_ti_dataloader_chain _ _ _ _ _ _ Hdl) as (caps & Hts & Hcaps).
  fold ts in Hts. destruct vae_output_cache_dir as [dir|].
  - split; [|split].
    + rewrite Hts, existsb_app, (existsb_caption_tfs _ caps); auto.
      now intros [].
    + now exists caps.
    + intros V disk call_other s s' Happ.
      rewrite Hts, apply_transforms_app in Happ.
      destruct (apply_transforms disk call_other caps s) as [s_mid|] eqn:Hmid;
        [|discriminate].
      apply apply_cache_tail in Happ
        as (id & bundle & latents & size & crop & Hid & Hdisk & H1 & H2 & H3
            & H4 & H5 & H6 & H7).
      split; [assumption|]. exists id, bundle.
      rewrite H1, H2, H3, H4, H5, H6. eauto 10.
  - split; [|split].
    + rewrite Hts, last_snoc. eauto.
    + rewrite Hts, existsb_app, (existsb_caption_tfs _ caps); auto.
      now intros [].
    + rewrite Hts, existsb_app, (existsb_caption_tfs _ caps); auto.
      now intros [].
Qed.

End TIDataLoaderFacts.

Section TIDataLoaderExampleFacts.

Import TIDataLoader TIDataLoaderExample.

Lemma build_ti_dataloader_caption_source_witness :
  (build_textual_inversion_sd_dataloader no_caption_source "<token>" 4 None true).2 =
    Raise (ValueError exactly_one_msg) /\
  exists dl,
    (build_textual_inversion_sd_dataloader preset_config "<token>" 4 None false).2 =
      Ok dl /\
    head (transforms_of (dl_dataset dl)) =
      Some (TemplateCaptionTransform "caption" "<token>" object_templates).
Proof.
  destruct (build_ti_dataloader_caption_source no_caption_source "<token>" 4 None true)
    as [Hnone _].
  destruct (build_ti_dataloader_caption_source preset_config "<token>" 4 None false)
    as [_ Hone].
  split.
  - apply Hnone; [vm_compute; discriminate | reflexivity].
  - destruct (Hone eq_refl) as [Hfirst Hreturns].
    assert (Hok : is_ok (build_textual_inversion_sd_dataloader preset_config
                           "<token>" 4 None false).2 = true).
    { apply Hreturns; try reflexivity. intros preset [= <-]. reflexivity. }
    destruct ((build_textual_inversion_sd_dataloader preset_config "<token>" 4 None
                 false).2) as [dl|e] eqn:Hrun; [|discriminate].
    exists dl. split; [reflexivity|].
    destruct (Hfirst dl eq_refl) as (_ & Hpreset & _).
    destruct (Hpreset "object" eq_refl) as (templates & Hget & Hhead).
    injection Hget as <-. exact Hhead.
Defined.

(** Arguments the loader's constructor refuses: a batch size of zero, and
    a negative number of workers. *)
Lemma build_ti_dataloader_refused_arguments :
  (build_textual_inversion_sd_dataloader preset_config "<token>" 0 None false).2 =
    Raise (ValueError "batch_size should be a positive integer value, but got batch_size=0") /\
  (build_textual_inversion_sd_dataloader
     {| dataset := ImageDirDatasetConfig "/data/images" false;
        caption_templates := None;
        caption_preset := Some "object";
        apply_caption_prefix := false;
        aspect_ratio_buckets := None;
        resolution := 512;
        shuffle_caption_delimiter := None;
        center_crop := true;
        random_flip := false;
        dataloader_num_workers := -1 |} "<token>" 4 None false).2 =
    Raise (ValueError "num_workers option should be non-negative; use num_workers=0 to disable multiprocessing.").
Proof. split; vm_compute; reflexivity. Qed.

Lemma build_ti_dataloader_vae_cache_witness :
  exists dl,
    (build_textual_inversion_sd_dataloader preset_config "<token>" 4
       (Some "/tmp/vae_cache") true).2 = Ok dl /\
    existsb is_image_transform (transforms_of (dl_dataset dl)) = false.
Proof.
  assert (Hrun : exists dl,
             (build_textual_inversion_sd_dataloader preset_config "<token>" 4
                (Some "/tmp/vae_cache") true).2 = Ok dl)
    by (eexists; vm_compute; reflexivity).
  destruct Hrun as [dl Hrun]. exists dl. split; [exact Hrun|].
  apply (build_ti_dataloader_vae_cache preset_config "<token>" 4
           (Some "/tmp/vae_cache") true dl Hrun).
Defined.

End TIDataLoaderExampleFacts.

(** ** The forward pass *)

Section ForwardFacts.

Import Forward.

Context {R G : Type} `{Scalar R} `{Library R G}.

Implicit Types (st : state R G) (config : ForwardConfig)
  (data_batch : gmap string (value R)).

Lemma sbind_eq {S A B} (m : stateful S A) (f : A -> stateful S B) (s : S) :
  (m ≫= f) s = match m s with
               | (Ok a, s') => f a s'
               | (Raise e, s') => (Raise e, s')
               end.
Proof. reflexivity. Qed.

(** Fetching the latents never touches the scheduler. *)
Lemma get_latents_scheduler data_batch vae weight_dtype st :
  noise_scheduler (get_latents data_batch vae weight_dtype st).2 = noise_scheduler st.
Proof.
  unfold get_latents. destruct (data_batch !! "vae_output"); [reflexivity|].
  rewrite sbind_eq. unfold slift.
  destruct (getitem data_batch "image" ≫= as_tensor "image"); [|reflexivity].
  rewrite sbind_eq. unfold draw.
  now destruct (encode_sample vae (tensor_to weight_dtype a) (generator st)).
Qed.

(** Fetching the conditioning depends on no state and changes none. *)
Lemma get_encoder_hidden_states_eq data_batch tokenizer text_encoder weight_dtype st :
  get_encoder_hidden_states data_batch tokenizer text_encoder weight_dtype st =
  ((get_encoder_hidden_states data_batch tokenizer text_encoder weight_dtype st).1, st).
Proof.
  unfold get_encoder_hidden_states.
  destruct (data_batch !! "text_encoder_output"); [reflexivity|].
  rewrite sbind_eq. unfold slift.
  now destruct (getitem data_batch "caption" ≫= as_captions "caption").
Qed.

Lemma get_encoder_hidden_states_state_indep data_batch tokenizer text_encoder
    weight_dtype st st' :
  (get_encoder_hidden_states data_batch tokenizer text_encoder weight_dtype st).1 =
  (get_encoder_hidden_states data_batch tokenizer text_encoder weight_dtype st').1.
Proof.
  unfold get_encoder_hidden_states.
  destruct (data_batch !! "text_encoder_output"); [reflexivity|].
  rewrite !sbind_eq. unfold slift.
  now destruct (getitem data_batch "caption" ≫= as_captions "caption").
Qed.

Lemma registered_prediction_type config st :
  prediction_type (noise_scheduler (registered config st)) =
  effective_prediction_type config st.
Proof.
  unfold registered, effective_prediction_type.
  now destruct (config_prediction_type config).
Qed.

(** Target selection, as one equation. *)
Lemma select_target_eq config (latents noise : tensor R) (timesteps : list Z) st :
  select_target config latents noise timesteps st =
  let st' := registered config st in
  let p := effective_prediction_type config st in
  (if String.eqb p "epsilon" then Ok noise
   else if String.eqb p "v_prediction" then
     Ok (get_velocity (noise_scheduler st') latents noise timesteps)
   else Raise (unknown_prediction_type p), st').
Proof.
  cbn zeta. rewrite <- registered_prediction_type.
  unfold select_target, registered.
  destruct (config_prediction_type config) as [p|]; repeat (rewrite sbind_eq; cbn).
  - now destruct (String.eqb p "epsilon"), (String.eqb p "v_prediction").
  - destruct st as [sch g]; cbn.
    now destruct (String.eqb (prediction_type sch) "epsilon"),
      (String.eqb (prediction_type sch) "v_prediction").
Qed.

Lemma broadcast_same_length {A B C} (op : A -> B -> C) (a : list A) (b : list B) :
  length a = length b -> broadcast op a b = Ok (zip_with op a b).
Proof. intros Hlen. unfold broadcast. now rewrite bool_decide_eq_true_2. Qed.

Lemma zip_with_clamp_max (snr : vec R) (gamma : R) :
  zip_with rdiv (clamp_max snr gamma) snr =
  map (fun s => rdiv (rmin s gamma) s) snr.
Proof. induction snr as [|s snr IH]; cbn; [reflexivity | now rewrite <- IH]. Qed.

(** The min-SNR weights, as one equation. *)
Lemma compute_min_snr_weights_eq (timesteps : list Z) (gamma : R) st :
  compute_min_snr_weights timesteps (Some gamma) st =
  let sch := noise_scheduler st in
  let w := map (fun s => rdiv (rmin s gamma) s) (compute_snr sch timesteps) in
  (if String.eqb (prediction_type sch) "epsilon" then Ok (Some w)
   else if String.eqb (prediction_type sch) "v_prediction" then
     Ok (Some (map (fun x => radd x rone) w))
   else Raise (unknown_prediction_type (prediction_type sch)), st).
Proof.
  unfold compute_min_snr_weights. repeat (rewrite sbind_eq; cbn).
  rewrite broadcast_same_length by (unfold clamp_max; now rewrite length_map).
  rewrite zip_with_clamp_max. cbn. repeat (rewrite sbind_eq; cbn).
  now destruct (String.eqb (prediction_type (noise_scheduler st)) "epsilon"),
    (String.eqb (prediction_type (noise_scheduler st)) "v_prediction").
Qed.

Lemma compute_min_snr_weights_state (timesteps : list Z) (gamma : option R) st :
  (compute_min_snr_weights timesteps gamma st).2 = st.
Proof.
  destruct gamma as [gamma|]; [|reflexivity].
  now rewrite compute_min_snr_weights_eq.
Qed.

(** [forward_locals], step by step. *)
Lemma forward_locals_unfold config data_batch vae tokenizer text_encoder unet
    weight_dtype min_snr_gamma st :
  forward_locals config data_batch vae tokenizer text_encoder unet weight_dtype
    min_snr_gamma st =
  match get_latents data_batch vae weight_dtype st with
  | (Raise e, st1) => (Raise e, st1)
  | (Ok latents, st1) =>
      let '(noise, g2) := randn_like latents (generator st1) in
      let '(timesteps, g3) :=
        randint 0 (num_train_timesteps (noise_scheduler st1)) (length latents) g2 in
      let st3 := {| noise_scheduler := noise_scheduler st1; generator := g3 |} in
      match (get_encoder_hidden_states data_batch tokenizer text_encoder
               weight_dtype st3).1 with
      | Raise e => (Raise e, st3)
      | Ok encoder_hidden_states =>
          match select_target config latents noise timesteps st3 with
          | (Raise e, st4) => (Raise e, st4)
          | (Ok target, st4) =>
              let noisy_latents :=
                add_noise (noise_scheduler st1) latents noise timesteps in
              let model_pred := unet noisy_latents timesteps encoder_hidden_states in
              match compute_min_snr_weights timesteps min_snr_gamma st4 with
              | (Raise e, st5) => (Raise e, st5)
              | (Ok w, st5) =>
                  (Ok {| latents := latents; noise := noise; timesteps := timesteps;
                         noisy_latents := noisy_latents;
                         encoder_hidden_states := encoder_hidden_states;
                         target := target; model_pred := model_pred;
                         min_snr_weights := w |}, st5)
              end
          end
      end
  end.
Proof.
  unfold forward_locals. rewrite sbind_eq.
  destruct (get_latents data_batch vae weight_dtype st) as [[latents|e] st1];
    [|reflexivity].
  rewrite sbind_eq. unfold draw at 1.
  destruct (randn_like latents (generator st1)) as [noise g2]. cbn.
  repeat (rewrite sbind_eq; cbn). unfold draw at 1. cbn.
  destruct (randint 0 (num_train_timesteps (noise_scheduler st1)) (length latents) g2)
    as [timesteps g3]. cbn.
  repeat (rewrite sbind_eq; cbn).
  rewrite get_encoder_hidden_states_eq. cbn.
  destruct (get_encoder_hidden_states data_batch tokenizer text_encoder weight_dtype _).1
    as [ehs|e]; [|reflexivity].
  rewrite sbind_eq.
  destruct (select_target config latents noise timesteps _) as [[target|e] st4];
    [|reflexivity].
  rewrite sbind_eq.
  now destruct (compute_min_snr_weights timesteps min_snr_gamma st4) as [[w|e] st5].
Qed.

(** What a completed run of lines 176-239 says about the locals. *)
Lemma forward_locals_Ok config data_batch vae tokenizer text_encoder unet
    weight_dtype min_snr_gamma st l st' :
  forward_locals config data_batch vae tokenizer text_encoder unet weight_dtype
    min_snr_gamma st = (Ok l, st') ->
  exists st1,
    get_latents data_batch vae weight_dtype st = (Ok (latents l), st1) /\
    let n := randn_like (latents l) (generator st1) in
    let t := randint 0 (num_train_timesteps (noise_scheduler st))
               (length (latents l)) n.2 in
    let st3 := {| noise_scheduler := noise_scheduler st; generator := t.2 |} in
    noise l = n.1 /\ timesteps l = t.1 /\
    noisy_latents l = add_noise (noise_scheduler st) (latents l) (noise l) (timesteps l) /\
    (get_encoder_hidden_states data_batch tokenizer text_encoder weight_dtype st).1 =
      Ok (encoder_hidden_states l) /\
    select_target config (latents l) (noise l) (timesteps l) st3 = (Ok (target l), st') /\
    st' = registered config st3 /\
    model_pred l = unet (noisy_latents l) (timesteps l) (encoder_hidden_states l) /\
    compute_min_snr_weights (timesteps l) min_snr_gamma st' = (Ok (min_snr_weights l), st').
Proof.
  rewrite forward_locals_unfold.
  pose proof (get_latents_scheduler data_batch vae weight_dtype st) as Hsch.
  destruct (get_latents data_batch vae weight_dtype st) as [[lat|e] st1];
    [|discriminate].
  cbn in Hsch. rewrite Hsch.
  destruct (randn_like lat (generator st1)) as [nz g2] eqn:Hn.
  destruct (randint 0 (num_train_timesteps (noise_scheduler st)) (length lat) g2)
    as [ts g3] eqn:Ht.
  cbn zeta.
  rewrite (get_encoder_hidden_states_state_indep _ _ _ _ _ st).
  destruct (get_encoder_hidden_states data_batch tokenizer text_encoder weight_dtype st).1
    as [ehs|e]; [|discriminate].
  pose proof (select_target_eq config lat nz ts
                {| noise_scheduler := noise_scheduler st; generator := g3 |}) as Hsel.
  destruct (select_target config lat nz ts _) as [[tg|e] st4] eqn:Hst; [|discriminate].
  pose proof (compute_min_snr_weights_state ts min_snr_gamma st4) as Hw.
  destruct (compute_min_snr_weights ts min_snr_gamma st4) as [[w|e] st5] eqn:Hc;
    [|discriminate].
  cbn in Hw. subst st5. intros [= <- <-]. cbn.
  exists st1. rewrite Hn. cbn. rewrite Ht. cbn.
  cbn zeta in Hsel. injection Hsel as _ Hst4.
  repeat split; try reflexivity; assumption.
Qed.

Lemma eqb_neq_false (a b : string) : a <> b -> String.eqb a b = false.
Proof. intros Hne. now apply String.eqb_neq. Qed.

(** With a prediction type other than the two supported ones, lines
    176-239 never complete; they fail with the unknown-prediction-type
    error once the latents and the conditioning have been obtained. *)
Lemma forward_locals_unknown config data_batch vae tokenizer text_encoder unet
    weight_dtype min_snr_gamma st :
  let p := effective_prediction_type config st in
  let run := forward_locals config data_batch vae tokenizer text_encoder unet
               weight_dtype min_snr_gamma st in
  p <> "epsilon" -> p <> "v_prediction" ->
  is_ok run.1 = false /\
  (is_ok (get_latents data_batch vae weight_dtype st).1 = true ->
   is_ok (get_encoder_hidden_states data_batch tokenizer text_encoder
            weight_dtype st).1 = true ->
   run.1 = Raise (unknown_prediction_type p)).
Proof.
  cbn zeta. intros Heps Hv. rewrite forward_locals_unfold.
  pose proof (get_latents_scheduler data_batch vae weight_dtype st) as Hsch.
  destruct (get_latents data_batch vae weight_dtype st) as [[lat|e] st1];
    [|split; [reflexivity | discriminate]].
  cbn in Hsch. rewrite Hsch.
  destruct (randn_like lat (generator st1)) as [nz g2].
  destruct (randint 0 (num_train_timesteps (noise_scheduler st)) (length lat) g2)
    as [ts g3].
  cbn zeta.
  rewrite (get_encoder_hidden_states_state_indep _ _ _ _ _ st).
  destruct (get_encoder_hidden_states data_batch tokenizer text_encoder weight_dtype st).1
    as [ehs|e]; [|split; [reflexivity | discriminate]].
  rewrite select_target_eq. cbn zeta.
  change (effective_prediction_type config
            {| noise_scheduler := noise_scheduler st; generator := g3 |})
    with (effective_prediction_type config st).
  rewrite (eqb_neq_false _ _ Heps), (eqb_neq_false _ _ Hv).
  split; [reflexivity | intros _ _; reflexivity].
Qed.

(** With one of the two supported prediction types, lines 176-239 complete
    as soon as the latents and the conditioning can be obtained. *)
Lemma forward_locals_supported config data_batch vae tokenizer text_encoder unet
    weight_dtype min_snr_gamma st :
  let p := effective_prediction_type config st in
  p = "epsilon" \/ p = "v_prediction" ->
  is_ok (get_latents data_batch vae weight_dtype st).1 = true ->
  is_ok (get_encoder_hidden_states data_batch tokenizer text_encoder
           weight_dtype st).1 = true ->
  exists l st',
    forward_locals config data_batch vae tokenizer text_encoder unet weight_dtype
      min_snr_gamma st = (Ok l, st').
Proof.
  cbn zeta. intros Hp Hlat Hehs. rewrite forward_locals_unfold.
  pose proof (get_latents_scheduler data_batch vae weight_dtype st) as Hsch.
  destruct (get_latents data_batch vae weight_dtype st) as [[lat|e] st1];
    [|discriminate].
  cbn in Hsch. rewrite Hsch.
  destruct (randn_like lat (generator st1)) as [nz g2].
  destruct (randint 0 (num_train_timesteps (noise_scheduler st)) (length lat) g2)
    as [ts g3].
  cbn zeta.
  rewrite (get_encoder_hidden_states_state_indep _ _ _ _ _ st).
  destruct (get_encoder_hidden_states data_batch tokenizer text_encoder weight_dtype st).1
    as [ehs|e]; [|discriminate].
  rewrite select_target_eq. cbn zeta.
  set (st3 := {| noise_scheduler := noise_scheduler st; generator := g3 |}).
  assert (Hreg : prediction_type (noise_scheduler (registered config st3)) =
                 effective_prediction_type config st)
    by apply (registered_prediction_type config st3).
  change (effective_prediction_type config st3)
    with (effective_prediction_type config st).
  assert (Hw : exists w, compute_min_snr_weights ts min_snr_gamma (registered config st3) =
                         (Ok w, registered config st3)).
  { destruct min_snr_gamma as [gamma|]; [|now exists None].
    rewrite compute_min_snr_weights_eq. cbn zeta. rewrite Hreg.
    destruct Hp as [-> | ->]; cbn; eauto. }
  destruct Hw as [w Hw].
  destruct Hp as [-> | ->]; cbn; rewrite Hw; eauto.
Qed.

(** C1: the target of the loss follows the scheduler's prediction type
    (the configuration's override if there is one, else what the scheduler
    was configured with).  For [epsilon] the target is the tensor drawn by
    [randn_like], unchanged; for [v_prediction] it is the scheduler's
    velocity of (latents, noise, timesteps); with either, the target is
    reached as soon as latents and conditioning can be obtained.  For any
    other value [train_forward] returns no loss, and fails with the
    unknown-prediction-type error once latents and conditioning have been
    obtained. *)
Theorem train_forward_target config data_batch vae tokenizer text_encoder unet
    weight_dtype min_snr_gamma st :
  let p := effective_prediction_type config st in
  (forall l st',
     forward_locals config data_batch vae tokenizer text_encoder unet weight_dtype
       min_snr_gamma st = (Ok l, st') ->
     prediction_type (noise_scheduler st') = p /\
     (exists st1,
        get_latents data_batch vae weight_dtype st = (Ok (latents l), st1) /\
        noise l = (randn_like (latents l) (generator st1)).1) /\
     (p = "epsilon" -> target l = noise l) /\
     (p = "v_prediction" ->
        target l = get_velocity (noise_scheduler st') (latents l) (noise l)
                     (timesteps l))) /\
  (p = "epsilon" \/ p = "v_prediction" ->
   is_ok (get_latents data_batch vae weight_dtype st).1 = true ->
   is_ok (get_encoder_hidden_states data_batch tokenizer text_encoder
            weight_dtype st).1 = true ->
   exists l st',
     forward_locals config data_batch vae tokenizer text_encoder unet weight_dtype
       min_snr_gamma st = (Ok l, st')) /\
  (p <> "epsilon" -> p <> "v_prediction" ->
     let run := train_forward config data_batch vae tokenizer text_encoder unet
                  weight_dtype min_snr_gamma st in
     is_ok run.1 = false /\
     (is_ok (get_latents data_batch vae weight_dtype st).1 = true ->
      is_ok (get_encoder_hidden_states data_batch tokenizer text_encoder
               weight_dtype st).1 = true ->
      run.1 = Raise (unknown_prediction_type p))).
Proof.
  cbn zeta. split; [|split].
  - intros l st' Hrun.
    apply forward_locals_Ok in Hrun
      as (st1 & Hlat & Hn & Ht & _ & _ & Hsel & Hst' & _ & _).
    cbn zeta in *. rewrite select_target_eq in Hsel. cbn zeta in Hsel.
    change (effective_prediction_type config _)
      with (effective_prediction_type config st) in Hsel.
    injection Hsel as Htarget _.
    split; [|split; [|split]].
    + subst st'. now rewrite registered_prediction_type.
    + now exists st1.
    + intros Hp. rewrite Hp in Htarget. cbn in Htarget. congruence.
    + intros Hp. rewrite Hp in Htarget. cbn in Htarget. subst st'. congruence.
  - apply forward_locals_supported.
  - intros Heps Hv.
    pose proof (forward_locals_unknown config data_batch vae tokenizer text_encoder
                  unet weight_dtype min_snr_gamma st Heps Hv) as [Hnot Hraise].
    unfold train_forward. rewrite sbind_eq.
    destruct (forward_locals config data_batch vae tokenizer text_encoder unet
                weight_dtype min_snr_gamma st) as [[l|e] st1]; [discriminate|].
    split; [reflexivity|]. intros Hlat Hehs.
    specialize (Hraise Hlat Hehs). cbn in *. congruence.
Qed.

(** C3: with a min-SNR gamma configured, the weights are
    [min(SNR, gamma) / SNR] entry by entry for [epsilon], the same plus
    one for [v_prediction], where SNR is [compute_snr] at the sampled
    timesteps; with any other prediction type [train_forward] returns no
    loss, and fails with the unknown-prediction-type error once latents and
    conditioning have been obtained. *)
Theorem train_forward_min_snr_weights config data_batch vae tokenizer text_encoder
    unet weight_dtype (gamma : R) st :
  let p := effective_prediction_type config st in
  (forall l st',
     forward_locals config data_batch vae tokenizer text_encoder unet weight_dtype
       (Some gamma) st = (Ok l, st') ->
     let snr := compute_snr (noise_scheduler st') (timesteps l) in
     (p = "epsilon" \/ p = "v_prediction") /\
     (p = "epsilon" ->
        min_snr_weights l = Some (map (fun s => rdiv (rmin s gamma) s) snr)) /\
     (p = "v_prediction" ->
        min_snr_weights l =
          Some (map (fun s => radd (rdiv (rmin s gamma) s) rone) snr))) /\
  (p <> "epsilon" -> p <> "v_prediction" ->
     let run := train_forward config data_batch vae tokenizer text_encoder unet
                  weight_dtype (Some gamma) st in
     is_ok run.1 = false /\
     (is_ok (get_latents data_batch vae weight_dtype st).1 = true ->
      is_ok (get_encoder_hidden_states data_batch tokenizer text_encoder
               weight_dtype st).1 = true ->
      run.1 = Raise (unknown_prediction_type p))).
Proof.
  cbn zeta. split.
  - intros l st' Hrun.
    apply forward_locals_Ok in Hrun
      as (st1 & _ & _ & _ & _ & _ & _ & Hst' & _ & Hw).
    cbn zeta in *. rewrite compute_min_snr_weights_eq in Hw. cbn zeta in Hw.
    assert (Hp : prediction_type (noise_scheduler st') =
                 effective_prediction_type config st).
    { subst st'. now rewrite registered_prediction_type. }
    rewrite Hp in Hw. injection Hw as Hw.
    destruct (String.eqb_spec (effective_prediction_type config st) "epsilon")
      as [Heps|Heps].
    { rewrite Heps. injection Hw as <-. repeat split; auto. discriminate. }
    destruct (String.eqb_spec (effective_prediction_type config st) "v_prediction")
      as [Hv|Hv]; [|discriminate].
    rewrite Hv. injection Hw as <-. rewrite map_map.
    repeat split; auto. discriminate.
  - intros Heps Hv.
    pose proof (forward_locals_unknown config data_batch vae tokenizer text_encoder
                  unet weight_dtype (Some gamma) st Heps Hv) as [Hnot Hraise].
    unfold train_forward. rewrite sbind_eq.
    destruct (forward_locals config data_batch vae tokenizer text_encoder unet
                weight_dtype (Some gamma) st) as [[l|e] st1]; [discriminate|].
    split; [reflexivity|]. intros Hlat Hehs.
    specialize (Hraise Hlat Hehs). cbn in *. congruence.
Qed.

Lemma lookup_map {A B} (f : A -> B) (l : list A) (i : nat) :
  map f l !! i = f <$> l !! i.
Proof. revert i. induction l as [|x l IH]; intros [|i]; cbn; auto. Qed.

Lemma broadcast_tensors_same_shape (op : R -> R -> R) (a b : tensor R) :
  map length a = map length b ->
  broadcast_tensors op a b = Ok (zip_with (zip_with op) a b).
Proof.
  intros Hshape. unfold broadcast_tensors.
  rewrite broadcast_same_length
    by (rewrite <- (length_map length a), Hshape; apply length_map).
  change (collect (zip_with (broadcast op) a b) = Ok (zip_with (zip_with op) a b)).
  revert b Hshape.
  induction a as [|x a IH]; intros [|y b]; try discriminate; [reflexivity|].
  cbn. intros [= Hxy Hab].
  rewrite (broadcast_same_length op x y Hxy), (IH b Hab). reflexivity.
Qed.

Lemma tensor_float_shape (a : tensor R) :
  map length (tensor_float a) = map length a.
Proof.
  unfold tensor_float, tensor_to. rewrite map_map.
  apply map_ext. intros r. apply length_map.
Qed.

Lemma zip_with_squared_error_float (p t : list R) :
  zip_with squared_error (map (rcast float32) p) (map (rcast float32) t) =
  zip_with (fun x y => rmul (rsub (rcast float32 x) (rcast float32 y))
                            (rsub (rcast float32 x) (rcast float32 y))) p t.
Proof.
  revert t. induction p as [|x p IH]; intros [|y t]; cbn; [reflexivity.. |].
  now rewrite IH.
Qed.

(** The unweighted loss of example [i] is the mean of the squared
    differences along its row. *)
Lemma mean_except_batch_lookup (a b : tensor R) (i : nat) (p t : list R) :
  a !! i = Some p -> b !! i = Some t ->
  mean_except_batch
    (zip_with (zip_with squared_error) (tensor_float a) (tensor_float b)) !! i =
  Some (let squares :=
          zip_with (fun x y => rmul (rsub (rcast float32 x) (rcast float32 y))
                                    (rsub (rcast float32 x) (rcast float32 y))) p t in
        rdiv (foldr radd rzero squares) (rof_nat (length squares))).
Proof.
  intros Ha Hb. unfold mean_except_batch, tensor_float, tensor_to.
  rewrite lookup_map, lookup_zip_with, !lookup_map, Ha, Hb. cbn.
  unfold vmean, vsum. now rewrite zip_with_squared_error_float.
Qed.

Lemma zip_with_weight_lookup (loss w : vec R) (i : nat) (x : R) :
  length w = length loss -> loss !! i = Some x ->
  exists c, w !! i = Some c /\ zip_with rmul loss w !! i = Some (rmul x c).
Proof.
  intros Hlen Hx. rewrite lookup_zip_with, Hx. cbn.
  destruct (w !! i) as [y|] eqn:Hy; [eauto|].
  apply lookup_ge_None in Hy. apply lookup_lt_Some in Hx. lia.
Qed.

(** C2: when lines 176-239 have completed with prediction and target of
    one shape and the weights, where present, have one entry per example,
    [train_forward] returns the mean over the batch of the per-example
    losses.  The loss of example [i] is the mean, over the entries of the
    example, of the squared difference between prediction and target (both
    as float32); times the min-SNR weight of the example if min-SNR
    weighting is on; times entry [i] of [loss_weight] if the batch carries
    that field. *)
Theorem train_forward_loss config data_batch vae tokenizer text_encoder unet
    weight_dtype min_snr_gamma st l st' :
  forward_locals config data_batch vae tokenizer text_encoder unet weight_dtype
    min_snr_gamma st = (Ok l, st') ->
  map length (model_pred l) = map length (target l) ->
  (forall w, min_snr_weights l = Some w -> length w = length (target l)) ->
  (forall v, data_batch !! "loss_weight" = Some v ->
     exists w, v = VVec w /\ length w = length (target l)) ->
  exists per_example : vec R,
    train_forward config data_batch vae tokenizer text_encoder unet weight_dtype
      min_snr_gamma st =
      (Ok (rdiv (foldr radd rzero per_example) (rof_nat (length per_example))), st') /\
    length per_example = length (target l) /\
    forall i p t,
      model_pred l !! i = Some p -> target l !! i = Some t ->
      let squares :=
        zip_with (fun x y => rmul (rsub (rcast float32 x) (rcast float32 y))
                                  (rsub (rcast float32 x) (rcast float32 y))) p t in
      let mse := rdiv (foldr radd rzero squares) (rof_nat (length squares)) in
      exists snr_weighted,
        match min_snr_weights l with
        | Some w => exists s, w !! i = Some s /\ snr_weighted = rmul mse s
        | None => snr_weighted = mse
        end /\
        match data_batch !! "loss_weight" with
        | Some v => exists w c, v = VVec w /\ w !! i = Some c /\
                      per_example !! i = Some (rmul snr_weighted c)
        | None => per_example !! i = Some snr_weighted
        end.
Proof.
  intros Hrun Hshape Hsnr Hlw.
  assert (Hlen : length (model_pred l) = length (target l)).
  { now rewrite <- (length_map length (model_pred l)), Hshape, length_map. }
  set (unweighted := mean_except_batch
         (zip_with (zip_with squared_error) (tensor_float (model_pred l))
            (tensor_float (target l)))).
  assert (Hlen0 : length unweighted = length (target l)).
  { unfold unweighted, mean_except_batch, tensor_float, tensor_to.
    rewrite length_map, length_zip_with, !length_map. lia. }
  pose proof (mean_except_batch_lookup (model_pred l) (target l)) as Hun.
  fold unweighted in Hun.
  set (snr_weighted := match min_snr_weights l with
                       | Some w => zip_with rmul unweighted w
                       | None => unweighted
                       end).
  assert (Hlen1 : length snr_weighted = length (target l)).
  { unfold snr_weighted. destruct (min_snr_weights l) as [w|] eqn:Hw; [|assumption].
    rewrite length_zip_with, (Hsnr w eq_refl). lia. }
  set (per_example := match data_batch !! "loss_weight" with
                      | Some (VVec w) => zip_with rmul snr_weighted w
                      | _ => snr_weighted
                      end).
  assert (Hper : per_example_loss data_batch (model_pred l) (target l)
                   (min_snr_weights l) = Ok per_example).
  { unfold per_example_loss, mse_loss_none.
    rewrite broadcast_tensors_same_shape by (now rewrite !tensor_float_shape).
    cbn. fold unweighted.
    assert (Hb : match min_snr_weights l with
                 | Some w => broadcast rmul unweighted w
                 | None => Ok unweighted
                 end = Ok snr_weighted).
    { unfold snr_weighted. destruct (min_snr_weights l) as [w|] eqn:Hw; [|reflexivity].
      apply broadcast_same_length. rewrite (Hsnr w eq_refl). lia. }
    rewrite Hb. cbn. unfold per_example.
    destruct (data_batch !! "loss_weight") as [v|] eqn:Hv; [|reflexivity].
    destruct (Hlw v eq_refl) as (w & -> & Hwlen). cbn.
    apply broadcast_same_length. lia. }
  exists per_example. split; [|split].
  - unfold train_forward. rewrite sbind_eq, Hrun. unfold slift, reduce_loss.
    rewrite Hper. reflexivity.
  - unfold per_example. destruct (data_batch !! "loss_weight") as [v|] eqn:Hv;
      [|assumption].
    destruct (Hlw v eq_refl) as (w & -> & Hwlen).
    rewrite length_zip_with. lia.
  - intros i p t Hp Ht. cbn zeta. specialize (Hun i p t Hp Ht). cbn zeta in Hun.
    set (mse := rdiv _ _) in *.
    assert (Hsw : exists x, snr_weighted !! i = Some x /\
                    match min_snr_weights l with
                    | Some w => exists s, w !! i = Some s /\ x = rmul mse s
                    | None => x = mse
                    end).
    { unfold snr_weighted. destruct (min_snr_weights l) as [w|] eqn:Hw; [|eauto].
      destruct (zip_with_weight_lookup unweighted w i mse) as (s & Hs & Hz);
        [rewrite (Hsnr w eq_refl); lia | assumption | eauto]. }
    destruct Hsw as (x & Hx & Hweights). exists x. split; [assumption|].
    unfold per_example.
    destruct (data_batch !! "loss_weight") as [v|] eqn:Hv; [|assumption].
    destruct (Hlw v eq_refl) as (w & -> & Hwlen).
    destruct (zip_with_weight_lookup snr_weighted w i x) as (c & Hc & Hz);
      [lia | assumption | eauto].
Qed.

(** The scheduler a call leaves behind: the one it was given, or that one
    with the configuration's override registered; the latter whenever the
    call got as far as selecting the target. *)
Lemma forward_locals_scheduler config data_batch vae tokenizer text_encoder unet
    weight_dtype min_snr_gamma st :
  let run := forward_locals config data_batch vae tokenizer text_encoder unet
               weight_dtype min_snr_gamma st in
  (noise_scheduler run.2 = noise_scheduler st \/
   noise_scheduler run.2 = noise_scheduler (registered config st)) /\
  (is_ok (get_latents data_batch vae weight_dtype st).1 = true ->
   is_ok (get_encoder_hidden_states data_batch tokenizer text_encoder
            weight_dtype st).1 = true ->
   noise_scheduler run.2 = noise_scheduler (registered config st)).
Proof.
  cbn zeta. rewrite forward_locals_unfold.
  pose proof (get_latents_scheduler data_batch vae weight_dtype st) as Hsch.
  destruct (get_latents data_batch vae weight_dtype st) as [[lat|e] st1];
    [|split; [now left | discriminate]].
  cbn in Hsch. rewrite Hsch.
  destruct (randn_like lat (generator st1)) as [nz g2].
  destruct (randint 0 (num_train_timesteps (noise_scheduler st)) (length lat) g2)
    as [ts g3].
  cbn zeta.
  rewrite (get_encoder_hidden_states_state_indep _ _ _ _ _ st).
  destruct (get_encoder_hidden_states data_batch tokenizer text_encoder weight_dtype st).1
    as [ehs|e]; [|split; [now left | discriminate]].
  rewrite select_target_eq. cbn zeta.
  set (st3 := {| noise_scheduler := noise_scheduler st; generator := g3 |}).
  assert (Hreg : noise_scheduler (registered config st3) =
                 noise_scheduler (registered config st)).
  { unfold registered. now destruct (config_prediction_type config). }
  assert (Hfinal : forall r : result (tensor R),
            noise_scheduler
              (match r with
               | Ok target =>
                   match compute_min_snr_weights ts min_snr_gamma (registered config st3) with
                   | (Ok w, st5) =>
                       (Ok {| latents := lat; noise := nz; timesteps := ts;
                              noisy_latents := add_noise (noise_scheduler st) lat nz ts;
                              encoder_hidden_states := ehs; target := target;
                              model_pred := unet (add_noise (noise_scheduler st) lat nz ts)
                                              ts ehs;
                              min_snr_weights := w |}, st5)
                   | (Raise e, st5) => (Raise e, st5)
                   end
               | Raise e => (Raise e, registered config st3)
               end).2 = noise_scheduler (registered config st)).
  { intros [tg|e]; [|exact Hreg].
    pose proof (compute_min_snr_weights_state ts min_snr_gamma (registered config st3))
      as Hw.
    destruct (compute_min_snr_weights ts min_snr_gamma (registered config st3))
      as [[w|e] st5]; cbn in Hw |- *; now subst st5. }
  split; [right|intros _ _]; apply Hfinal.
Qed.

Lemma train_forward_state config data_batch vae tokenizer text_encoder unet
    weight_dtype min_snr_gamma st :
  (train_forward config data_batch vae tokenizer text_encoder unet weight_dtype
     min_snr_gamma st).2 =
  (forward_locals config data_batch vae tokenizer text_encoder unet weight_dtype
     min_snr_gamma st).2.
Proof.
  unfold train_forward. rewrite sbind_eq.
  now destruct (forward_locals config data_batch vae tokenizer text_encoder unet
                  weight_dtype min_snr_gamma st) as [[l|e] st1].
Qed.

(** C8, as it holds: [train_forward] is not free of effects.  It draws
    from the random generator, and it writes to the scheduler it is given:
    when the configuration sets a prediction type, that value is
    registered as the scheduler's prediction type (always, once latents and
    conditioning have been obtained).  Nothing else of the scheduler
    changes, and without a configured prediction type the scheduler is left
    as it was. *)
Theorem train_forward_scheduler_frame config data_batch vae tokenizer text_encoder
    unet weight_dtype min_snr_gamma st :
  let sch := noise_scheduler st in
  let sch' := noise_scheduler
                (train_forward config data_batch vae tokenizer text_encoder unet
                   weight_dtype min_snr_gamma st).2 in
  num_train_timesteps sch' = num_train_timesteps sch /\
  alphas_cumprod sch' = alphas_cumprod sch /\
  (config_prediction_type config = None -> sch' = sch) /\
  (forall p, config_prediction_type config = Some p ->
     (sch' = sch \/ sch' = register_to_config p sch) /\
     (is_ok (get_latents data_batch vae weight_dtype st).1 = true ->
      is_ok (get_encoder_hidden_states data_batch tokenizer text_encoder
               weight_dtype st).1 = true ->
      sch' = register_to_config p sch)).
Proof.
  cbn zeta. rewrite train_forward_state.
  pose proof (forward_locals_scheduler config data_batch vae tokenizer text_encoder
                unet weight_dtype min_snr_gamma st) as [Hor Hreg].
  cbn zeta in Hor, Hreg. unfold registered in Hor, Hreg.
  destruct (config_prediction_type config) as [p|].
  - split; [|split; [|split]].
    + destruct Hor as [-> | ->]; reflexivity.
    + destruct Hor as [-> | ->]; reflexivity.
    + discriminate.
    + intros q [= <-]. split; assumption.
  - assert (Hsame : noise_scheduler
                      (forward_locals config data_batch vae tokenizer text_encoder
                         unet weight_dtype min_snr_gamma st).2 = noise_scheduler st)
      by (destruct Hor as [-> | ->]; reflexivity).
    rewrite Hsame. split; [|split; [|split]]; try reflexivity.
    intros q [=].
Qed.

End ForwardFacts.

(** ** The forward pass on the small instance *)

Section ForwardExampleFacts.

Import Forward ForwardExample.

(** An [epsilon] run on cached fields returns with the drawn noise, all
    fours, as its target; the same batch with [v_prediction] has the
    velocity as its target, here the noise minus the latents; and the
    unsupported type fails. *)
Lemma train_forward_target_witness :
  (exists l st',
     forward_locals no_override cached_batch vae tokenizer text_encoder unet float32
       None initial_state = (Ok l, st') /\
     noise l = [[4%Q; 4%Q]; [4%Q; 4%Q]] /\
     target l = [[4%Q; 4%Q]; [4%Q; 4%Q]]) /\
  (exists l st',
     forward_locals v_override cached_batch vae tokenizer text_encoder unet float32
       None initial_state = (Ok l, st') /\
     latents l = [[1%Q; 2%Q]; [3%Q; 5%Q]] /\
     noise l = [[4%Q; 4%Q]; [4%Q; 4%Q]] /\
     target l = get_velocity (noise_scheduler st') (latents l) (noise l) (timesteps l) /\
     target l = [[3%Q; 2%Q]; [1%Q; (-1)%Q]]) /\
  (train_forward sample_override raw_batch vae tokenizer text_encoder unet float32
     None initial_state).1 = Raise (unknown_prediction_type "sample").
Proof.
  split; [|split].
  - destruct (train_forward_target no_override cached_batch vae tokenizer
                text_encoder unet float32 None initial_state) as (Htarget & Hreturns & _).
    destruct (Hreturns (or_introl eq_refl) eq_refl eq_refl) as (l & st' & Hrun).
    destruct (Htarget l st' Hrun) as (_ & (st1 & Hlat & Hnoise) & Heps & _).
    exists l, st'. split; [exact Hrun|].
    assert (Hget : get_latents cached_batch vae float32 initial_state =
                   (Ok [[1%Q; 2%Q]; [3%Q; 5%Q]], initial_state))
      by (vm_compute; reflexivity).
    rewrite Hget in Hlat. injection Hlat as Hl Hst1.
    rewrite <- Hl, <- Hst1 in Hnoise.
    change (noise l = [[4%Q; 4%Q]; [4%Q; 4%Q]]) in Hnoise.
    split; [exact Hnoise|]. rewrite (Heps eq_refl). exact Hnoise.
  - destruct (train_forward_target v_override cached_batch vae tokenizer
                text_encoder unet float32 None initial_state) as (Htarget & Hreturns & _).
    destruct (Hreturns (or_intror eq_refl) eq_refl eq_refl) as (l & st' & Hrun).
    destruct (Htarget l st' Hrun) as (_ & (st1 & Hlat & Hnoise) & _ & Hv).
    exists l, st'. split; [exact Hrun|].
    assert (Hget : get_latents cached_batch vae float32 initial_state =
                   (Ok [[1%Q; 2%Q]; [3%Q; 5%Q]], initial_state))
      by (vm_compute; reflexivity).
    rewrite Hget in Hlat. injection Hlat as Hl Hst1.
    rewrite <- Hl, <- Hst1 in Hnoise.
    change (noise l = [[4%Q; 4%Q]; [4%Q; 4%Q]]) in Hnoise.
    split; [now symmetry|]. split; [exact Hnoise|]. split; [exact (Hv eq_refl)|].
    rewrite (Hv eq_refl), <- Hl, Hnoise. reflexivity.
  - apply (proj2 (proj2 (train_forward_target sample_override raw_batch vae tokenizer
                           text_encoder unet float32 None initial_state)));
      vm_compute; congruence.
Defined.

(** A [v_prediction] run with gamma 5 on raw fields: the weights are
    [min(SNR, 5) / SNR + 1]; and the unsupported type fails. *)
Lemma train_forward_min_snr_weights_witness :
  (exists l st',
     forward_locals v_override raw_batch vae tokenizer text_encoder unet float32
       (Some 5%Q) initial_state = (Ok l, st') /\
     min_snr_weights l =
       Some (map (fun s => radd (rdiv (rmin s 5%Q) s) rone)
               (compute_snr (noise_scheduler st') (timesteps l)))) /\
  (train_forward sample_override raw_batch vae tokenizer text_encoder unet float32
     (Some 5%Q) initial_state).1 = Raise (unknown_prediction_type "sample").
Proof.
  split.
  - assert (Hrun : exists l st',
               forward_locals v_override raw_batch vae tokenizer text_encoder unet
                 float32 (Some 5%Q) initial_state = (Ok l, st')).
    { eexists _, _. vm_compute. reflexivity. }
    destruct Hrun as (l & st' & Hrun). exists l, st'. split; [exact Hrun|].
    destruct (proj1 (train_forward_min_snr_weights v_override raw_batch vae
                       tokenizer text_encoder unet float32 5%Q initial_state)
                l st' Hrun) as (_ & _ & Hv).
    apply Hv. reflexivity.
  - apply (proj2 (train_forward_min_snr_weights sample_override raw_batch vae tokenizer
                    text_encoder unet float32 5%Q initial_state));
      vm_compute; congruence.
Defined.

(** An [epsilon] run on cached fields with a [loss_weight].  The toy
    denoiser predicts [[5; 6]; [7; 9]] against the target of all fours: the
    squared differences are [[1; 4]; [9; 25]], their means 5/2 and 17, the
    weighted losses 5 and 17/2, and the loss that comes back is 27/4. *)
Lemma train_forward_loss_witness :
  (train_forward no_override cached_batch vae tokenizer text_encoder unet float32
     None initial_state).1 = Ok (27 # 4)%Q.
Proof.
  assert (Hrun : exists l st',
             forward_locals no_override cached_batch vae tokenizer text_encoder unet
               float32 None initial_state = (Ok l, st') /\
             model_pred l = [[5%Q; 6%Q]; [7%Q; 9%Q]] /\
             target l = [[4%Q; 4%Q]; [4%Q; 4%Q]] /\
             min_snr_weights l = None).
  { eexists _, _. split; [vm_compute; reflexivity|]. now vm_compute. }
  destruct Hrun as (l & st' & Hrun & Hpred & Htarget & Hsnr).
  destruct (train_forward_loss no_override cached_batch vae tokenizer text_encoder
              unet float32 None initial_state l st' Hrun)
    as (per_example & Hloss & Hlength & Hentries).
  - now rewrite Hpred, Htarget.
  - intros w Hw. congruence.
  - intros v Hv. vm_compute in Hv. injection Hv as <-.
    eexists. split; [reflexivity|]. now rewrite Htarget.
  - rewrite Hpred, Htarget, Hsnr in Hentries.
    destruct (Hentries 0%nat _ _ eq_refl eq_refl) as (x0 & -> & H0).
    destruct (Hentries 1%nat _ _ eq_refl eq_refl) as (x1 & -> & H1).
    clear Hentries. rewrite Htarget in Hlength.
    change (cached_batch !! "loss_weight")
      with (Some (VVec [2%Q; (1 # 2)%Q]) : option (value Q)) in H0, H1.
    destruct H0 as (w0 & c0 & [= <-] & [= <-] & H0).
    destruct H1 as (w1 & c1 & [= <-] & [= <-] & H1).
    destruct per_example as [|a [|b [|c rest]]]; try discriminate.
    injection H0 as ->. injection H1 as ->.
    rewrite Hloss. vm_compute. reflexivity.
Defined.

(** Shapes that differ.  A prediction of one column is stretched over the
    two columns of the target; three columns against two are refused.  A
    single weight meets every loss, a weight too many is refused, and a
    column of weights gives a product with a row for each weight. *)
Lemma per_example_loss_broadcasts :
  mse_loss_none [[5%Q]; [7%Q]] [[4%Q; 4%Q]; [4%Q; 6%Q]] =
    Ok [[1%Q; 1%Q]; [9%Q; 1%Q]] /\
  mse_loss_none [[5%Q; 6%Q; 7%Q]] [[4%Q; 4%Q]] =
    Raise (RuntimeError "the sizes of the tensors must match") /\
  mul_loss_weight [(5 # 2)%Q; 17%Q] (VVec [2%Q]) = Ok [5%Q; 34%Q] /\
  mul_loss_weight [(5 # 2)%Q; 17%Q] (VVec [2%Q; 1%Q; 1%Q]) =
    Raise (RuntimeError "the sizes of the tensors must match") /\
  mul_loss_weight [(5 # 2)%Q; 17%Q] (VTensor [[1%Q]; [0%Q]]) =
    Ok [(5 # 2)%Q; 17%Q; 0%Q; 0%Q].
Proof. repeat split. Qed.

(** A call that writes to its arguments: the scheduler comes configured
    for [epsilon], the configuration asks for [v_prediction], and after the
    call the scheduler object says [v_prediction]; the generator has moved
    on as well. *)
Lemma train_forward_overwrites_scheduler :
  prediction_type (noise_scheduler initial_state) = "epsilon" /\
  prediction_type
    (noise_scheduler
       (train_forward v_override cached_batch vae tokenizer text_encoder unet
          float32 None initial_state).2) = "v_prediction" /\
  noise_scheduler
    (train_forward v_override cached_batch vae tokenizer text_encoder unet
       float32 None initial_state).2 <> noise_scheduler initial_state /\
  generator
    (train_forward v_override cached_batch vae tokenizer text_encoder unet
       float32 None initial_state).2 <> generator initial_state.
Proof. vm_compute. repeat split; discriminate. Qed.

Lemma train_forward_scheduler_frame_witness :
  noise_scheduler
    (train_forward v_override raw_batch vae tokenizer text_encoder unet float32
       None initial_state).2 =
  register_to_config "v_prediction" epsilon_scheduler /\
  noise_scheduler
    (train_forward no_override raw_batch vae tokenizer text_encoder unet float32
       None initial_state).2 = epsilon_scheduler.
Proof.
  split.
  - destruct (train_forward_scheduler_frame v_override raw_batch vae tokenizer
                text_encoder unet float32 None initial_state) as (_ & _ & _ & Hsome).
    destruct (Hsome "v_prediction" eq_refl) as [_ Hreg].
    apply Hreg; reflexivity.
  - destruct (train_forward_scheduler_frame no_override raw_batch vae tokenizer
                text_encoder unet float32 None initial_state) as (_ & _ & Hnone & _).
    apply Hnone. reflexivity.
Defined.

End ForwardExampleFacts.

(** ** The training run: set-up *)

Section TrainSetUpFacts.

Import Train.

Lemma set_up_phase_ret {A} (a : A) : set_up_phase (tret a).
Proof. split; [intros ev Hev; inversion Hev | discriminate]. Qed.

Lemma set_up_phase_emit (ev : event) :
  is_training ev = false -> set_up_phase (emit ev).
Proof.
  intros Hev. split; [|discriminate].
  intros ev' Hin. cbn in Hin. apply list_elem_of_singleton in Hin. now subst.
Qed.

Lemma set_up_phase_raise {A} (e : exception) :
  is_configuration_error e = true -> set_up_phase (@traise event A e).
Proof. intros He. split; [intros ev Hev; inversion Hev | now intros e' [= <-]]. Qed.

Lemma set_up_phase_bind {A B} (m : traced event A) (f : A -> traced event B) :
  set_up_phase m -> (forall a, set_up_phase (f a)) -> set_up_phase (m ≫= f).
Proof.
  intros [Hm1 Hm2] Hf. unfold set_up_phase, mbind, traced_bind, tbind.
  destruct m as [t [a|e]]; cbn in *;
    [|split; [assumption | intros e0 [= <-]; now apply Hm2]].
  destruct (Hf a) as [Hf1 Hf2]. destruct (f a) as [t' r]; cbn in *.
  split; [|assumption].
  intros ev [Hin|Hin]%elem_of_app; auto.
Qed.

Lemma set_up_phase_when (b : bool) (m : traced event unit) :
  set_up_phase m -> set_up_phase (when b m).
Proof. destruct b; [auto | intros _; apply set_up_phase_ret]. Qed.

Lemma set_up_phase_build_data_loader cfg : set_up_phase (_build_data_loader cfg).
Proof.
  unfold _build_data_loader.
  destruct (String.eqb _ _); [now apply set_up_phase_emit|].
  destruct (String.eqb _ _); [now apply set_up_phase_emit|].
  now apply set_up_phase_raise.
Qed.

Ltac set_up_phase_steps :=
  repeat first
    [ apply set_up_phase_bind; [|intros ?]
    | apply set_up_phase_when
    | apply set_up_phase_build_data_loader
    | apply set_up_phase_ret
    | apply set_up_phase_emit; reflexivity
    | apply set_up_phase_raise; reflexivity ].

Lemma set_up_phase_start_up config : set_up_phase (start_up config).
Proof.
  unfold start_up. destruct (seed config); set_up_phase_steps.
Qed.

Lemma set_up_phase_text_encoder_cache config env :
  set_up_phase (prepare_text_encoder_cache config env).
Proof.
  unfold prepare_text_encoder_cache, cache_text_encoder_outputs_job.
  destruct (cache_text_encoder_outputs config), (train_text_encoder config);
    set_up_phase_steps.
Qed.

Lemma set_up_phase_vae_cache config env :
  set_up_phase (prepare_vae_cache config env).
Proof.
  unfold prepare_vae_cache, cache_vae_outputs_job.
  destruct (cache_vae_outputs config), (random_flip (data_loader config)),
    (center_crop (data_loader config)); cbn [negb]; set_up_phase_steps.
Qed.

Lemma set_up_phase_build_trainables config : set_up_phase (build_trainables config).
Proof. unfold build_trainables. set_up_phase_steps. Qed.

Lemma set_up_phase_before_asserts config env :
  set_up_phase (before_asserts config env).
Proof.
  unfold before_asserts.
  apply set_up_phase_bind; [apply set_up_phase_start_up | intros _].
  apply set_up_phase_bind; [apply set_up_phase_text_encoder_cache | intros _].
  apply set_up_phase_bind; [apply set_up_phase_vae_cache | intros _].
  apply set_up_phase_build_trainables.
Qed.

Lemma set_up_phase_check config : set_up_phase (check_exactly_one config).
Proof.
  unfold check_exactly_one, assert.
  repeat (apply set_up_phase_bind; [|intros ?]);
    match goal with |- set_up_phase (if ?b then _ else _) => destruct b end;
    set_up_phase_steps.
Qed.

Lemma set_up_phase_set_up config env : set_up_phase (set_up config env).
Proof.
  unfold set_up. apply set_up_phase_bind;
    auto using set_up_phase_before_asserts, set_up_phase_check.
Qed.

Lemma exactly_one_iff {A B} (a : option A) (b : option B) :
  exactly_one a b = true <-> exactly_one_set a b.
Proof.
  unfold exactly_one, exactly_one_set.
  destruct a, b; cbn; split; try discriminate; eauto;
    intros [[H1 H2]|[H1 H2]]; try discriminate;
    try (destruct H1; discriminate); destruct H2; discriminate.
Qed.

(** The assertions pass exactly when each pair has one option set. *)
Lemma check_exactly_one_Ok config :
  (check_exactly_one config).2 = Ok tt <->
  exactly_one_set (max_train_steps config) (max_train_epochs config) /\
  exactly_one_set (save_every_n_steps config) (save_every_n_epochs config) /\
  exactly_one_set (validate_every_n_steps config) (validate_every_n_epochs config).
Proof.
  rewrite <- !exactly_one_iff. unfold check_exactly_one, assert.
  destruct (exactly_one (max_train_steps config) (max_train_epochs config)),
    (exactly_one (save_every_n_steps config) (save_every_n_epochs config)),
    (exactly_one (validate_every_n_steps config) (validate_every_n_epochs config));
    cbn; intuition discriminate.
Qed.

Lemma check_exactly_one_result config :
  check_exactly_one config = ([], Ok tt) \/
  check_exactly_one config = ([], Raise AssertionError).
Proof.
  unfold check_exactly_one, assert.
  destruct (exactly_one (max_train_steps config) (max_train_epochs config)),
    (exactly_one (save_every_n_steps config) (save_every_n_epochs config)),
    (exactly_one (validate_every_n_steps config) (validate_every_n_epochs config));
    cbn; auto.
Qed.

(** When the set-up returns, the assertions have passed. *)
Lemma set_up_Ok config env t :
  set_up config env = (t, Ok tt) ->
  (check_exactly_one config).2 = Ok tt.
Proof.
  unfold set_up. intros (t1 & [] & t2 & _ & Hcheck & _)%tbind_Ok_inv.
  now rewrite Hcheck.
Qed.

(** What the set-up raises once the earlier phases are through is the
    assertion error. *)
Lemma set_up_Raise_after config env e :
  is_ok (before_asserts config env).2 = true ->
  (set_up config env).2 = Raise e -> e = AssertionError.
Proof.
  unfold set_up. destruct (before_asserts config env) as [t [[]|e']]; [|discriminate].
  intros _. unfold mbind, traced_bind, tbind.
  destruct (check_exactly_one_result config) as [-> | ->]; cbn; congruence.
Qed.

Lemma train_set_up_Raise config env t e :
  set_up config env = (t, Raise e) -> train config env = (t, Raise e).
Proof. intros Hset. unfold train. now rewrite Hset. Qed.

(** C7: a configuration [train] accepts has exactly one of
    [max_train_steps] and [max_train_epochs] set, exactly one of the two
    save cadences and exactly one of the two validation cadences.  With any
    of the three violated, [train] raises a configuration error (the
    assertion error of lines 441-443, unless an earlier check of the
    configuration has already failed) and nothing of the training loop has
    run by then. *)
Theorem train_exactly_one_of_each_pair (config : SdLoraConfig) (env : Environment) :
  let run := train config env in
  let valid :=
    exactly_one_set (max_train_steps config) (max_train_epochs config) /\
    exactly_one_set (save_every_n_steps config) (save_every_n_epochs config) /\
    exactly_one_set (validate_every_n_steps config) (validate_every_n_epochs config) in
  (forall st, run.2 = Ok st -> valid) /\
  (~ valid ->
     (exists e, run.2 = Raise e /\ is_configuration_error e = true) /\
     (forall ev, ev ∈ run.1 -> is_training ev = false) /\
     (is_ok (before_asserts config env).2 = true -> run.2 = Raise AssertionError)).
Proof.
  cbn zeta.
  pose proof (set_up_phase_set_up config env) as [Hquiet Hconfig].
  destruct (set_up config env) as [t [[]|e]] eqn:Hset.
  - pose proof (proj1 (check_exactly_one_Ok config) (set_up_Ok _ _ _ Hset)) as Hvalid.
    split; [auto | intros Hinvalid; contradiction].
  - rewrite (train_set_up_Raise _ _ _ _ Hset). cbn [fst snd] in *.
    split; [discriminate|].
    intros _. split; [|split].
    + exists e. split; [reflexivity | now apply Hconfig].
    + exact Hquiet.
    + intros Hbefore. f_equal.
      apply (set_up_Raise_after config env); [assumption | now rewrite Hset].
Qed.

(** C6, as it holds: with [cache_text_encoder_outputs] and
    [train_text_encoder] both set, [train] raises the configuration error
    of line 313.  By then it has created the output directory, initialised
    the accelerator, seeded, written the configuration and loaded the
    models (and enabled xformers if asked to), and nothing else: no
    encoder output has been computed or cached and no training step taken. *)
Theorem train_cache_conflict (config : SdLoraConfig) (env : Environment) :
  cache_text_encoder_outputs config = true ->
  train_text_encoder config = true ->
  let run := train config env in
  run.2 = Raise (ValueError cache_conflict_msg) /\
  run.1 = (start_up config).1 /\
  (exists before after,
     run.1 = [EvMakeDirs; EvInitAccelerator] ++ before
             ++ [EvWriteConfig; EvLoadModels] ++ after /\
     (before = [] \/ exists s, before = [EvSetSeed s]) /\
     (after = [] \/ after = [EvEnableXformers])) /\
  (forall ev, ev ∈ run.1 -> is_computation ev = false /\ is_training ev = false).
Proof.
  intros Hcache Htrain. cbn zeta.
  unfold train, set_up, before_asserts, prepare_text_encoder_cache, start_up.
  rewrite Hcache, Htrain.
  assert (Hquiet : forall l : list event,
            forallb (fun ev => negb (is_computation ev) && negb (is_training ev)) l = true ->
            forall ev, ev ∈ l -> is_computation ev = false /\ is_training ev = false).
  { intros l Hall ev Hev%list_elem_of_In.
    rewrite forallb_forall in Hall. specialize (Hall ev Hev).
    apply andb_true_iff in Hall as [Hc Ht].
    now rewrite negb_true_iff in Hc, Ht. }
  destruct (seed config) as [s|], (xformers config); cbn;
    (split; [reflexivity|]; split; [reflexivity|]; split;
     [|now apply Hquiet]).
  - exists [EvSetSeed s], [EvEnableXformers]. eauto 6.
  - exists [EvSetSeed s], []. eauto 6.
  - exists [], [EvEnableXformers]. eauto 6.
  - exists [], []. eauto 6.
Qed.

End TrainSetUpFacts.

Section TrainSetUpExampleFacts.

Import Train TrainExample.

(** A run with both options set: the models are loaded before the
    configuration error is raised. *)
Lemma train_loads_models_before_cache_check :
  (train cache_and_train_text_encoder (single_process 10)).2 =
    Raise (ValueError cache_conflict_msg) /\
  EvLoadModels ∈ (train cache_and_train_text_encoder (single_process 10)).1.
Proof.
  split; [vm_compute; reflexivity|].
  replace (train cache_and_train_text_encoder (single_process 10)).1
    with [EvMakeDirs; EvInitAccelerator; EvWriteConfig; EvLoadModels]
    by (vm_compute; reflexivity).
  rewrite !elem_of_cons. auto 10.
Qed.

Lemma train_cache_conflict_witness :
  (train cache_and_train_text_encoder (single_process 10)).2 =
  Raise (ValueError cache_conflict_msg).
Proof.
  apply (train_cache_conflict cache_and_train_text_encoder (single_process 10));
    vm_compute; reflexivity.
Defined.

Lemma train_exactly_one_of_each_pair_witness :
  (train steps_and_epochs (single_process 10)).2 = Raise AssertionError /\
  is_Some (max_train_steps ten_steps) /\ max_train_epochs ten_steps = None.
Proof.
  destruct (train_exactly_one_of_each_pair steps_and_epochs (single_process 10))
    as [_ Hinvalid].
  destruct (train_exactly_one_of_each_pair ten_steps (single_process 10))
    as [Hvalid _].
  assert (Hrun : exists st, (train ten_steps (single_process 10)).2 = Ok st)
    by (eexists; vm_compute; reflexivity).
  destruct Hrun as [st Hrun].
  split.
  - apply Hinvalid; [|vm_compute; reflexivity].
    intros [[[_ Hnone]|[Hnone _]] _]; discriminate.
  - destruct (Hvalid st Hrun) as [[[Hs Hn]|[Hn _]] _]; [now split | discriminate].
Defined.

End TrainSetUpExampleFacts.

(** ** The training run: the loop *)

Section TrainLoopFacts.

Import Train.

Lemma batch_records_app (t1 t2 : list event) :
  batch_records (t1 ++ t2) = batch_records t1 ++ batch_records t2.
Proof. unfold batch_records. apply omap_app. Qed.

Lemma last_step_app g (r1 r2 : list (bool * Z)) :
  last_step g (r1 ++ r2) = last_step (last_step g r1) r2.
Proof. unfold last_step. apply foldl_app. Qed.

Lemma counts_syncs_app g (r1 r2 : list (bool * Z)) :
  counts_syncs g (r1 ++ r2) <->
  counts_syncs g r1 /\ counts_syncs (last_step g r1) r2.
Proof.
  revert g. induction r1 as [|[sync g'] r1 IH]; intros g; cbn.
  - tauto.
  - rewrite IH. unfold last_step. cbn. tauto.
Qed.

Lemma tracks_bind g (m : traced event LoopState)
    (f : LoopState -> traced event LoopState) :
  tracks g m -> (forall st, m.2 = Ok st -> tracks (global_step st) (f st)) ->
  tracks g (m ≫= f).
Proof.
  intros [Hc Hg] Hf. unfold tracks, mbind, traced_bind, tbind in *.
  destruct m as [t [st|e]]; cbn [fst snd] in *.
  - specialize (Hg st eq_refl). destruct (Hf st eq_refl) as [Hc' Hg'].
    destruct (f st) as [t' r]; cbn [fst snd] in *. split.
    + rewrite batch_records_app, counts_syncs_app. now rewrite <- Hg.
    + intros st' ->. rewrite batch_records_app, last_step_app, <- Hg. now apply Hg'.
  - split; [assumption | discriminate].
Qed.

Section WithPolicy.

Variable accumulate : bool -> Accelerator -> Accelerator.
Variable config : SdLoraConfig.
Variable env : Environment.
Variable schedule : Schedule.

Ltac case_scrutinee :=
  match goal with
  | |- context [match ?x with _ => _ end] =>
      match type of x with
      | bool => destruct x eqn:?
      | result _ => destruct x as [[]|] eqn:?
      | option _ => destruct x eqn:?
      end
  end.

(** Saving and validating leave no batch record. *)
Lemma save_checkpoint_silent (e g : Z) :
  batch_records (save_checkpoint config env e g).1 = [].
Proof.
  unfold save_checkpoint, when. repeat case_scrutinee; reflexivity.
Qed.

Lemma validate_silent (e g : Z) : batch_records (validate env e g).1 = [].
Proof. unfold validate, when. repeat case_scrutinee; reflexivity. Qed.

Lemma when_silent (b : bool) (m : traced event unit) :
  batch_records m.1 = [] -> batch_records (when b m).1 = [].
Proof. now destruct b. Qed.

Lemma bind_silent {A B} (m : traced event A) (f : A -> traced event B) :
  batch_records m.1 = [] -> (forall a, batch_records (f a).1 = []) ->
  batch_records (m ≫= f).1 = [].
Proof.
  intros Hm Hf. unfold mbind, traced_bind, tbind.
  destruct m as [t [a|e]]; cbn [fst snd] in *; [|assumption].
  specialize (Hf a). destruct (f a) as [t' r]; cbn [fst snd] in *.
  now rewrite batch_records_app, Hm, Hf.
Qed.

Lemma tlift_silent {A} (r : result A) : batch_records (@tlift event A r).1 = [].
Proof. reflexivity. Qed.

Lemma bind_Ok_last {A B} (m : traced event A) (f : A -> traced event B) b :
  (m ≫= f).2 = Ok b -> exists a, m.2 = Ok a /\ (f a).2 = Ok b.
Proof.
  unfold mbind, traced_bind, tbind. destruct m as [t [a|e]]; [|discriminate].
  destruct (f a) as [t' r] eqn:Hf. cbn. intros ->. exists a. now rewrite Hf.
Qed.

(** A synchronised batch: one more step, and no batch record of its own. *)
Lemma on_sync_spec (epoch : Z) (idx : nat) (st : LoopState) :
  batch_records (on_sync config env epoch idx st).1 = [] /\
  (forall st', (on_sync config env epoch idx st).2 = Ok st' ->
     global_step st' = global_step st + 1 /\ accelerator st' = accelerator st).
Proof.
  unfold on_sync. split.
  - apply bind_silent; [reflexivity | intros _].
    apply bind_silent; [apply tlift_silent | intros due1].
    apply bind_silent; [apply when_silent, save_checkpoint_silent | intros _].
    apply bind_silent; [apply tlift_silent | intros due2].
    apply bind_silent; [apply when_silent, validate_silent | intros _].
    reflexivity.
  - intros st' Hrun.
    apply bind_Ok_last in Hrun as (_ & _ & Hrun).
    apply bind_Ok_last in Hrun as (due1 & _ & Hrun).
    apply bind_Ok_last in Hrun as (_ & _ & Hrun).
    apply bind_Ok_last in Hrun as (due2 & _ & Hrun).
    apply bind_Ok_last in Hrun as (_ & _ & Hrun).
    cbn in Hrun. injection Hrun as <-. now split.
Qed.

(** One batch: the step counter moves by one exactly when the accelerator
    has synchronised, and the batch's record says so. *)
Lemma train_batch_spec (epoch : Z) (idx : nat) (st : LoopState) :
  let run := train_batch accumulate config env epoch idx st in
  let acc := accumulate (S idx =? prepared_num_batches env)%nat (accelerator st) in
  (forall st', run.2 = Ok st' ->
     accelerator st' = acc /\
     global_step st' = global_step st + Z.b2z (sync_gradients acc) /\
     batch_records run.1 = [(sync_gradients acc, global_step st')]) /\
  (forall e, run.2 = Raise e -> batch_records run.1 = []).
Proof.
  cbn zeta. unfold train_batch.
  set (acc := accumulate (S idx =? prepared_num_batches env)%nat (accelerator st)).
  set (st1 := {| global_step := global_step st;
                 completed_epochs := completed_epochs st; accelerator := acc |}).
  destruct (train_step env epoch idx) as [[]|e0]; cbn [tlift];
    [|split; [discriminate | reflexivity]].
  change (accelerator st1) with acc.
  destruct (sync_gradients acc) eqn:Hsync.
  - destruct (on_sync_spec epoch idx st1) as [Hsilent Hok].
    destruct (on_sync config env epoch idx st1) as [t [st2|e]]; cbn in *.
    + destruct (Hok st2 eq_refl) as [Hg Ha].
      split; [|discriminate]. intros st' [= <-].
      split; [exact Ha|]. split; [exact Hg|].
      rewrite omap_app, Hsilent. cbn. now rewrite Ha, Hsync.
    + split; [discriminate|]. intros _ _. exact Hsilent.
  - cbn. change (accelerator st1) with acc. rewrite Hsync.
    split; [|discriminate]. intros st' [= <-]. cbn.
    repeat split. lia.
Qed.

Lemma train_batch_tracks (epoch : Z) (idx : nat) (st : LoopState) :
  tracks (global_step st) (train_batch accumulate config env epoch idx st).
Proof.
  destruct (train_batch_spec epoch idx st) as [Hok Hraise].
  destruct (train_batch accumulate config env epoch idx st) as [t [st'|e]];
    cbn [fst snd] in *.
  - destruct (Hok st' eq_refl) as (_ & Hg & Hrec). unfold tracks. cbn [fst snd].
    rewrite Hrec. cbn. split; [split; [exact Hg | exact I]|].
    now intros st2 [= <-].
  - unfold tracks. cbn [fst snd]. rewrite (Hraise e eq_refl).
    split; [exact I | discriminate].
Qed.

Lemma batch_loop_tracks (epoch : Z) (batches : list nat) (st : LoopState) :
  tracks (global_step st) (batch_loop accumulate config env schedule epoch batches st).
Proof.
  revert st. induction batches as [|idx rest IH]; intros st.
  - split; [exact I | now intros st' [= <-]].
  - cbn [batch_loop]. apply tracks_bind; [apply train_batch_tracks|].
    intros st1 _. destruct (num_train_steps schedule <=? global_step st1).
    + split; [exact I | now intros st' [= <-]].
    + apply IH.
Qed.

Lemma after_epoch_silent (st : LoopState) :
  batch_records (after_epoch config env st).1 = [].
Proof.
  unfold after_epoch.
  apply bind_silent; [apply tlift_silent | intros due1].
  apply bind_silent; [apply when_silent, save_checkpoint_silent | intros _].
  apply bind_silent; [apply tlift_silent | intros due2].
  apply when_silent, validate_silent.
Qed.

Lemma epoch_loop_tracks (epochs : list Z) (st : LoopState) :
  tracks (global_step st) (epoch_loop accumulate config env schedule epochs st).
Proof.
  revert st. induction epochs as [|epoch rest IH]; intros st.
  - split; [exact I | now intros st' [= <-]].
  - cbn [epoch_loop]. apply tracks_bind; [apply batch_loop_tracks|].
    intros st1 _.
    pose proof (after_epoch_silent st1) as Hsilent.
    destruct (IH st1) as [Hc Hg].
    unfold tracks, mbind, traced_bind, tbind.
    destruct (after_epoch config env st1) as [t [[]|e]]; cbn [fst snd] in *.
    + destruct (epoch_loop accumulate config env schedule rest st1) as [t' r];
        cbn [fst snd] in *.
      rewrite batch_records_app, Hsilent. cbn. now split.
    + rewrite Hsilent. split; [exact I | discriminate].
Qed.

Lemma bind_Ok_intro {A B} (m : traced event A) (f : A -> traced event B) a b :
  m.2 = Ok a -> (f a).2 = Ok b -> (m ≫= f).2 = Ok b.
Proof.
  unfold mbind, traced_bind, tbind. destruct m as [t r]; cbn. intros ->.
  now destruct (f a).
Qed.

Lemma is_multiple_returns (cadence : option Z) (x : Z) :
  nonzero cadence = true -> exists b, is_multiple cadence x = Ok b.
Proof.
  unfold nonzero, is_multiple. destruct cadence as [n|]; [|eauto].
  destruct (n =? 0); [discriminate | eauto].
Qed.

Lemma save_checkpoint_returns (e g : Z) :
  supported_checkpoint_format config = true ->
  (save_checkpoint config env e g).2 = Ok tt.
Proof.
  unfold supported_checkpoint_format, save_checkpoint, when.
  destruct (is_main_process env); [|reflexivity].
  destruct (String.eqb (lora_checkpoint_format config) "invoke_peft"); [reflexivity|].
  destruct (String.eqb (lora_checkpoint_format config) "kohya"); [reflexivity|].
  discriminate.
Qed.

Lemma validate_returns (e g : Z) : (validate env e g).2 = Ok tt.
Proof. unfold validate, when. now destruct (is_main_process env). Qed.

Lemma when_returns (b : bool) (m : traced event unit) :
  m.2 = Ok tt -> (when b m).2 = Ok tt.
Proof. now destruct b. Qed.

Lemma cadences_nonzero_inv :
  cadences_nonzero config = true ->
  nonzero (save_every_n_steps config) = true /\
  nonzero (save_every_n_epochs config) = true /\
  nonzero (validate_every_n_steps config) = true /\
  nonzero (validate_every_n_epochs config) = true.
Proof.
  unfold cadences_nonzero. rewrite !andb_true_iff. tauto.
Qed.

Lemma on_sync_returns (epoch : Z) (idx : nat) (st : LoopState) :
  cadences_nonzero config = true ->
  supported_checkpoint_format config = true ->
  exists st', (on_sync config env epoch idx st).2 = Ok st'.
Proof.
  intros (Hs & _ & Hv & _)%cadences_nonzero_inv Hfmt. unfold on_sync.
  destruct (is_multiple_returns _ (global_step st + 1) Hs) as [due1 Hdue1].
  destruct (is_multiple_returns _ (global_step st + 1) Hv) as [due2 Hdue2].
  eexists.
  eapply bind_Ok_intro; [reflexivity|].
  eapply bind_Ok_intro; [exact Hdue1|].
  eapply bind_Ok_intro; [apply when_returns, save_checkpoint_returns, Hfmt|].
  eapply bind_Ok_intro; [exact Hdue2|].
  eapply bind_Ok_intro; [apply when_returns, validate_returns|].
  reflexivity.
Qed.

Lemma after_epoch_returns (st : LoopState) :
  cadences_nonzero config = true ->
  supported_checkpoint_format config = true ->
  (after_epoch config env st).2 = Ok tt.
Proof.
  intros (_ & Hs & _ & Hv)%cadences_nonzero_inv Hfmt. unfold after_epoch.
  destruct (is_multiple_returns _ (completed_epochs st) Hs) as [due1 Hdue1].
  destruct (is_multiple_returns _ (completed_epochs st) Hv) as [due2 Hdue2].
  eapply bind_Ok_intro; [exact Hdue1|].
  eapply bind_Ok_intro; [apply when_returns, save_checkpoint_returns, Hfmt|].
  eapply bind_Ok_intro; [exact Hdue2|].
  apply when_returns, validate_returns.
Qed.

Lemma train_batch_returns (epoch : Z) (idx : nat) (st : LoopState) :
  steps_succeed env ->
  cadences_nonzero config = true ->
  supported_checkpoint_format config = true ->
  exists st', (train_batch accumulate config env epoch idx st).2 = Ok st'.
Proof.
  intros Hsteps Hcad Hfmt. unfold train_batch.
  set (st1 := {| global_step := global_step st;
                 completed_epochs := completed_epochs st;
                 accelerator := accumulate (S idx =? prepared_num_batches env)%nat
                                  (accelerator st) |}).
  destruct (on_sync_returns epoch idx st1 Hcad Hfmt) as [st2 Hst2].
  exists (if sync_gradients (accelerator st1) then st2 else st1).
  eapply bind_Ok_intro; [rewrite Hsteps; reflexivity|].
  eapply bind_Ok_intro; [reflexivity|].
  eapply (bind_Ok_intro _ _ (if sync_gradients (accelerator st1) then st2 else st1)).
  { destruct (sync_gradients (accelerator st1)); [exact Hst2 | reflexivity]. }
  eapply bind_Ok_intro; reflexivity.
Qed.

End WithPolicy.

Lemma counts_syncs_last_step g (records : list (bool * Z)) :
  counts_syncs g records -> last_step g records = g + sync_count records.
Proof.
  revert g. induction records as [|[sync g'] records IH]; intros g.
  - intros _. unfold last_step, sync_count. cbn. lia.
  - intros [-> Hrest].
    change (last_step g ((sync, g + Z.b2z sync) :: records))
      with (last_step (g + Z.b2z sync) records).
    change (sync_count ((sync, g + Z.b2z sync) :: records))
      with (Z.b2z sync + sync_count records).
    rewrite (IH _ Hrest). lia.
Qed.

Lemma counts_syncs_lower g (records : list (bool * Z)) i r :
  counts_syncs g records -> records !! i = Some r -> g <= r.2.
Proof.
  revert g i. induction records as [|[sync g'] records IH]; intros g i; [easy|].
  cbn. intros [-> Hrest]. destruct i as [|i]; cbn.
  - intros [= <-]. cbn. destruct sync; cbn; lia.
  - intros Hr. specialize (IH _ _ Hrest Hr). destruct sync; cbn in *; lia.
Qed.

Lemma counts_syncs_monotone g (records : list (bool * Z)) i j a b :
  counts_syncs g records -> (i <= j)%nat ->
  records !! i = Some a -> records !! j = Some b -> a.2 <= b.2.
Proof.
  revert g i j. induction records as [|[sync g'] records IH]; intros g i j; [easy|].
  cbn. intros [-> Hrest] Hij. destruct i as [|i], j as [|j]; cbn.
  - intros [= <-] [= <-]. cbn. lia.
  - intros [= <-] Hb. cbn. apply (counts_syncs_lower _ _ _ _ Hrest Hb).
  - exfalso. lia.
  - apply (IH _ _ _ Hrest). lia.
Qed.

Lemma batch_records_set_up (t : list event) :
  (forall ev, ev ∈ t -> is_training ev = false) -> batch_records t = [].
Proof.
  induction t as [|ev t IH]; intros Hall; [reflexivity|].
  unfold batch_records in *. cbn.
  assert (Hev : is_training ev = false) by (apply Hall; left).
  destruct ev; try discriminate; cbn; apply IH; intros ev' Hin; apply Hall;
    now right.
Qed.

Lemma tracks_after_silent {A} g (m : traced event A)
    (f : A -> traced event LoopState) :
  batch_records m.1 = [] -> (forall a, tracks g (f a)) -> tracks g (m ≫= f).
Proof.
  intros Hm Hf. unfold tracks, mbind, traced_bind, tbind in *.
  destruct m as [t [a|e]]; cbn [fst snd] in *.
  - specialize (Hf a). destruct (f a) as [t' r]; cbn [fst snd] in *.
    now rewrite batch_records_app, Hm.
  - rewrite Hm. split; [exact I | discriminate].
Qed.

(** The whole of [train] keeps the count. *)
Lemma train_tracks (config : SdLoraConfig) (env : Environment) :
  tracks 0 (train config env).
Proof.
  unfold train.
  apply tracks_after_silent;
    [apply batch_records_set_up, set_up_phase_set_up | intros _].
  apply tracks_after_silent; [reflexivity | intros schedule].
  apply tracks_after_silent; [reflexivity | intros _].
  apply tracks_after_silent; [reflexivity | intros _].
  apply tracks_after_silent; [now destruct (is_main_process env) | intros _].
  apply (tracks_bind 0); [apply (epoch_loop_tracks _ _ _ _ _ initial_loop_state)|].
  intros st _. split; [exact I | now intros st' [= <-]].
Qed.

(** C5: over a training run, whatever the accelerator's policy for
    synchronising, the step counter starts at zero, each batch leaves it
    where it was or, exactly when the accelerator has synchronised on that
    batch, one higher; so it never decreases, and at the end it is the
    number of batches that synchronised, not the number of batches. *)
Theorem global_step_counts_syncs (accumulate : bool -> Accelerator -> Accelerator)
    (config : SdLoraConfig) (env : Environment) (schedule : Schedule) :
  let run := training_loop accumulate config env schedule in
  let records := batch_records run.1 in
  counts_syncs 0 records /\
  (forall i j a b, (i <= j)%nat -> records !! i = Some a -> records !! j = Some b ->
     0 <= a.2 <= b.2) /\
  (forall st, run.2 = Ok st -> global_step st = sync_count records) /\
  (forall epoch idx st st',
     (train_batch accumulate config env epoch idx st).2 = Ok st' ->
     let acc := accumulate (S idx =? prepared_num_batches env)%nat (accelerator st) in
     accelerator st' = acc /\
     global_step st' = global_step st + Z.b2z (sync_gradients acc)) /\
  (let records := batch_records (train config env).1 in
   counts_syncs 0 records /\
   forall st, (train config env).2 = Ok st -> global_step st = sync_count records).
Proof.
  cbn zeta.
  destruct (epoch_loop_tracks accumulate config env schedule
              (epoch_range schedule) initial_loop_state) as [Hc Hg].
  fold (training_loop accumulate config env schedule) in Hc, Hg.
  change (global_step initial_loop_state) with 0 in Hc, Hg.
  split; [exact Hc|]. split; [|split; [|split]].
  - intros i j a b Hij Ha Hb. split.
    + apply (counts_syncs_lower _ _ _ _ Hc Ha).
    + apply (counts_syncs_monotone _ _ _ _ _ _ Hc Hij Ha Hb).
  - intros st Hst. rewrite (Hg st Hst), (counts_syncs_last_step _ _ Hc). lia.
  - intros epoch idx st st' Hrun.
    destruct (proj1 (train_batch_spec accumulate config env epoch idx st) st' Hrun)
      as (Ha & Hgs & _).
    now split.
  - destruct (train_tracks config env) as [Hc' Hg']. split; [exact Hc'|].
    intros st Hst. rewrite (Hg' st Hst), (counts_syncs_last_step _ _ Hc'). lia.
Qed.

(** *** The step budget under the accelerator's default policy *)

Lemma syncs_nonneg gas len i k : 0 <= syncs gas len i k.
Proof.
  revert i. induction k as [|k IH]; intros i; [cbn; lia|].
  change (syncs gas len i (S k))
    with (Z.b2z (sync_at gas len i) + syncs gas len (S i) k).
  specialize (IH (S i)). destruct (sync_at gas len i); cbn [Z.b2z]; lia.
Qed.

(** The last batch of the data loader always synchronises. *)
Lemma syncs_pos gas len i k :
  (i + k = len)%nat -> (0 < k)%nat -> 1 <= syncs gas len i k.
Proof.
  revert i. induction k as [|k IH]; intros i Hlen Hk; [lia|].
  change (syncs gas len i (S k))
    with (Z.b2z (sync_at gas len i) + syncs gas len (S i) k).
  destruct k as [|k].
  - unfold sync_at. replace (S i =? len)%nat with true
      by (symmetry; apply Nat.eqb_eq; lia). cbn. lia.
  - specialize (IH (S i) ltac:(lia) ltac:(lia)).
    destruct (sync_at gas len i); cbn [Z.b2z]; lia.
Qed.

Lemma accelerate_accumulate_spec gas len i acc :
  step acc = Z.of_nat i ->
  let acc' := accelerate_accumulate gas (S i =? len)%nat acc in
  sync_gradients acc' = sync_at gas len i /\
  step acc' = if (S i =? len)%nat then 0 else Z.of_nat (S i).
Proof.
  intros Hstep. unfold accelerate_accumulate, sync_at.
  destruct (S i =? len)%nat; cbn; [now split|].
  rewrite Hstep. split; [reflexivity | lia].
Qed.

(** [math.ceil(a / b)] for a positive divisor, three ways. *)
Lemma ceil_div_pos (a b : Z) :
  0 < b -> - ((- a) / b) = (a + b - 1) / b.
Proof. intros Hb. Z.div_mod_to_equations. nia. Qed.

Lemma ceil_div_pred (a b : Z) :
  0 < b -> - ((- a) / b) = (a - 1) / b + 1.
Proof. intros Hb. Z.div_mod_to_equations. nia. Qed.

Lemma ceil_div_bounds (a b : Z) :
  0 < b -> b * (- ((- a) / b) - 1) < a <= b * - ((- a) / b).
Proof. intros Hb. Z.div_mod_to_equations. nia. Qed.

Lemma round_half_even_cases (n d : Z) :
  0 < d ->
  (round_half_even n d = n / d /\ 2 * (n `mod` d) <= d) \/
  (round_half_even n d = n / d + 1 /\ d <= 2 * (n `mod` d)).
Proof.
  intros Hd. unfold round_half_even.
  destruct (2 * (n `mod` d) <? d) eqn:H1; [left; split; [reflexivity | lia]|].
  destruct (d <? 2 * (n `mod` d)) eqn:H2; [right; split; [reflexivity | lia]|].
  destruct (Z.even (n / d)); [left | right]; split; try reflexivity; lia.
Qed.

Lemma ceil_unique (m P c : Z) :
  0 < P -> (c - 1) * P < m <= c * P -> - ((- m) / P) = c.
Proof. intros HP Hm. Z.div_mod_to_equations. nia. Qed.

(** Rounding the quotient to a grid finer than half the divisor keeps its
    ceiling. *)
Lemma ceil_round_scaled (a b P : Z) :
  0 < b -> 1 <= P -> b < 2 * P ->
  - ((- round_half_even (a * P) b) / P) = - ((- a) / b).
Proof.
  intros Hb HP Hfine.
  pose proof (ceil_div_bounds a b Hb) as [Hlow Hhigh].
  set (c := - ((- a) / b)) in *.
  apply ceil_unique; [lia|].
  pose proof (Z.div_mod (a * P) b ltac:(lia)) as Hdiv.
  pose proof (Z.mod_pos_bound (a * P) b Hb) as Hmod.
  destruct (round_half_even_cases (a * P) b Hb) as [[-> Hr] | [-> Hr]];
    set (n := a * P / b) in *; set (r := (a * P) `mod` b) in *.
  - assert (Hn_low : (c - 1) * P <= n).
    { assert (b * ((c - 1) * P) < b * (n + 1)) by nia. nia. }
    assert (Hn_high : n <= c * P).
    { assert (b * n <= b * (c * P)) by nia. nia. }
    split; [|assumption].
    assert (n <> (c - 1) * P); [|lia].
    intros Heq. assert (P <= r) by nia. lia.
  - assert (Hn_low : (c - 1) * P <= n).
    { assert (b * ((c - 1) * P) < b * (n + 1)) by nia. nia. }
    assert (Hn_high : n <= c * P).
    { assert (b * n <= b * (c * P)) by nia. nia. }
    split; [lia|].
    assert (n <> c * P); [|lia].
    intros Heq. assert (r <= 0) by nia. lia.
Qed.

(** Zero divided by anything but zero is zero. *)
Lemma true_div_ceil_zero (b : Z) : true_div_ceil 0 b = 0.
Proof.
  unfold true_div_ceil, float_quotient, ceil_float. cbn [Z.abs Z.sgn Z.mul].
  destruct (0 <=? _); [reflexivity|].
  change (- 0) with 0. now rewrite Zdiv_0_l.
Qed.

Lemma quotient_exponent_bounds (a b : Z) :
  0 < a < 2 ^ 53 -> 0 < b < 2 ^ 53 ->
  -53 <= quotient_exponent a b <= 52 /\ b < 2 ^ (53 - quotient_exponent a b).
Proof.
  intros [Ha Ha'] [Hb Hb']. unfold quotient_exponent.
  pose proof (Z.log2_nonneg a) as Hla. pose proof (Z.log2_nonneg b) as Hlb.
  pose proof (proj1 (Z.log2_lt_pow2 a 53 Ha) Ha') as Hla'.
  pose proof (proj1 (Z.log2_lt_pow2 b 53 Hb) Hb') as Hlb'.
  pose proof (Z.log2_spec b Hb) as [_ Hbs].
  set (la := Z.log2 a) in *. set (lb := Z.log2 b) in *.
  destruct (pow2_le_quotient (la - lb) a b) eqn:Hle.
  - split; [lia|]. unfold pow2_le_quotient in Hle.
    destruct (0 <=? la - lb) eqn:Hsign.
    + apply Z.leb_le in Hsign, Hle.
      replace (53 - (la - lb)) with (53 - la + lb) by lia.
      destruct (Z.lt_ge_cases b (2 ^ (53 - la + lb))) as [|Hge]; [assumption|].
      exfalso.
      assert (H : 2 ^ (53 - la + lb) * 2 ^ (la - lb) <= b * 2 ^ (la - lb))
        by (apply Z.mul_le_mono_nonneg_r; [apply Z.pow_nonneg|]; lia).
      rewrite <- Z.pow_add_r in H by lia.
      replace (53 - la + lb + (la - lb)) with 53 in H by lia. lia.
    + apply Z.leb_gt in Hsign. apply Z.leb_le in Hle.
      replace (53 - (la - lb)) with (53 + - (la - lb)) by lia.
      rewrite Z.pow_add_r by lia.
      assert (0 < 2 ^ (- (la - lb))) by (apply Z.pow_pos_nonneg; lia). nia.
  - split; [lia|].
    eapply Z.lt_le_trans; [exact Hbs|].
    apply Z.pow_le_mono_r; lia.
Qed.

(** Below [2 ^ 53] the rounding of the quotient to a float does not show
    in its ceiling: [math.ceil(a / b)] is the ceiling of the exact
    quotient. *)
Lemma true_div_ceil_exact (a b : Z) :
  0 <= a < 2 ^ 53 -> 0 < b < 2 ^ 53 ->
  true_div_ceil a b = - ((- a) / b).
Proof.
  intros [Ha Ha'] Hb.
  destruct (Z.eq_dec a 0) as [->|Hne]; [rewrite true_div_ceil_zero; reflexivity|].
  destruct (quotient_exponent_bounds a b ltac:(lia) Hb) as [He Hfine].
  unfold true_div_ceil, float_quotient.
  rewrite (Z.abs_eq a), (Z.abs_eq b), (Z.sgn_pos a), (Z.sgn_pos b) by lia.
  set (e := quotient_exponent a b) in *.
  rewrite Z.max_l by lia. cbv beta iota zeta.
  change (1 * 1) with 1. rewrite Z.mul_1_l.
  assert (HP : 1 <= 2 ^ (52 - e)) by (apply (Z.pow_le_mono_r 2 0); lia).
  assert (Hfine' : b < 2 * 2 ^ (52 - e)).
  { rewrite <- Z.pow_succ_r by lia.
    now replace (Z.succ (52 - e)) with (53 - e) by lia. }
  unfold ceil_float.
  destruct (0 <=? e - 52) eqn:Hk.
  - apply Z.leb_le in Hk. assert (e = 52) as Heq by lia.
    rewrite Heq in *. change (52 - 52) with 0 in *. change (2 ^ 0) with 1 in *.
    rewrite !Z.mul_1_r.
    pose proof (ceil_round_scaled a b 1 ltac:(lia) ltac:(lia) ltac:(lia)) as H.
    rewrite Z.mul_1_r, Z.div_1_r in H. lia.
  - replace (- (e - 52)) with (52 - e) by lia.
    apply ceil_round_scaled; lia.
Qed.

Lemma ceil_div_exact (a b : Z) :
  0 <= a < 2 ^ 53 -> 0 < b < 2 ^ 53 ->
  ceil_div a b = Ok (- ((- a) / b)).
Proof.
  intros Ha Hb. unfold ceil_div.
  replace (b =? 0) with false by (symmetry; apply Z.eqb_neq; lia).
  now rewrite true_div_ceil_exact.
Qed.

Lemma div_succ (i g : Z) :
  0 < g -> 0 <= i -> (i + 1) / g = i / g + Z.b2z ((i + 1) `mod` g =? 0).
Proof.
  intros Hg Hi. destruct ((i + 1) `mod` g =? 0) eqn:Hmod; cbn [Z.b2z].
  - apply Z.eqb_eq in Hmod. Z.div_mod_to_equations. nia.
  - apply Z.eqb_neq in Hmod. Z.div_mod_to_equations. nia.
Qed.

(** An epoch of [len] batches holds [ceil(len / gas)] synchronising
    batches; from batch [i] on, those not yet passed. *)
Lemma syncs_closed gas len i k :
  0 < gas -> (i + k = len)%nat -> (0 < k)%nat ->
  syncs gas len i k = - ((- Z.of_nat len) / gas) - Z.of_nat i / gas.
Proof.
  intros Hgas. revert i. induction k as [|k IH]; intros i Hlen Hk; [lia|].
  change (syncs gas len i (S k))
    with (Z.b2z (sync_at gas len i) + syncs gas len (S i) k).
  destruct k as [|k].
  - unfold sync_at. replace (S i =? len)%nat with true
      by (symmetry; apply Nat.eqb_eq; lia).
    cbn [orb Z.b2z syncs]. rewrite ceil_div_pred by assumption.
    replace (Z.of_nat len - 1) with (Z.of_nat i) by lia. lia.
  - rewrite (IH (S i)) by lia. unfold sync_at.
    replace (S i =? len)%nat with false by (symmetry; apply Nat.eqb_neq; lia).
    cbn [orb]. rewrite Nat2Z.inj_succ, <- Z.add_1_r.
    rewrite (div_succ (Z.of_nat i) gas) by lia. lia.
Qed.

Lemma syncs_epoch gas len :
  0 < gas -> (0 < len)%nat ->
  syncs gas len 0 len = - ((- Z.of_nat len) / gas).
Proof.
  intros Hgas Hlen. rewrite (syncs_closed gas len 0 len) by (assumption || lia).
  cbn. rewrite Z.div_0_l by lia. lia.
Qed.

Section Budget.

Variable config : SdLoraConfig.
Variable env : Environment.
Variable schedule : Schedule.

Hypothesis Hsteps : steps_succeed env.
Hypothesis Hcad : cadences_nonzero config = true.
Hypothesis Hfmt : supported_checkpoint_format config = true.

Let gas := gradient_accumulation_steps config.
Let budget := num_train_steps schedule.
Let len := prepared_num_batches env.

(** The batches of an epoch from batch [i] on, entered below the budget:
    the counter ends at the budget or, if the epoch does not hold enough
    synchronising batches, short of it by what is missing. *)
Lemma batch_loop_budget (epoch : Z) (k i : nat) (st : LoopState) :
  (i + k = len)%nat ->
  step (accelerator st) = Z.of_nat i ->
  global_step st < budget ->
  exists t st',
    batch_loop (accelerate_accumulate gas) config env schedule epoch (seq i k) st =
      (t, Ok st') /\
    global_step st' = Z.min (global_step st + syncs gas len i k) budget /\
    ((0 < k)%nat -> global_step st + syncs gas len i k <= budget ->
     step (accelerator st') = 0) /\
    stops_at budget (batch_records t) (global_step st').
Proof.
  revert i st. induction k as [|k IH]; intros i st Hlen Hstep Hbelow.
  - exists [], st. cbn. split; [reflexivity|]. split; [lia|]. split; [lia|].
    unfold stops_at. replace (global_step st <? budget) with true
      by (symmetry; apply Z.ltb_lt; lia).
    constructor.
  - cbn [seq batch_loop].
    destruct (train_batch_returns (accelerate_accumulate gas) config env epoch i st
                Hsteps Hcad Hfmt) as [st1 Hst1].
    destruct (proj1 (train_batch_spec (accelerate_accumulate gas) config env epoch i st)
                st1 Hst1) as (Hacc & Hgs & Hrec).
    destruct (accelerate_accumulate_spec gas len i (accelerator st) Hstep)
      as [Hsync Hstep'].
    fold len in Hacc, Hgs, Hrec. rewrite Hsync in Hgs, Hrec. rewrite <- Hacc in Hstep'.
    destruct (train_batch (accelerate_accumulate gas) config env epoch i st)
      as [t1 r1]. cbn [fst snd] in *. subst r1.
    unfold mbind, traced_bind, tbind. cbn [syncs].
    pose proof (syncs_nonneg gas len (S i) k) as Hnonneg.
    fold budget.
    destruct (budget <=? global_step st1) eqn:Hbreak.
    + apply Z.leb_le in Hbreak.
      assert (Hs : sync_at gas len i = true)
        by (destruct (sync_at gas len i); [reflexivity | cbn in Hgs; lia]).
      rewrite Hs in *. cbn [Z.b2z] in *.
      exists (t1 ++ []), st1. split; [reflexivity|]. split; [lia|]. split.
      * intros _ Hle. destruct k as [|k].
        -- replace (S i =? len)%nat with true in Hstep'
             by (symmetry; apply Nat.eqb_eq; lia).
           exact Hstep'.
        -- pose proof (syncs_pos gas len (S i) (S k) ltac:(lia) ltac:(lia)). lia.
      * rewrite app_nil_r, Hrec. unfold stops_at.
        replace (global_step st1 <? budget) with false
          by (symmetry; apply Z.ltb_ge; lia).
        exists []. split; [|constructor]. cbn. repeat f_equal. lia.
    + apply Z.leb_gt in Hbreak.
      destruct k as [|k].
      * exists (t1 ++ []), st1. cbn [seq batch_loop syncs]. split; [reflexivity|].
        split; [lia|]. split.
        -- intros _ _. replace (S i =? len)%nat with true in Hstep'
             by (symmetry; apply Nat.eqb_eq; lia).
           exact Hstep'.
        -- rewrite app_nil_r, Hrec. unfold stops_at.
           replace (global_step st1 <? budget) with true
             by (symmetry; apply Z.ltb_lt; lia).
           repeat constructor. cbn. lia.
      * replace (S i =? len)%nat with false in Hstep'
          by (symmetry; apply Nat.eqb_neq; lia).
        destruct (IH (S i) st1 ltac:(lia) Hstep' Hbreak)
          as (t2 & st' & Hrun & Hfinal & Hreset & Hstops).
        rewrite Hrun. exists (t1 ++ t2), st'. split; [reflexivity|].
        split; [lia|]. split.
        -- intros _ Hle. apply Hreset; lia.
        -- rewrite batch_records_app, Hrec. unfold stops_at in *.
           destruct (global_step st' <? budget).
           ++ constructor; [cbn; lia | assumption].
           ++ destruct Hstops as (init & -> & Hinit).
              exists ((sync_at gas len i, global_step st1) :: init).
              split; [reflexivity|]. constructor; [cbn; lia | assumption].
Qed.

Hypothesis Hgas : 0 < gas.
Hypothesis Hlen : (0 < len)%nat.

Let per_epoch := syncs gas len 0 len.

(** The epochs that hold the budget between them: the counter ends on
    the budget, in the last of them. *)
Lemma epoch_loop_budget (epochs : list Z) (st : LoopState) :
  epochs <> [] ->
  step (accelerator st) = 0 ->
  global_step st + per_epoch * (Z.of_nat (length epochs) - 1) < budget ->
  budget <= global_step st + per_epoch * Z.of_nat (length epochs) ->
  exists t st',
    epoch_loop (accelerate_accumulate gas) config env schedule epochs st = (t, Ok st') /\
    global_step st' = budget /\
    stops_at budget (batch_records t) budget.
Proof.
  assert (Hper : 1 <= per_epoch) by (apply syncs_pos; lia).
  revert st. induction epochs as [|epoch rest IH]; intros st Hne Hstep Hlow Hhigh;
    [contradiction|].
  cbn [epoch_loop length] in *. rewrite Nat2Z.inj_succ in *.
  assert (Hbelow : global_step st < budget) by nia.
  destruct (batch_loop_budget epoch len 0 st ltac:(lia) Hstep Hbelow)
    as (t1 & st1 & Hrun & Hfinal & Hreset & Hstops).
  fold len. rewrite Hrun. fold per_epoch in Hfinal, Hreset.
  unfold mbind, traced_bind, tbind.
  pose proof (after_epoch_returns config env st1 Hcad Hfmt) as Hafter.
  pose proof (after_epoch_silent config env st1) as Hsilent.
  destruct (after_epoch config env st1) as [t2 r2]. cbn [fst snd] in *. subst r2.
  destruct rest as [|epoch' rest].
  - cbn [epoch_loop length] in *.
    exists (t1 ++ t2 ++ []), st1. split; [reflexivity|].
    assert (Hst1 : global_step st1 = budget) by lia.
    split; [exact Hst1|].
    rewrite !batch_records_app, Hsilent, !app_nil_r. now rewrite Hst1 in Hstops.
  - assert (Hst1 : global_step st1 = global_step st + per_epoch).
    { cbn [length] in *. rewrite Nat2Z.inj_succ in *. nia. }
    destruct (IH st1 ltac:(discriminate)) as (t3 & st' & Hrun' & Hfinal' & Hstops').
    + apply Hreset; [assumption|]. cbn [length] in *.
      rewrite Nat2Z.inj_succ in *. nia.
    + rewrite Hst1. cbn [length] in *. rewrite !Nat2Z.inj_succ in *. nia.
    + rewrite Hst1. cbn [length] in *. rewrite !Nat2Z.inj_succ in *. nia.
    + rewrite Hrun'. exists (t1 ++ t2 ++ t3), st'. split; [reflexivity|].
      split; [exact Hfinal'|].
      rewrite !batch_records_app, Hsilent. cbn [app].
      unfold stops_at in *. rewrite Z.ltb_irrefl in *.
      replace (global_step st1 <? budget) with true in Hstops
        by (symmetry; apply Z.ltb_lt; cbn [length] in *;
            rewrite !Nat2Z.inj_succ in *; nia).
      destruct Hstops' as (init & -> & Hinit).
      exists (batch_records t1 ++ init). split; [now rewrite app_assoc|].
      apply Forall_app. now split.
Qed.

End Budget.

Lemma epoch_range_length (schedule : Schedule) :
  0 <= num_train_epochs schedule ->
  Z.of_nat (length (epoch_range schedule)) = num_train_epochs schedule.
Proof.
  intros Hpos. unfold epoch_range. rewrite length_map, length_seq. lia.
Qed.

(** The schedule of lines 448-450 for a positive bound. *)
Lemma compute_schedule_positive (config : SdLoraConfig) (len : nat) :
  0 < gradient_accumulation_steps config < 2 ^ 53 ->
  (0 < len)%nat ->
  Z.of_nat len < 2 ^ 53 ->
  exactly_one_set (max_train_steps config) (max_train_epochs config) ->
  (forall s, max_train_steps config = Some s -> 0 < s) ->
  (forall e, max_train_epochs config = Some e -> 0 < e) ->
  step_budget config len < 2 ^ 53 ->
  let per_epoch := - ((- Z.of_nat len) / gradient_accumulation_steps config) in
  let budget := step_budget config len in
  compute_schedule config len =
    Ok {| num_steps_per_epoch := per_epoch; num_train_steps := budget;
          num_train_epochs := - ((- budget) / per_epoch) |} /\
  1 <= per_epoch /\ 0 < budget.
Proof.
  intros [Hgas Hgas'] Hlen Hlen' Hone Hs He Hsmall. cbn zeta.
  set (gas := gradient_accumulation_steps config) in *.
  set (per_epoch := - ((- Z.of_nat len) / gas)).
  assert (Hper : 1 <= per_epoch <= Z.of_nat len).
  { unfold per_epoch. rewrite ceil_div_pred by assumption.
    assert (0 <= (Z.of_nat len - 1) / gas) by (apply Z.div_pos; lia).
    assert ((Z.of_nat len - 1) / gas <= Z.of_nat len - 1)
      by (apply Z.div_le_upper_bound; nia).
    lia. }
  assert (Hbudget : steps_or_epochs config per_epoch = Ok (step_budget config len)
                    /\ 0 < step_budget config len).
  { unfold steps_or_epochs, step_budget. fold gas.
    rewrite <- (ceil_div_pos (Z.of_nat len) gas) by assumption. fold per_epoch.
    destruct Hone as [[[s Hsome] Hnone] | [Hnone [e Hsome]]].
    - rewrite Hsome. specialize (Hs s Hsome).
      replace (s =? 0) with false by (symmetry; apply Z.eqb_neq; lia).
      now split.
    - rewrite Hnone, Hsome. specialize (He e Hsome). split; [reflexivity | nia]. }
  destruct Hbudget as [Hsteps Hpos].
  split; [|split; [lia | assumption]].
  unfold compute_schedule. fold gas.
  rewrite (ceil_div_exact (Z.of_nat len) gas) by lia.
  cbn. fold per_epoch. rewrite Hsteps. cbn.
  rewrite (ceil_div_exact (step_budget config len) per_epoch) by lia.
  reflexivity.
Qed.

(** The training loop on its own, for a positive budget. *)
Lemma training_loop_budget (config : SdLoraConfig) (env : Environment) :
  0 < gradient_accumulation_steps config < 2 ^ 53 ->
  (0 < num_batches env)%nat ->
  Z.of_nat (num_batches env) < 2 ^ 53 ->
  prepared_num_batches env = num_batches env ->
  exactly_one_set (max_train_steps config) (max_train_epochs config) ->
  (forall s, max_train_steps config = Some s -> 0 < s) ->
  (forall e, max_train_epochs config = Some e -> 0 < e) ->
  step_budget config (num_batches env) < 2 ^ 53 ->
  cadences_nonzero config = true ->
  supported_checkpoint_format config = true ->
  steps_succeed env ->
  exists schedule t st,
    compute_schedule config (num_batches env) = Ok schedule /\
    num_train_steps schedule = step_budget config (num_batches env) /\
    training_loop (accelerate_accumulate (gradient_accumulation_steps config))
      config env schedule = (t, Ok st) /\
    global_step st = num_train_steps schedule /\
    stops_at (num_train_steps schedule) (batch_records t) (num_train_steps schedule).
Proof.
  intros Hgas Hlen Hlen' Hprep Hone Hs He Hsmall Hcad Hfmt Hsteps.
  destruct (compute_schedule_positive config (num_batches env) Hgas Hlen Hlen' Hone
              Hs He Hsmall)
    as (Hsched & Hper & Hbudget).
  eexists. rewrite Hsched.
  set (schedule := {| num_steps_per_epoch := _; num_train_steps := _;
                      num_train_epochs := _ |}).
  pose proof (ceil_div_bounds (step_budget config (num_batches env))
                (- ((- Z.of_nat (num_batches env)) / gradient_accumulation_steps config))
                ltac:(lia)) as Hceil.
  assert (Hepochs : 1 <= num_train_epochs schedule) by (cbn; nia).
  pose proof (epoch_range_length schedule ltac:(lia)) as Hrange.
  assert (Hsyncs : syncs (gradient_accumulation_steps config)
                     (prepared_num_batches env) 0 (prepared_num_batches env) =
                   num_steps_per_epoch schedule).
  { rewrite Hprep. apply syncs_epoch; [lia | assumption]. }
  destruct (epoch_loop_budget config env schedule Hsteps Hcad Hfmt
              ltac:(lia) (epoch_range schedule) initial_loop_state)
    as (t & st & Hrun & Hfinal & Hstops).
  - intros Hnil. rewrite Hnil in Hrange. cbn in Hrange. lia.
  - reflexivity.
  - rewrite Hsyncs, Hrange. cbn. nia.
  - rewrite Hsyncs, Hrange. cbn. nia.
  - exists t, st. repeat split; assumption.
Qed.


End TrainLoopFacts.

Section TrainLoopExampleFacts.

Import Train TrainExample.



Lemma global_step_counts_syncs_witness :
  exists st,
    (train ten_steps (single_process 10)).2 = Ok st /\
    global_step st = sync_count (batch_records (train ten_steps (single_process 10)).1).
Proof.
  assert (Hrun : exists st, (train ten_steps (single_process 10)).2 = Ok st)
    by (eexists; vm_compute; reflexivity).
  destruct Hrun as [st Hrun]. exists st. split; [exact Hrun|].
  destruct (global_step_counts_syncs
              (accelerate_accumulate (gradient_accumulation_steps ten_steps))
              ten_steps (single_process 10)
              {| num_steps_per_epoch := 5; num_train_steps := 10;
                 num_train_epochs := 2 |})
    as (_ & _ & _ & _ & _ & Hcount).
  exact (Hcount st Hrun).
Defined.

End TrainLoopExampleFacts.

(** * Further properties *)

(** ** The data loader: chain, batching, errors *)

Section TIDataLoaderMore.

Import TIDataLoader.

Implicit Types (config : TextualInversionSDDataLoaderConfig).

(** X1: the chain of a returned loader, in full: the caption transform
    first; then the caption shuffle, on the [caption] field with the
    configured delimiter, exactly when a delimiter is configured; then the
    image transform, or the cache load followed by the drop of [image]. *)
Theorem build_ti_dataloader_chain_order config (placeholder_token : string)
    (batch_size : Z) (vae_output_cache_dir : option string) (shuffle : bool)
    (dl : DataLoader) :
  (build_textual_inversion_sd_dataloader config placeholder_token batch_size
     vae_output_cache_dir shuffle).2 = Ok dl ->
  exists caption_tf,
    match caption_tf with
    | TemplateCaptionTransform field placeholder _ =>
        field = "caption" /\ placeholder = placeholder_token
    | CaptionPrefixTransform field prefix =>
        field = "caption" /\ prefix = placeholder_token +:+ " "
    | _ => False
    end /\
    transforms_of (dl_dataset dl) =
      [caption_tf]
      ++ match shuffle_caption_delimiter config with
         | Some delimiter => [ShuffleCaptionTransform "caption" delimiter]
         | None => []
         end
      ++ match vae_output_cache_dir with
         | None =>
             [SDImageTransform
                (match aspect_ratio_buckets config with
                 | Some _ => None
                 | None => Some (resolution config)
                 end)
                (build_aspect_ratio_bucket_manager <$> aspect_ratio_buckets config)
                (center_crop config) (random_flip config)]
         | Some dir =>
             [LoadCacheTransform (TensorDiskCache_new dir) "id" vae_cache_fields;
              DropFieldTransform "image"]
         end.
Proof.
  destruct config as [ds templates preset prefix buckets res delim cc rf nw].
  unfold build_textual_inversion_sd_dataloader, caption_source_count, build_caption_tf.
  cbn [caption_templates caption_preset apply_caption_prefix dataset
       aspect_ratio_buckets resolution center_crop random_flip
       shuffle_caption_delimiter].
  destruct ds; cbn; try discriminate;
    (destruct templates as [ts|], preset as [p|], prefix; cbn; try discriminate;
     try (destruct (get_preset_ti_caption_templates p) as [tpl|]; cbn; [|discriminate]);
     destruct buckets, delim, vae_output_cache_dir; cbn;
     intros ->%DataLoader_new_Ok; cbn;
     (eexists; split; [|reflexivity]; cbn; split; reflexivity)).
Qed.

(** X2: a returned loader is batched in exactly one of two ways.  Without
    aspect-ratio buckets it has the given batch size and shuffle flag and
    no batch sampler, and its image transform gets the fixed resolution.
    With buckets it has a batch sampler (over the base dataset, with the
    given batch size and shuffle flag and seed 0) and neither a batch size
    nor a shuffle flag of its own.  Workers persist exactly when there are
    any. *)
Theorem build_ti_dataloader_batching config (placeholder_token : string)
    (batch_size : Z) (vae_output_cache_dir : option string) (shuffle : bool)
    (dl : DataLoader) :
  (build_textual_inversion_sd_dataloader config placeholder_token batch_size
     vae_output_cache_dir shuffle).2 = Ok dl ->
  match aspect_ratio_buckets config with
  | None =>
      dl_batch_sampler dl = None /\
      dl_batch_size dl = Some batch_size /\ dl_shuffle dl = Some shuffle
  | Some buckets =>
      dl_batch_size dl = None /\ dl_shuffle dl = None /\
      exists base ts,
        dl_dataset dl = TransformDataset_new base ts /\
        dl_batch_sampler dl =
          Some {| bucket_manager := build_aspect_ratio_bucket_manager buckets;
                  image_sizes_of := base;
                  sampler_batch_size := batch_size;
                  sampler_shuffle := shuffle; seed := 0 |}
  end /\
  dl_num_workers dl = dataloader_num_workers config /\
  (dl_persistent_workers dl = true <-> 0 < dl_num_workers dl).
Proof.
  destruct config as [ds templates preset prefix buckets res delim cc rf nw].
  unfold build_textual_inversion_sd_dataloader, caption_source_count, build_caption_tf.
  cbn [caption_templates caption_preset apply_caption_prefix dataset
       aspect_ratio_buckets resolution center_crop random_flip
       shuffle_caption_delimiter dataloader_num_workers].
  destruct ds; cbn; try discriminate;
    (destruct templates as [ts|], preset as [p|], prefix; cbn; try discriminate;
     try (destruct (get_preset_ti_caption_templates p) as [tpl|]; cbn; [|discriminate]);
     destruct buckets, delim, vae_output_cache_dir; cbn;
     intros ->%DataLoader_new_Ok; cbn;
     (split; [|split; [reflexivity | apply Z.ltb_lt]]);
     repeat (split; [reflexivity|]); eauto).
Qed.

(** X3: the builder's errors, in the order it checks.  A dataset
    configuration of an unknown class is refused first, before anything is
    built, whatever else the configuration says.  With a known dataset and
    [caption_preset] the one caption source, a preset other than [object]
    and [style] is refused when the base dataset has been built and no
    transform yet. *)
Theorem build_ti_dataloader_errors config (placeholder_token : string)
    (batch_size : Z) (vae_output_cache_dir : option string) (shuffle : bool) :
  let run := build_textual_inversion_sd_dataloader config placeholder_token
               batch_size vae_output_cache_dir shuffle in
  (forall ty, dataset config = OtherDatasetConfig ty ->
     run = ([], Raise (ValueError ("Unexpected dataset config type: '" +:+ ty +:+ "'.")))) /\
  (forall preset,
     supported_dataset (dataset config) = true ->
     caption_source_count config = 1 ->
     caption_preset config = Some preset ->
     preset <> "object" -> preset <> "style" ->
     run.2 = Raise (ValueError ("Unrecognized learnable property type: '"
                                +:+ preset +:+ "'.")) /\
     exists d, run.1 = [EvBuildBaseDataset d]).
Proof.
  destruct config as [ds templates preset prefix buckets res delim cc rf nw].
  cbn zeta. unfold caption_source_count.
  cbn [caption_templates caption_preset apply_caption_prefix dataset]. split.
  - intros ty ->. reflexivity.
  - intros p Hds Hcount [= ->] Hobj Hstyle.
    apply sum_bools_three in Hcount.
    destruct templates as [ts|], prefix;
      try (destruct Hcount as [(? & ? & ?) | [(? & ? & ?) | (? & ? & ?)]]; discriminate).
    unfold build_textual_inversion_sd_dataloader, caption_source_count,
      build_caption_tf, get_preset_ti_caption_templates.
    cbn [caption_templates caption_preset apply_caption_prefix dataset].
    rewrite (eqb_neq_false _ _ Hobj), (eqb_neq_false _ _ Hstyle).
    destruct ds; try discriminate; cbn; eauto.
Qed.

(** X4: the cache directory decides nothing but the end of the chain.
    Whether the builder returns or raises, and what it raises, does not
    depend on it; two loaders built from one configuration with different
    cache directories (or none) have the same base dataset, caption
    transforms, batching and workers. *)
Theorem build_ti_dataloader_cache_dir_frame config (placeholder_token : string)
    (batch_size : Z) (shuffle : bool) (dir1 dir2 : option string) :
  let run1 := build_textual_inversion_sd_dataloader config placeholder_token
                batch_size dir1 shuffle in
  let run2 := build_textual_inversion_sd_dataloader config placeholder_token
                batch_size dir2 shuffle in
  (forall e, run1.2 = Raise e <-> run2.2 = Raise e) /\
  (forall dl1 dl2, run1.2 = Ok dl1 -> run2.2 = Ok dl2 ->
     dl_shuffle dl1 = dl_shuffle dl2 /\
     dl_batch_sampler dl1 = dl_batch_sampler dl2 /\
     dl_batch_size dl1 = dl_batch_size dl2 /\
     dl_num_workers dl1 = dl_num_workers dl2 /\
     dl_persistent_workers dl1 = dl_persistent_workers dl2 /\
     exists base caption_tfs tail1 tail2,
       dl_dataset dl1 = TransformDataset_new base (caption_tfs ++ tail1) /\
       dl_dataset dl2 = TransformDataset_new base (caption_tfs ++ tail2) /\
       forallb is_caption_transform caption_tfs = true /\
       existsb is_caption_transform tail1 = false /\
       existsb is_caption_transform tail2 = false).
Proof.
  destruct config as [ds templates preset prefix buckets res delim cc rf nw].
  cbn zeta.
  unfold build_textual_inversion_sd_dataloader, caption_source_count, build_caption_tf.
  cbn [caption_templates caption_preset apply_caption_prefix dataset
       aspect_ratio_buckets resolution center_crop random_flip
       shuffle_caption_delimiter dataloader_num_workers].
  destruct ds; cbn; try (split; [tauto | discriminate]);
    (destruct templates as [ts|], preset as [p|], prefix; cbn;
     try (split; [tauto | discriminate]);
     try (destruct (get_preset_ti_caption_templates p) as [tpl|]; cbn;
          [|split; [tauto | discriminate]]);
     destruct buckets, delim, dir1, dir2; cbn;
     (split; [intros e; apply DataLoader_new_dataset|]);
     intros dl1 dl2 ->%DataLoader_new_Ok ->%DataLoader_new_Ok; cbn;
     repeat (split; [reflexivity|]);
     first [ eexists _, [_], _, _; repeat (split; [reflexivity|]); reflexivity
           | eexists _, [_; _], _, _; repeat (split; [reflexivity|]); reflexivity ]).
Qed.

End TIDataLoaderMore.

(** ** The forward pass: cached fields, missing fields, the scheduler *)

Section ForwardMore.

Import Forward.

Context {R G : Type} `{Scalar R} `{Library R G}.

Implicit Types (st : state R G) (config : ForwardConfig)
  (data_batch : gmap string (value R)) (vae : AutoencoderKL R G)
  (tokenizer : CLIPTokenizer) (text_encoder : CLIPTextModel R)
  (unet : UNet2DConditionModel R) (weight_dtype : dtype)
  (min_snr_gamma : option R).

Lemma get_latents_cached data_batch vae weight_dtype (v : value R) :
  data_batch !! "vae_output" = Some v ->
  get_latents data_batch vae weight_dtype = slift (as_tensor "vae_output" v).
Proof. intros Hv. unfold get_latents. now rewrite Hv. Qed.

Lemma get_latents_agree (b1 b2 : gmap string (value R)) vae weight_dtype :
  b1 !! "vae_output" = b2 !! "vae_output" -> b1 !! "image" = b2 !! "image" ->
  get_latents b1 vae weight_dtype = get_latents b2 vae weight_dtype.
Proof. intros Hv Hi. unfold get_latents, getitem. now rewrite Hv, Hi. Qed.

Lemma get_encoder_hidden_states_cached data_batch tokenizer text_encoder
    weight_dtype (v : value R) :
  data_batch !! "text_encoder_output" = Some v ->
  get_encoder_hidden_states (G:=G) data_batch tokenizer text_encoder weight_dtype =
  slift (as_tensor "text_encoder_output" v).
Proof. intros Hv. unfold get_encoder_hidden_states. now rewrite Hv. Qed.

Lemma get_encoder_hidden_states_agree (b1 b2 : gmap string (value R)) tokenizer
    text_encoder weight_dtype :
  b1 !! "text_encoder_output" = b2 !! "text_encoder_output" ->
  b1 !! "caption" = b2 !! "caption" ->
  get_encoder_hidden_states (G:=G) b1 tokenizer text_encoder weight_dtype =
  get_encoder_hidden_states b2 tokenizer text_encoder weight_dtype.
Proof. intros Hv Hc. unfold get_encoder_hidden_states, getitem. now rewrite Hv, Hc. Qed.

Lemma reduce_loss_agree (b1 b2 : gmap string (value R)) (model_pred target : tensor R)
    (w : option (vec R)) :
  b1 !! "loss_weight" = b2 !! "loss_weight" ->
  reduce_loss b1 model_pred target w = reduce_loss b2 model_pred target w.
Proof. intros Hw. unfold reduce_loss, per_example_loss. now rewrite Hw. Qed.

(** The forward pass sees the batch and the encoders only through the
    latents, the conditioning and the loss weights. *)
Lemma train_forward_ext config (b1 b2 : gmap string (value R))
    (vae1 vae2 : AutoencoderKL R G) (tokenizer1 tokenizer2 : CLIPTokenizer)
    (text_encoder1 text_encoder2 : CLIPTextModel R) unet weight_dtype min_snr_gamma st :
  get_latents b1 vae1 weight_dtype = get_latents b2 vae2 weight_dtype ->
  get_encoder_hidden_states (G:=G) b1 tokenizer1 text_encoder1 weight_dtype =
    get_encoder_hidden_states b2 tokenizer2 text_encoder2 weight_dtype ->
  b1 !! "loss_weight" = b2 !! "loss_weight" ->
  train_forward config b1 vae1 tokenizer1 text_encoder1 unet weight_dtype
    min_snr_gamma st =
  train_forward config b2 vae2 tokenizer2 text_encoder2 unet weight_dtype
    min_snr_gamma st.
Proof.
  intros Hlat Hehs Hw. unfold train_forward. rewrite !sbind_eq.
  rewrite !forward_locals_unfold, Hlat, Hehs.
  destruct (get_latents b2 vae2 weight_dtype st) as [[lat|e] st1]; [|reflexivity].
  destruct (randn_like lat (generator st1)) as [nz g2].
  destruct (randint 0 (num_train_timesteps (noise_scheduler st1)) (length lat) g2)
    as [ts g3].
  cbn zeta.
  destruct (get_encoder_hidden_states b2 tokenizer2 text_encoder2 weight_dtype _).1
    as [ehs|e]; [|reflexivity].
  destruct (select_target config lat nz ts _) as [[tg|e] st4]; [|reflexivity].
  destruct (compute_min_snr_weights ts min_snr_gamma st4) as [[w|e] st5];
    [|reflexivity].
  unfold slift. cbn. now rewrite (reduce_loss_agree b1 b2 _ _ _ Hw).
Qed.

(** X5: a batch that carries [vae_output] bypasses the VAE: loss and
    state after the call are the same for any two VAEs, and whatever the
    batches hold (or lack) under [image], as long as they agree on the
    cached latents, the conditioning fields and the loss weights. *)
Theorem train_forward_cached_latents config (b1 b2 : gmap string (value R))
    (v : value R) (vae1 vae2 : AutoencoderKL R G) tokenizer text_encoder unet
    weight_dtype min_snr_gamma st :
  b1 !! "vae_output" = Some v -> b2 !! "vae_output" = Some v ->
  b1 !! "text_encoder_output" = b2 !! "text_encoder_output" ->
  b1 !! "caption" = b2 !! "caption" ->
  b1 !! "loss_weight" = b2 !! "loss_weight" ->
  train_forward config b1 vae1 tokenizer text_encoder unet weight_dtype
    min_snr_gamma st =
  train_forward config b2 vae2 tokenizer text_encoder unet weight_dtype
    min_snr_gamma st.
Proof.
  intros Hv1 Hv2 Hte Hc Hw. apply train_forward_ext; [| |assumption].
  - now rewrite (get_latents_cached b1 _ _ v Hv1), (get_latents_cached b2 _ _ v Hv2).
  - now apply get_encoder_hidden_states_agree.
Qed.

(** X6: a batch that carries [text_encoder_output] bypasses tokenizer
    and text encoder: loss and state after the call are the same for any
    two tokenizers and text encoders, and whatever the batches hold (or
    lack) under [caption]. *)
Theorem train_forward_cached_conditioning config (b1 b2 : gmap string (value R))
    (v : value R) vae (tokenizer1 tokenizer2 : CLIPTokenizer)
    (text_encoder1 text_encoder2 : CLIPTextModel R) unet weight_dtype
    min_snr_gamma st :
  b1 !! "text_encoder_output" = Some v -> b2 !! "text_encoder_output" = Some v ->
  b1 !! "vae_output" = b2 !! "vae_output" ->
  b1 !! "image" = b2 !! "image" ->
  b1 !! "loss_weight" = b2 !! "loss_weight" ->
  train_forward config b1 vae tokenizer1 text_encoder1 unet weight_dtype
    min_snr_gamma st =
  train_forward config b2 vae tokenizer2 text_encoder2 unet weight_dtype
    min_snr_gamma st.
Proof.
  intros Hv1 Hv2 Hvae Hi Hw. apply train_forward_ext; [| |assumption].
  - now apply get_latents_agree.
  - now rewrite (get_encoder_hidden_states_cached b1 _ _ _ v Hv1),
      (get_encoder_hidden_states_cached b2 _ _ _ v Hv2).
Qed.

(** X7: the forward pass reads five fields of the batch and no other:
    setting or overwriting any other field (the sample ids, the crop
    metadata) changes neither the loss nor the state after the call. *)
Theorem train_forward_ignores_other_fields config data_batch (key : string)
    (v : value R) vae tokenizer text_encoder unet weight_dtype min_snr_gamma st :
  key ∉ ["vae_output"; "image"; "text_encoder_output"; "caption"; "loss_weight"] ->
  train_forward config (<[key := v]> data_batch) vae tokenizer text_encoder unet
    weight_dtype min_snr_gamma st =
  train_forward config data_batch vae tokenizer text_encoder unet weight_dtype
    min_snr_gamma st.
Proof.
  intros Hkey.
  assert (Hne : forall k, k ∈ ["vae_output"; "image"; "text_encoder_output";
                               "caption"; "loss_weight"] ->
                          (<[key := v]> data_batch) !! k = data_batch !! k).
  { intros k Hk. apply lookup_insert_ne. intros ->. contradiction. }
  apply train_forward_ext.
  - apply get_latents_agree; apply Hne; set_solver.
  - apply get_encoder_hidden_states_agree; apply Hne; set_solver.
  - apply Hne. set_solver.
Qed.

(** X8: a batch with neither [vae_output] nor [image] fails with
    [KeyError: 'image'] at once: nothing has been drawn from the generator
    and the scheduler has not been written to. *)
Theorem train_forward_missing_image config data_batch vae tokenizer text_encoder
    unet weight_dtype min_snr_gamma st :
  data_batch !! "vae_output" = None -> data_batch !! "image" = None ->
  train_forward config data_batch vae tokenizer text_encoder unet weight_dtype
    min_snr_gamma st = (Raise (KeyError "image"), st).
Proof.
  intros Hv Hi. unfold train_forward. rewrite sbind_eq, forward_locals_unfold.
  unfold get_latents, getitem. rewrite Hv, Hi. reflexivity.
Qed.

(** X9: a batch whose latents can be had but which has neither
    [text_encoder_output] nor [caption] fails with [KeyError: 'caption'];
    the scheduler is as it was, also when the configuration sets a
    prediction type, since registering it comes later. *)
Theorem train_forward_missing_caption config data_batch vae tokenizer text_encoder
    unet weight_dtype min_snr_gamma st :
  is_ok (get_latents data_batch vae weight_dtype st).1 = true ->
  data_batch !! "text_encoder_output" = None -> data_batch !! "caption" = None ->
  let run := train_forward config data_batch vae tokenizer text_encoder unet
               weight_dtype min_snr_gamma st in
  run.1 = Raise (KeyError "caption") /\
  noise_scheduler run.2 = noise_scheduler st.
Proof.
  intros Hlat Hte Hc. cbn zeta. unfold train_forward.
  rewrite sbind_eq, forward_locals_unfold.
  pose proof (get_latents_scheduler data_batch vae weight_dtype st) as Hsch.
  destruct (get_latents data_batch vae weight_dtype st) as [[lat|e] st1];
    [|discriminate].
  cbn in Hsch.
  destruct (randn_like lat (generator st1)) as [nz g2].
  destruct (randint 0 (num_train_timesteps (noise_scheduler st1)) (length lat) g2)
    as [ts g3].
  cbn zeta. unfold get_encoder_hidden_states, getitem. rewrite Hte, Hc. cbn.
  now split.
Qed.

(** X10: once a call has returned a loss, the scheduler is settled: any
    later call with the same configuration, on whatever batch and models,
    leaves the scheduler exactly as that call left it. *)
Theorem train_forward_scheduler_settled config
    (b1 b2 : gmap string (value R)) (vae1 vae2 : AutoencoderKL R G)
    (tokenizer1 tokenizer2 : CLIPTokenizer)
    (text_encoder1 text_encoder2 : CLIPTextModel R)
    (unet1 unet2 : UNet2DConditionModel R) (dtype1 dtype2 : dtype)
    (gamma1 gamma2 : option R) st (loss : R) st1 :
  train_forward config b1 vae1 tokenizer1 text_encoder1 unet1 dtype1 gamma1 st =
    (Ok loss, st1) ->
  noise_scheduler
    (train_forward config b2 vae2 tokenizer2 text_encoder2 unet2 dtype2 gamma2 st1).2 =
  noise_scheduler st1.
Proof.
  intros Hrun.
  assert (Hst1 : noise_scheduler st1 = noise_scheduler (registered config st)).
  { unfold train_forward in Hrun. rewrite sbind_eq in Hrun.
    destruct (forward_locals config b1 vae1 tokenizer1 text_encoder1 unet1 dtype1
                gamma1 st) as [[l|e] st'] eqn:Hloc; [|discriminate].
    assert (st' = st1) as -> by (unfold slift in Hrun; congruence).
    apply forward_locals_Ok in Hloc as (st0 & _ & _ & _ & _ & _ & _ & Hreg & _).
    rewrite Hreg. unfold registered. now destruct (config_prediction_type config). }
  rewrite train_forward_state.
  destruct (proj1 (forward_locals_scheduler config b2 vae2 tokenizer2 text_encoder2
                     unet2 dtype2 gamma2 st1)) as [Hsame | Hreg];
    [exact Hsame|].
  rewrite Hreg. unfold registered in *.
  destruct (config_prediction_type config) as [p|]; [|reflexivity].
  cbn. rewrite Hst1. reflexivity.
Qed.

End ForwardMore.

(** ** The training run: what happens, and when *)

Section TrainMore.

Import Train TrainEvents.

Lemma phase_ret {A} Pev Pexn (a : A) : phase Pev Pexn (tret a).
Proof. split; [intros ev Hev; inversion Hev | discriminate]. Qed.

Lemma phase_emit Pev Pexn (ev : event) : Pev ev -> phase Pev Pexn (emit ev).
Proof.
  intros Hev. split; [|discriminate].
  intros ev' Hin. cbn in Hin. apply list_elem_of_singleton in Hin. now subst.
Qed.

Lemma phase_raise {A} Pev (Pexn : exception -> Prop) (e : exception) :
  Pexn e -> phase Pev Pexn (@traise event A e).
Proof. intros He. split; [intros ev Hev; inversion Hev | now intros e' [= <-]]. Qed.

Lemma phase_tlift {A} Pev (Pexn : exception -> Prop) (r : result A) :
  (forall e, r = Raise e -> Pexn e) -> phase Pev Pexn (@tlift event A r).
Proof. intros He. split; [intros ev Hev; inversion Hev | exact He]. Qed.

Lemma phase_bind {A B} Pev Pexn (m : traced event A) (f : A -> traced event B) :
  phase Pev Pexn m -> (forall a, m.2 = Ok a -> phase Pev Pexn (f a)) ->
  phase Pev Pexn (m ≫= f).
Proof.
  intros [Hm1 Hm2] Hf. unfold phase, mbind, traced_bind, tbind.
  destruct m as [t [a|e]]; cbn [fst snd] in *;
    [|split; [assumption | intros e0 [= <-]; now apply Hm2]].
  destruct (Hf a eq_refl) as [Hf1 Hf2]. destruct (f a) as [t' r]; cbn [fst snd] in *.
  split; [|assumption].
  intros ev [Hin|Hin]%elem_of_app; auto.
Qed.

Lemma phase_when Pev Pexn (b : bool) (m : traced event unit) :
  (b = true -> phase Pev Pexn m) -> phase Pev Pexn (when b m).
Proof. destruct b; [auto | intros _; apply phase_ret]. Qed.

Section Guarded.

Variable config : SdLoraConfig.
Variable env : Environment.

Ltac guard_solve :=
  split;
  [ cbn;
    repeat match goal with H : _ = _ |- _ => rewrite H end;
    first [ reflexivity | apply bool_decide_eq_true_2; reflexivity ]
  | first [ exact I | assumption ] ].

Ltac guard_steps :=
  repeat first
    [ apply phase_ret
    | apply phase_raise; exact I
    | apply phase_tlift; intros; exact I
    | apply phase_bind; [|intros ? ?]
    | apply phase_when; intros ?
    | apply phase_emit ].

Lemma start_up_guarded :
  phase (guarded config env) any_exception (start_up config).
Proof.
  unfold start_up. destruct (seed config) as [s|] eqn:Hseed; guard_steps;
    guard_solve.
Qed.

Lemma build_data_loader_guarded :
  phase (guarded config env) any_exception
    (_build_data_loader (data_loader config)).
Proof.
  unfold _build_data_loader.
  destruct (String.eqb _ _); [apply phase_emit; guard_solve|].
  destruct (String.eqb _ _); [apply phase_emit; guard_solve|].
  now apply phase_raise.
Qed.

Lemma prepare_text_encoder_cache_guarded :
  phase (guarded config env) any_exception
    (prepare_text_encoder_cache config env).
Proof.
  unfold prepare_text_encoder_cache, cache_text_encoder_outputs_job.
  destruct (cache_text_encoder_outputs config) eqn:Hcache; [|apply phase_ret].
  destruct (train_text_encoder config) eqn:Htrain.
  - apply phase_bind; [now apply phase_raise | intros ? [=]].
  - apply phase_bind; [apply phase_ret | intros _ _].
    apply phase_when. intros Hmain.
    apply phase_bind; [apply build_data_loader_guarded | intros _ _].
    apply phase_emit. guard_solve.
Qed.

Lemma prepare_vae_cache_guarded :
  phase (guarded config env) any_exception (prepare_vae_cache config env).
Proof.
  unfold prepare_vae_cache, cache_vae_outputs_job.
  destruct (cache_vae_outputs config) eqn:Hcache; [|apply phase_ret].
  destruct (random_flip (data_loader config)) eqn:Hflip.
  { apply phase_bind; [now apply phase_raise | intros ? [=]]. }
  apply phase_bind; [apply phase_ret | intros _ _].
  destruct (center_crop (data_loader config)) eqn:Hcrop; cbn [negb].
  - apply phase_bind; [apply phase_ret | intros _ _].
    apply phase_when. intros Hmain.
    apply phase_bind; [apply build_data_loader_guarded | intros _ _].
    apply phase_emit. guard_solve.
  - apply phase_bind; [now apply phase_raise | intros ? [=]].
Qed.

Lemma build_trainables_guarded :
  phase (guarded config env) any_exception (build_trainables config).
Proof.
  unfold build_trainables.
  apply phase_bind; [apply phase_when; intros Hu; apply phase_emit; guard_solve
                    | intros _ _].
  apply phase_bind; [apply phase_when; intros Ht; apply phase_emit; guard_solve
                    | intros _ _].
  apply phase_bind; [apply phase_when; intros Hg; apply phase_emit; guard_solve
                    | intros _ _].
  apply phase_bind; [apply phase_emit; guard_solve | intros _ _].
  apply build_data_loader_guarded.
Qed.

Lemma check_exactly_one_guarded :
  phase (guarded config env) any_exception (check_exactly_one config).
Proof.
  unfold check_exactly_one, assert.
  repeat (apply phase_bind; [|intros ? ?]);
    match goal with |- phase _ _ (if ?b then _ else _) => destruct b end;
    first [apply phase_ret | now apply phase_raise].
Qed.

Lemma set_up_guarded :
  phase (guarded config env) any_exception (set_up config env).
Proof.
  unfold set_up, before_asserts.
  apply phase_bind; [|intros _ _; apply check_exactly_one_guarded].
  apply phase_bind; [apply start_up_guarded | intros _ _].
  apply phase_bind; [apply prepare_text_encoder_cache_guarded | intros _ _].
  apply phase_bind; [apply prepare_vae_cache_guarded | intros _ _].
  apply build_trainables_guarded.
Qed.

Lemma is_multiple_true (cadence : option Z) (x : Z) :
  is_multiple cadence x = Ok true -> on_cadence cadence x.
Proof.
  unfold is_multiple, on_cadence. destruct cadence as [n|]; [|discriminate].
  destruct (n =? 0) eqn:Hn; [discriminate|]. intros [= Hmod].
  exists n. repeat split; [now apply Z.eqb_neq | now apply Z.eqb_eq].
Qed.

Lemma save_checkpoint_guarded (epochs steps : Z) :
  on_cadence (save_every_n_steps config) steps
  \/ on_cadence (save_every_n_epochs config) epochs ->
  phase (guarded config env) any_exception
    (save_checkpoint config env epochs steps).
Proof.
  intros Hdue. unfold save_checkpoint. apply phase_when. intros Hmain.
  destruct (String.eqb (lora_checkpoint_format config) "invoke_peft") eqn:Hpeft.
  { apply phase_emit. split; [|exact Hdue].
    cbn. unfold supported_checkpoint_format. now rewrite Hmain, Hpeft. }
  destruct (String.eqb (lora_checkpoint_format config) "kohya") eqn:Hkohya.
  { apply phase_emit. split; [|exact Hdue].
    cbn. unfold supported_checkpoint_format. now rewrite Hmain, Hpeft, Hkohya. }
  now apply phase_raise.
Qed.

Lemma validate_guarded (epochs steps : Z) :
  has_prompts config = true ->
  on_cadence (validate_every_n_steps config) steps
  \/ on_cadence (validate_every_n_epochs config) epochs ->
  phase (guarded config env) any_exception
    (validate env epochs steps).
Proof.
  intros Hprompts Hdue. unfold validate. apply phase_when. intros Hmain.
  apply phase_emit. split; [|exact Hdue].
  cbn. unfold has_prompts in Hprompts. now rewrite Hmain, Hprompts.
Qed.

Lemma on_sync_guarded (epoch : Z) (idx : nat) (st : LoopState) :
  phase (guarded config env) any_exception
    (on_sync config env epoch idx st).
Proof.
  unfold on_sync.
  apply phase_bind; [apply phase_emit; guard_solve | intros _ _].
  apply phase_bind; [apply phase_tlift; intros; exact I | intros due1 Hdue1].
  apply phase_bind.
  { apply phase_when. intros ->. apply save_checkpoint_guarded.
    left. now apply is_multiple_true. }
  intros _ _.
  apply phase_bind; [apply phase_tlift; intros; exact I | intros due2 Hdue2].
  apply phase_bind; [|intros _ _; apply phase_ret].
  apply phase_when. intros [-> Hp]%andb_true_iff. apply validate_guarded; [exact Hp|].
  left. now apply is_multiple_true.
Qed.

Lemma after_epoch_guarded (st : LoopState) :
  phase (guarded config env) any_exception
    (after_epoch config env st).
Proof.
  unfold after_epoch.
  apply phase_bind; [apply phase_tlift; intros; exact I | intros due1 Hdue1].
  apply phase_bind.
  { apply phase_when. intros ->. apply save_checkpoint_guarded.
    right. now apply is_multiple_true. }
  intros _ _.
  apply phase_bind; [apply phase_tlift; intros; exact I | intros due2 Hdue2].
  apply phase_when. intros [-> Hp]%andb_true_iff. apply validate_guarded; [exact Hp|].
  right. now apply is_multiple_true.
Qed.

Variable accumulate : bool -> Accelerator -> Accelerator.
Variable schedule : Schedule.

Lemma train_batch_guarded (epoch : Z) (idx : nat) (st : LoopState) :
  phase (guarded config env) any_exception
    (train_batch accumulate config env epoch idx st).
Proof.
  unfold train_batch.
  apply phase_bind; [apply phase_tlift; intros; exact I | intros _ _].
  apply phase_bind; [apply phase_emit; guard_solve | intros _ _].
  apply phase_bind.
  { match goal with |- phase _ _ (if ?b then _ else _) => destruct b end;
      [apply on_sync_guarded | apply phase_ret]. }
  intros st' _.
  apply phase_bind; [apply phase_emit; guard_solve | intros _ _; apply phase_ret].
Qed.

Lemma batch_loop_guarded (epoch : Z) (batches : list nat) (st : LoopState) :
  phase (guarded config env) any_exception
    (batch_loop accumulate config env schedule epoch batches st).
Proof.
  revert st. induction batches as [|idx rest IH]; intros st; [apply phase_ret|].
  cbn [batch_loop]. apply phase_bind; [apply train_batch_guarded | intros st1 _].
  destruct (num_train_steps schedule <=? global_step st1); [apply phase_ret | apply IH].
Qed.

Lemma epoch_loop_guarded (epochs : list Z) (st : LoopState) :
  phase (guarded config env) any_exception
    (epoch_loop accumulate config env schedule epochs st).
Proof.
  revert st. induction epochs as [|epoch rest IH]; intros st; [apply phase_ret|].
  cbn [epoch_loop]. apply phase_bind; [apply batch_loop_guarded | intros st1 _].
  apply phase_bind; [apply after_epoch_guarded | intros _ _; apply IH].
Qed.

End Guarded.

(** Every event of a run is permitted and on schedule. *)
Lemma train_guarded (config : SdLoraConfig) (env : Environment) (ev : event) :
  ev ∈ (train config env).1 ->
  permitted config env ev = true /\ on_schedule config ev.
Proof.
  revert ev.
  assert (Hphase : phase (fun ev => permitted config env ev = true
                                    /\ on_schedule config ev)
                     (fun _ => True) (train config env)); [|exact (proj1 Hphase)].
  unfold train.
  apply phase_bind; [apply set_up_guarded | intros _ _].
  apply phase_bind; [apply phase_tlift; intros; exact I | intros schedule _].
  apply phase_bind; [apply phase_emit; now split | intros _ _].
  apply phase_bind; [apply phase_emit; now split | intros _ _].
  apply phase_bind.
  { apply phase_when. intros Hmain. apply phase_emit. split; [exact Hmain | exact I]. }
  intros _ _.
  apply phase_bind; [apply epoch_loop_guarded | intros st _].
  apply phase_bind; [apply phase_emit; now split | intros _ _; apply phase_ret].
Qed.

(** X11: nothing happens in a run that the configuration and the
    process's rank do not allow.  An encoder output cache is filled only
    when that cache is configured, its preconditions hold and the process
    is the local main one; trackers are initialised, checkpoints saved and
    validation images generated on the main process only; a checkpoint is
    saved only in a supported format, validation runs only when there are
    prompts, LoRA layers go only into a model that is trained, and the seed
    set is the configured one. *)
Theorem train_events_permitted (config : SdLoraConfig) (env : Environment) :
  Forall (fun ev => permitted config env ev = true) (train config env).1.
Proof.
  apply Forall_forall. intros ev Hev. exact (proj1 (train_guarded config env ev Hev)).
Qed.

(** X12: every checkpoint and every validation of a run comes on one of
    its cadences: the number of completed steps is a multiple of the
    every-n-steps setting, or the number of completed epochs a multiple of
    the every-n-epochs setting, and that setting is present and not zero. *)
Theorem train_events_on_schedule (config : SdLoraConfig) (env : Environment) :
  Forall (on_schedule config) (train config env).1.
Proof.
  apply Forall_forall. intros ev Hev. exact (proj2 (train_guarded config env ev Hev)).
Qed.

Ltac phase_compute :=
  cbn; split;
  [ let ev := fresh "ev" in
    let Hin := fresh "Hin" in
    intros ev Hin;
    repeat (apply elem_of_cons in Hin as [->|Hin]; [reflexivity|]);
    now apply elem_of_nil in Hin
  | let e := fresh "e" in
    intros e; try discriminate; intros [= <-]; eexists; reflexivity ].

Lemma start_up_Ok (config : SdLoraConfig) :
  exists t, start_up config = (t, Ok tt) /\
            Forall (fun ev => before_vae_cache ev = true /\ uses_data_loader ev = false) t.
Proof.
  unfold start_up. destruct (seed config), (xformers config); cbn;
    eexists; (split; [reflexivity|]); repeat constructor.
Qed.

Lemma prepare_text_encoder_cache_before_vae_cache config env :
  phase (fun ev => before_vae_cache ev = true) is_ValueError
    (prepare_text_encoder_cache config env).
Proof.
  unfold prepare_text_encoder_cache, cache_text_encoder_outputs_job, _build_data_loader.
  destruct (cache_text_encoder_outputs config), (train_text_encoder config),
    (is_local_main_process env);
    repeat match goal with
           | |- context [if String.eqb ?a ?b then _ else _] => destruct (String.eqb a b)
           end;
    phase_compute.
Qed.

Lemma prepare_vae_cache_refuses config env :
  cache_vae_outputs config = true ->
  random_flip (data_loader config) = true \/ center_crop (data_loader config) = false ->
  prepare_vae_cache config env =
    ([], Raise (ValueError
                  (if random_flip (data_loader config)
                   then "'cache_vae_outputs' cannot be True if 'random_flip' is True."
                   else "'cache_vae_outputs' cannot be True if 'center_crop' is False."))).
Proof.
  intros Hcache Hbad. unfold prepare_vae_cache. rewrite Hcache.
  destruct (random_flip (data_loader config)); [reflexivity|].
  destruct Hbad as [Hflip | ->]; [discriminate | reflexivity].
Qed.

(** X13: a run that is to cache the VAE's outputs while the data loader
    flips images at random, or does not crop them at the centre, is refused
    with a [ValueError].  By then nothing beyond start-up, model loading and
    the text encoder cache has happened: no VAE output is computed or
    cached, no optimizer made, no step trained.  Unless the text encoder
    cache has failed before, the error names the flip when both are wrong,
    since the flip is checked first. *)
Theorem train_vae_cache_requirements (config : SdLoraConfig) (env : Environment) :
  cache_vae_outputs config = true ->
  random_flip (data_loader config) = true \/ center_crop (data_loader config) = false ->
  let run := train config env in
  (exists msg, run.2 = Raise (ValueError msg)) /\
  (forall ev, ev ∈ run.1 -> before_vae_cache ev = true) /\
  (is_ok (prepare_text_encoder_cache config env).2 = true ->
   run.2 = Raise (ValueError
                    (if random_flip (data_loader config)
                     then "'cache_vae_outputs' cannot be True if 'random_flip' is True."
                     else "'cache_vae_outputs' cannot be True if 'center_crop' is False."))).
Proof.
  intros Hcache Hbad. cbn zeta.
  destruct (start_up_Ok config) as (t0 & Hstart & Ht0).
  pose proof (prepare_text_encoder_cache_before_vae_cache config env) as [Ht1 He1].
  pose proof (prepare_vae_cache_refuses config env Hcache Hbad) as Hvae.
  unfold train, set_up, before_asserts. rewrite Hstart, Hvae.
  destruct (prepare_text_encoder_cache config env) as [t1 [[]|e1]];
    cbn [fst snd] in *; cbn.
  - split; [eauto|]. split; [|reflexivity].
    intros ev Hin. rewrite app_nil_r in Hin.
    apply elem_of_app in Hin as [Hin|Hin]; [|now apply Ht1].
    rewrite Forall_forall in Ht0. now apply Ht0.
  - destruct (He1 e1 eq_refl) as [msg ->].
    split; [eauto|]. split; [|discriminate].
    intros ev Hin.
    apply elem_of_app in Hin as [Hin|Hin]; [|now apply Ht1].
    rewrite Forall_forall in Ht0. now apply Ht0.
Qed.

Lemma build_data_loader_unsupported config :
  supported_data_loader config = false ->
  _build_data_loader (data_loader config) =
    ([], Raise (ValueError ("Unsupported data loader config type: '"
                            +:+ type (data_loader config) +:+ "'."))).
Proof.
  unfold supported_data_loader, _build_data_loader.
  intros [-> ->]%orb_false_iff. reflexivity.
Qed.

Ltac quiet_trace :=
  let ev := fresh "ev" in
  let Hin := fresh "Hin" in
  intros ev Hin;
  repeat (apply elem_of_cons in Hin as [->|Hin]; [reflexivity|]);
  now apply elem_of_nil in Hin.

(** With an unsupported loader type, each cache phase passes or fails in
    silence, and making the trainables fails. *)
Lemma prepare_text_encoder_cache_unsupported config env :
  supported_data_loader config = false ->
  prepare_text_encoder_cache config env = ([], Ok tt) \/
  exists msg, prepare_text_encoder_cache config env = ([], Raise (ValueError msg)).
Proof.
  intros Hloader%build_data_loader_unsupported.
  unfold prepare_text_encoder_cache, cache_text_encoder_outputs_job.
  rewrite Hloader.
  destruct (cache_text_encoder_outputs config), (train_text_encoder config),
    (is_local_main_process env); cbn; eauto.
Qed.

Lemma prepare_vae_cache_unsupported config env :
  supported_data_loader config = false ->
  prepare_vae_cache config env = ([], Ok tt) \/
  exists msg, prepare_vae_cache config env = ([], Raise (ValueError msg)).
Proof.
  intros Hloader%build_data_loader_unsupported.
  unfold prepare_vae_cache, cache_vae_outputs_job.
  rewrite Hloader.
  destruct (cache_vae_outputs config), (random_flip (data_loader config)),
    (center_crop (data_loader config)), (is_local_main_process env); cbn; eauto.
Qed.

Lemma build_trainables_unsupported config :
  supported_data_loader config = false ->
  exists t msg,
    build_trainables config = (t, Raise (ValueError msg)) /\
    forall ev, ev ∈ t -> uses_data_loader ev = false.
Proof.
  intros Hloader%build_data_loader_unsupported.
  unfold build_trainables. rewrite Hloader.
  destruct (train_unet config), (train_text_encoder config),
    (gradient_checkpointing config); cbn;
    eexists _, _; (split; [reflexivity | quiet_trace]).
Qed.

Lemma before_asserts_unsupported config env :
  supported_data_loader config = false ->
  exists t msg,
    before_asserts config env = (t, Raise (ValueError msg)) /\
    forall ev, ev ∈ t -> uses_data_loader ev = false.
Proof.
  intros Hunsupported. unfold before_asserts.
  destruct (start_up_Ok config) as (t0 & -> & Ht0).
  rewrite Forall_forall in Ht0.
  destruct (build_trainables_unsupported config Hunsupported)
    as (t3 & msg3 & -> & Ht3).
  destruct (prepare_text_encoder_cache_unsupported config env Hunsupported)
    as [-> | [msg1 ->]];
    [|exists (t0 ++ []), msg1; split;
      [reflexivity
      |intros ev [Hin|Hin]%elem_of_app;
       [now apply Ht0 | now apply elem_of_nil in Hin]]].
  destruct (prepare_vae_cache_unsupported config env Hunsupported)
    as [-> | [msg2 ->]]; cbn.
  - exists (t0 ++ t3), msg3. split; [reflexivity|].
    intros ev [Hin|Hin]%elem_of_app; [now apply Ht0 | now apply Ht3].
  - exists (t0 ++ []), msg2. split; [reflexivity|].
    intros ev [Hin|Hin]%elem_of_app; [now apply Ht0 | now apply elem_of_nil in Hin].
Qed.

(** X14: a data loader configuration of a type other than the two
    supported ones makes the run fail with a [ValueError], and no data
    loader is built or used: nothing is cached and no step is trained.
    With neither cache configured, the failure is the unsupported-type
    error, and it comes late: the models are loaded and the optimizer made
    before the type is looked at. *)
Theorem train_unsupported_data_loader (config : SdLoraConfig) (env : Environment) :
  supported_data_loader config = false ->
  let run := train config env in
  (exists msg, run.2 = Raise (ValueError msg)) /\
  (forall ev, ev ∈ run.1 -> uses_data_loader ev = false) /\
  (cache_text_encoder_outputs config = false -> cache_vae_outputs config = false ->
   run.2 = Raise (ValueError ("Unsupported data loader config type: '"
                              +:+ type (data_loader config) +:+ "'.")) /\
   EvLoadModels ∈ run.1 /\ EvInitOptimizer ∈ run.1).
Proof.
  intros Hunsupported. cbn zeta.
  destruct (before_asserts_unsupported config env Hunsupported)
    as (t & msg & Hbefore & Hquiet).
  assert (Hrun : train config env = (t, Raise (ValueError msg))).
  { unfold train, set_up. now rewrite Hbefore. }
  rewrite Hrun. cbn [fst snd]. split; [eauto|]. split; [exact Hquiet|].
  intros Hte Hvae. revert Hbefore.
  unfold before_asserts, start_up, prepare_text_encoder_cache, prepare_vae_cache,
    build_trainables.
  rewrite Hte, Hvae, (build_data_loader_unsupported config Hunsupported).
  destruct (seed config), (xformers config), (train_unet config),
    (train_text_encoder config), (gradient_checkpointing config); cbn;
    intros [= <- <-];
    (split; [reflexivity|];
     split; repeat first [apply list_elem_of_here | apply list_elem_of_further]).
Qed.

Lemma train_after_set_up config env t :
  set_up config env = (t, Ok tt) ->
  forall e, compute_schedule config (num_batches env) = Raise e ->
            train config env = (t, Raise e).
Proof.
  intros Hset e Hschedule. unfold train. rewrite Hset, Hschedule. cbn.
  now rewrite app_nil_r.
Qed.

Lemma set_up_max_train config env t :
  set_up config env = (t, Ok tt) ->
  exactly_one_set (max_train_steps config) (max_train_epochs config).
Proof.
  intros Hset%set_up_Ok. now apply check_exactly_one_Ok in Hset as [Hone _].
Qed.

(** X15: [max_train_steps = 0] does not mean no training: the [or] of
    line 449 takes a zero for unset and turns to [max_train_epochs], which a
    configuration that has passed the assertions has left unset.  The run
    fails with a [TypeError] once the set-up is through, before the
    scheduler is made and before any step. *)
Theorem train_zero_max_train_steps (config : SdLoraConfig) (env : Environment)
    (t : list event) :
  set_up config env = (t, Ok tt) ->
  max_train_steps config = Some 0 ->
  gradient_accumulation_steps config <> 0 ->
  train config env =
    (t, Raise (TypeError "unsupported operand type(s) for *: 'NoneType' and 'int'")).
Proof.
  intros Hset Hsteps Hgas. apply train_after_set_up; [assumption|].
  pose proof (set_up_max_train _ _ _ Hset) as [[_ Hnone] | [Hnone _]];
    [|congruence].
  unfold compute_schedule, ceil_div, steps_or_epochs.
  apply Z.eqb_neq in Hgas. rewrite Hgas, Hsteps, Hnone. reflexivity.
Qed.

(** X16: with [gradient_accumulation_steps = 0], or with a data loader
    of no batches (and [max_train_steps] not zero), a run whose set-up is
    through fails with a [ZeroDivisionError] in the step arithmetic of
    lines 448-450, before the scheduler is made and before any step. *)
Theorem train_division_by_zero (config : SdLoraConfig) (env : Environment)
    (t : list event) :
  set_up config env = (t, Ok tt) ->
  gradient_accumulation_steps config = 0
  \/ (num_batches env = 0%nat /\ max_train_steps config <> Some 0) ->
  train config env = (t, Raise ZeroDivisionError).
Proof.
  intros Hset Hzero. apply train_after_set_up; [assumption|].
  unfold compute_schedule, ceil_div.
  destruct (gradient_accumulation_steps config =? 0) eqn:Hgas; [reflexivity|].
  destruct Hzero as [Hzero | [Hlen Hsteps]];
    [apply Z.eqb_neq in Hgas; contradiction|].
  rewrite Hlen. cbn [Z.of_nat]. rewrite true_div_ceil_zero.
  unfold steps_or_epochs.
  pose proof (set_up_max_train _ _ _ Hset) as [[[s Hs] Hnone] | [Hnone [e He]]].
  - rewrite Hs. destruct (s =? 0) eqn:Hs0;
      [apply Z.eqb_eq in Hs0; congruence|]. reflexivity.
  - rewrite Hnone, He. reflexivity.
Qed.

(** X17: the epochs planned hold the step budget, and no epoch is
    planned in vain.  With a positive accumulation count, a data loader
    that is not empty, one positive bound and all counts below [2 ^ 53]
    (where the float quotients of lines 448 and 450 have the ceilings of the
    exact ones), the schedule of lines 448-450 exists; its steps fit into
    its epochs and would not fit into one epoch less.  A bound in steps is
    taken as it is; a bound of [e] epochs plans [e] epochs, of
    [ceil(len / gradient_accumulation_steps)] steps each. *)
Theorem compute_schedule_epochs_hold_steps (config : SdLoraConfig) (len : nat) :
  0 < gradient_accumulation_steps config < 2 ^ 53 ->
  (0 < len)%nat ->
  Z.of_nat len < 2 ^ 53 ->
  exactly_one_set (max_train_steps config) (max_train_epochs config) ->
  (forall s, max_train_steps config = Some s -> 0 < s) ->
  (forall e, max_train_epochs config = Some e -> 0 < e) ->
  step_budget config len < 2 ^ 53 ->
  exists schedule,
    compute_schedule config len = Ok schedule /\
    num_steps_per_epoch schedule * (num_train_epochs schedule - 1)
      < num_train_steps schedule
      <= num_steps_per_epoch schedule * num_train_epochs schedule /\
    (forall s, max_train_steps config = Some s -> num_train_steps schedule = s) /\
    (forall e, max_train_epochs config = Some e ->
       num_train_epochs schedule = e /\
       num_train_steps schedule = e * num_steps_per_epoch schedule /\
       gradient_accumulation_steps config * (num_steps_per_epoch schedule - 1)
         < Z.of_nat len
         <= gradient_accumulation_steps config * num_steps_per_epoch schedule).
Proof.
  intros Hgas Hlen Hlen' Hone Hs He Hsmall.
  destruct (compute_schedule_positive config len Hgas Hlen Hlen' Hone Hs He Hsmall)
    as (Hschedule & Hper & Hbudget).
  eexists. split; [exact Hschedule|]. cbn [num_steps_per_epoch num_train_steps
                                            num_train_epochs].
  set (per_epoch := - (- Z.of_nat len / gradient_accumulation_steps config)) in *.
  split; [apply ceil_div_bounds; lia|]. split.
  - intros s Hsome. unfold step_budget. now rewrite Hsome.
  - intros e Hsome.
    assert (Hsteps : step_budget config len = e * per_epoch).
    { unfold step_budget. destruct Hone as [[_ Hnone] | [Hnone _]];
        [congruence|].
      rewrite Hnone, Hsome. unfold per_epoch.
      now rewrite ceil_div_pos by lia. }
    rewrite Hsteps. split; [|split; [reflexivity|]].
    + rewrite <- Z.mul_opp_l, Z.div_mul by lia. lia.
    + apply ceil_div_bounds. lia.
Qed.

(** Beyond [2 ^ 53] the epochs planned need not hold the steps: with a
    bound of [2 ^ 53 + 1] steps, one to the epoch, line 450 plans [2 ^ 53]
    epochs, the float nearest to the quotient. *)
Lemma compute_schedule_float_rounding :
  compute_schedule
    (TrainExample.with_max_train_steps (2 ^ 53 + 1) TrainExample.ten_steps) 2 =
  Ok {| num_steps_per_epoch := 1; num_train_steps := 2 ^ 53 + 1;
        num_train_epochs := 2 ^ 53 |}.
Proof. vm_compute. reflexivity. Qed.

End TrainMore.

(** ** The caches: what is cached is what the forward pass computes *)

Section CachingMore.

Import Forward Caching.

Context {R G : Type} `{Scalar R} `{Library R G}.

Implicit Types (st : state R G) (config : ForwardConfig)
  (vae : AutoencoderKL R G)
  (tokenizer : CLIPTokenizer) (text_encoder : CLIPTextModel R)
  (unet : UNet2DConditionModel R) (weight_dtype : dtype)
  (min_snr_gamma : option R).

(** Two calls that get the same latents, are left in the same state by
    getting them, and get the same conditioning and loss weights, agree. *)
Lemma train_forward_from_latents config (b1 b2 : gmap string (value R))
    (vae1 vae2 : AutoencoderKL R G) (tokenizer1 tokenizer2 : CLIPTokenizer)
    (text_encoder1 text_encoder2 : CLIPTextModel R) unet weight_dtype min_snr_gamma
    st1 st2 :
  get_latents b1 vae1 weight_dtype st1 = get_latents b2 vae2 weight_dtype st2 ->
  (forall st,
     (get_encoder_hidden_states b1 tokenizer1 text_encoder1 weight_dtype st).1 =
     (get_encoder_hidden_states b2 tokenizer2 text_encoder2 weight_dtype st).1) ->
  b1 !! "loss_weight" = b2 !! "loss_weight" ->
  train_forward config b1 vae1 tokenizer1 text_encoder1 unet weight_dtype
    min_snr_gamma st1 =
  train_forward config b2 vae2 tokenizer2 text_encoder2 unet weight_dtype
    min_snr_gamma st2.
Proof.
  intros Hlat Hehs Hw. unfold train_forward. rewrite !sbind_eq.
  rewrite !forward_locals_unfold, Hlat.
  destruct (get_latents b2 vae2 weight_dtype st2) as [[lat|e] st']; [|reflexivity].
  destruct (randn_like lat (generator st')) as [nz g2].
  destruct (randint 0 (num_train_timesteps (noise_scheduler st')) (length lat) g2)
    as [ts g3].
  cbn zeta. rewrite Hehs.
  destruct (get_encoder_hidden_states b2 tokenizer2 text_encoder2 weight_dtype _).1
    as [ehs|e]; [|reflexivity].
  destruct (select_target config lat nz ts _) as [[tg|e] st4]; [|reflexivity].
  destruct (compute_min_snr_weights ts min_snr_gamma st4) as [[w|e] st5];
    [|reflexivity].
  unfold slift. cbn. now rewrite (reduce_loss_agree b1 b2 _ _ _ Hw).
Qed.

(** X18: training on cached VAE outputs is training on the images.  Let
    the cache pass compute the latents of a batch with a VAE of the
    training dtype.  A forward pass on the batch with these latents under
    [vae_output], from the generator as the cache pass left it, returns the
    loss and leaves the state that the forward pass on the batch without
    them returns and leaves from the generator as it was before; the VAE
    and the [image] field of the cached batch play no part. *)
Theorem train_forward_on_cached_vae_outputs config
    (data_batch cached : gmap string (value R)) (vae vae' : AutoencoderKL R G)
    tokenizer text_encoder unet weight_dtype min_snr_gamma st
    (latents : tensor R) st1 :
  cache_vae_outputs_latents data_batch vae weight_dtype st = (Ok latents, st1) ->
  data_batch !! "vae_output" = None ->
  cached !! "vae_output" = Some (VTensor latents) ->
  cached !! "text_encoder_output" = data_batch !! "text_encoder_output" ->
  cached !! "caption" = data_batch !! "caption" ->
  cached !! "loss_weight" = data_batch !! "loss_weight" ->
  train_forward config cached vae' tokenizer text_encoder unet weight_dtype
    min_snr_gamma st1 =
  train_forward config data_batch vae tokenizer text_encoder unet weight_dtype
    min_snr_gamma st.
Proof.
  intros Hcache Hnone Hcached Hte Hc Hw.
  apply train_forward_from_latents; [| |assumption].
  - unfold get_latents. rewrite Hcached, Hnone.
    fold (cache_vae_outputs_latents data_batch vae weight_dtype).
    now rewrite Hcache.
  - intros st'. unfold get_encoder_hidden_states, getitem. now rewrite Hte, Hc.
Qed.

(** X19: training on cached text encoder outputs is training on the
    captions, as long as casting the encoder's output to the training dtype
    changes nothing: the cache pass stores the output as the encoder gives
    it, where the forward pass casts it.  Then a forward pass on the batch
    with the cached output under [text_encoder_output] returns the loss and
    leaves the state of the forward pass on the batch without it; the
    tokenizer, the text encoder and the [caption] field of the cached batch
    play no part. *)
Theorem train_forward_on_cached_text_encoder_outputs config
    (data_batch cached : gmap string (value R)) vae
    (tokenizer tokenizer' : CLIPTokenizer)
    (text_encoder text_encoder' : CLIPTextModel R) unet weight_dtype
    min_snr_gamma st (output : tensor R) :
  cache_text_encoder_outputs_batch data_batch tokenizer text_encoder = Ok output ->
  tensor_to weight_dtype output = output ->
  data_batch !! "text_encoder_output" = None ->
  cached !! "text_encoder_output" = Some (VTensor output) ->
  cached !! "vae_output" = data_batch !! "vae_output" ->
  cached !! "image" = data_batch !! "image" ->
  cached !! "loss_weight" = data_batch !! "loss_weight" ->
  train_forward config cached vae tokenizer' text_encoder' unet weight_dtype
    min_snr_gamma st =
  train_forward config data_batch vae tokenizer text_encoder unet weight_dtype
    min_snr_gamma st.
Proof.
  intros Hcache Hcast Hnone Hcached Hvae Hi Hw.
  apply train_forward_from_latents; [| |assumption].
  - unfold get_latents, getitem. now rewrite Hvae, Hi.
  - intros st'. unfold get_encoder_hidden_states. rewrite Hcached, Hnone.
    unfold cache_text_encoder_outputs_batch in Hcache.
    rewrite sbind_eq. unfold slift.
    destruct (getitem data_batch "caption" ≫= as_captions "caption")
      as [captions|e]; [|discriminate].
    cbn in Hcache. injection Hcache as <-. cbn. now rewrite Hcast.
Qed.

End CachingMore.

(** ** Saving a checkpoint *)

Section CheckpointMore.

Import Checkpoint.

Context {Model Callback : Type}.

Variable on_save_checkpoint : Callback -> TrainingCheckpoint -> result unit.

Implicit Types (callbacks : list Callback) (checkpoint : TrainingCheckpoint)
  (checkpoint_tracker : CheckpointTracker) (unet text_encoder : option Model).

Lemma notified_notifications callbacks checkpoint :
  omap notified (map (fun cb => @EvOnSaveCheckpoint Model Callback cb checkpoint)
                   callbacks) =
  map (fun cb => (cb, checkpoint)) callbacks.
Proof. induction callbacks as [|cb rest IH]; [reflexivity|]. cbn. now rewrite IH. Qed.

(** Callbacks that all return are all called, in order. *)
Lemma notify_all callbacks checkpoint :
  (forall cb, cb ∈ callbacks -> on_save_checkpoint cb checkpoint = Ok tt) ->
  notify (Model:=Model) on_save_checkpoint callbacks checkpoint =
    (map (fun cb => EvOnSaveCheckpoint cb checkpoint) callbacks, Ok tt).
Proof.
  induction callbacks as [|cb rest IH]; intros Hok; [reflexivity|].
  cbn [notify]. rewrite (Hok cb) by apply list_elem_of_here.
  rewrite IH by (intros cb' Hin; apply Hok; now apply list_elem_of_further).
  reflexivity.
Qed.

(** The first callback to raise is the last one called. *)
Lemma notify_until_raise (before after : list Callback) (cb : Callback) checkpoint
    (e : exception) :
  (forall cb', cb' ∈ before -> on_save_checkpoint cb' checkpoint = Ok tt) ->
  on_save_checkpoint cb checkpoint = Raise e ->
  notify (Model:=Model) on_save_checkpoint (before ++ cb :: after) checkpoint =
    (map (fun cb => EvOnSaveCheckpoint cb checkpoint) (before ++ [cb]), Raise e).
Proof.
  intros Hok Hraise. induction before as [|cb0 rest IH]; cbn [app notify].
  - rewrite Hraise. reflexivity.
  - rewrite (Hok cb0) by apply list_elem_of_here.
    rewrite IH by (intros cb' Hin; apply Hok; now apply list_elem_of_further).
    reflexivity.
Qed.

(** X20: an unsupported checkpoint format is found out late.  The
    function fails with the [ValueError] that names the format; by then the
    tracker has been asked to prune old checkpoints, and nothing has been
    written in their place and no callback called. *)
Theorem save_checkpoint_unsupported_format (epoch step : Z) unet text_encoder
    checkpoint_tracker (lora_checkpoint_format : string)
    (callbacks : option (list Callback)) :
  lora_checkpoint_format <> "invoke_peft" ->
  lora_checkpoint_format <> "kohya" ->
  let run := _save_sd_lora_checkpoint on_save_checkpoint epoch step unet
               text_encoder checkpoint_tracker lora_checkpoint_format callbacks in
  run.2 = Raise (unsupported_format lora_checkpoint_format) /\
  (exists rest, run.1 = EvPrune 1 :: rest) /\
  omap saved run.1 = [] /\
  omap notified run.1 = [].
Proof.
  intros Hpeft%eqb_neq_false Hkohya%eqb_neq_false. cbn zeta.
  unfold _save_sd_lora_checkpoint. rewrite Hpeft, Hkohya.
  destruct (0 <? prune checkpoint_tracker 1); cbn; eauto 6.
Qed.

(** X21: with a supported format, the checkpoint is written once, to the
    path the tracker gives for the epoch and step, in the format asked for;
    then the callbacks are called in the order of the list, each with that
    path, the model type of the format, the epoch and the step.  If all
    return, all are called and the function returns; the first one to raise
    is the last one called, and its exception is the function's: the
    callbacks after it never learn of a checkpoint that is on disk. *)
Theorem save_checkpoint_notifies_callbacks (epoch step : Z) unet text_encoder
    checkpoint_tracker (lora_checkpoint_format : string) callbacks
    (type : ModelType) :
  model_type_of lora_checkpoint_format = Some type ->
  let run := _save_sd_lora_checkpoint on_save_checkpoint epoch step unet
               text_encoder checkpoint_tracker lora_checkpoint_format
               (Some callbacks) in
  let save_path := get_path checkpoint_tracker epoch step in
  let checkpoint :=
    {| models := [{| file_path := save_path; model_type := type |}];
       epoch := epoch; step := step |} in
  omap saved run.1 = [(save_path, type)] /\
  ((forall cb, cb ∈ callbacks -> on_save_checkpoint cb checkpoint = Ok tt) ->
   run.2 = Ok tt /\
   omap notified run.1 = map (fun cb => (cb, checkpoint)) callbacks) /\
  (forall before cb after e,
     callbacks = before ++ cb :: after ->
     (forall cb', cb' ∈ before -> on_save_checkpoint cb' checkpoint = Ok tt) ->
     on_save_checkpoint cb checkpoint = Raise e ->
     run.2 = Raise e /\
     omap notified run.1 = map (fun cb => (cb, checkpoint)) (before ++ [cb])).
Proof.
  intros Htype. cbn zeta. unfold model_type_of in Htype.
  unfold _save_sd_lora_checkpoint.
  set (save_path := get_path checkpoint_tracker epoch step).
  set (checkpoint := {| models := [{| file_path := save_path; model_type := type |}];
                        epoch := epoch; step := step |}).
  assert (Hsaved : forall t : list (@event Model Callback),
            (notify on_save_checkpoint callbacks checkpoint).1 = t ->
            omap saved t = []).
  { intros t <-. clear Htype.
    induction callbacks as [|cb rest IH]; [reflexivity|].
    cbn [notify]. destruct (on_save_checkpoint cb checkpoint) as [[]|e]; cbn.
    - destruct (notify on_save_checkpoint rest checkpoint) as [t r]. exact IH.
    - reflexivity. }
  assert (Hrun :
    forall prefix : list (@event Model Callback),
      omap saved prefix = [(save_path, type)] -> omap notified prefix = [] ->
      let run := (prefix ++ (notify on_save_checkpoint callbacks checkpoint).1,
                  (notify (Model:=Model) on_save_checkpoint callbacks checkpoint).2) in
      omap saved run.1 = [(save_path, type)] /\
      ((forall cb, cb ∈ callbacks -> on_save_checkpoint cb checkpoint = Ok tt) ->
       run.2 = Ok tt /\
       omap notified run.1 = map (fun cb => (cb, checkpoint)) callbacks) /\
      (forall before cb after e,
         callbacks = before ++ cb :: after ->
         (forall cb', cb' ∈ before -> on_save_checkpoint cb' checkpoint = Ok tt) ->
         on_save_checkpoint cb checkpoint = Raise e ->
         run.2 = Raise e /\
         omap notified run.1 = map (fun cb => (cb, checkpoint)) (before ++ [cb]))).
  { intros prefix Hprefix Hquiet. cbn zeta. cbn [fst snd]. split; [|split].
    - rewrite omap_app, Hprefix, (Hsaved _ eq_refl). reflexivity.
    - intros Hok. rewrite (notify_all _ _ Hok). cbn [fst snd].
      now rewrite omap_app, Hquiet, notified_notifications.
    - intros before cb after e -> Hok Hraise.
      rewrite (notify_until_raise _ _ _ _ _ Hok Hraise). cbn [fst snd].
      now rewrite omap_app, Hquiet, notified_notifications. }
  destruct (String.eqb lora_checkpoint_format "invoke_peft");
    [|destruct (String.eqb lora_checkpoint_format "kohya"); [|discriminate]];
    injection Htype as <-;
    destruct (0 <? prune checkpoint_tracker 1); cbn;
    fold save_path; fold checkpoint;
    destruct (notify on_save_checkpoint callbacks checkpoint) as [t r] eqn:Hnotify;
    match goal with
    | |- context [(?a :: ?b :: ?c :: t, r)] => apply (Hrun [a; b; c]); reflexivity
    | |- context [(?a :: ?b :: t, r)] => apply (Hrun [a; b]); reflexivity
    end.
Qed.

End CheckpointMore.

(** ** The further properties, on runs *)

Section TIDataLoaderCaseFacts.

Import TIDataLoader TIDataLoaderExample TIDataLoaderCases.

(** A prefixed, shuffled, cached chain. *)
Lemma build_ti_dataloader_chain_order_witness :
  exists dl caption_tf,
    (build_textual_inversion_sd_dataloader bucketed_prefix "sks" 4 (Some "/cache")
       true).2 = Ok dl /\
    transforms_of (dl_dataset dl) =
      [caption_tf; ShuffleCaptionTransform "caption" ",";
       LoadCacheTransform (TensorDiskCache_new "/cache") "id" vae_cache_fields;
       DropFieldTransform "image"].
Proof.
  assert (Hrun : exists dl,
            (build_textual_inversion_sd_dataloader bucketed_prefix "sks" 4
               (Some "/cache") true).2 = Ok dl)
    by (eexists; vm_compute; reflexivity).
  destruct Hrun as [dl Hrun].
  destruct (build_ti_dataloader_chain_order bucketed_prefix "sks" 4 (Some "/cache")
              true dl Hrun) as (caption_tf & _ & Hchain).
  exists dl, caption_tf. split; [exact Hrun | exact Hchain].
Defined.

(** A bucketed loader with four workers. *)
Lemma build_ti_dataloader_batching_witness :
  exists dl,
    (build_textual_inversion_sd_dataloader bucketed_prefix "sks" 4 None true).2 = Ok dl /\
    dl_batch_size dl = None /\ dl_shuffle dl = None /\
    dl_persistent_workers dl = true.
Proof.
  assert (Hrun : exists dl,
            (build_textual_inversion_sd_dataloader bucketed_prefix "sks" 4 None
               true).2 = Ok dl)
    by (eexists; vm_compute; reflexivity).
  destruct Hrun as [dl Hrun].
  destruct (build_ti_dataloader_batching bucketed_prefix "sks" 4 None true dl Hrun)
    as (Hbatch & Hworkers & Hpersist).
  cbn in Hbatch. destruct Hbatch as (Hsize & Hshuffle & _).
  exists dl. repeat (split; [assumption|]).
  apply Hpersist. rewrite Hworkers. reflexivity.
Defined.

(** An unknown preset, and an unknown dataset class. *)
Lemma build_ti_dataloader_errors_witness :
  (build_textual_inversion_sd_dataloader unknown_preset "sks" 4 None true).2 =
    Raise (ValueError "Unrecognized learnable property type: 'animal'.") /\
  build_textual_inversion_sd_dataloader unknown_dataset "sks" 4 None true =
    ([], Raise (ValueError
                  "Unexpected dataset config type: 'ImagePairPreferenceDatasetConfig'.")).
Proof.
  split.
  - destruct (proj2 (build_ti_dataloader_errors unknown_preset "sks" 4 None true)
                "animal") as [Hraise _];
      [reflexivity | reflexivity | reflexivity | discriminate | discriminate
      | exact Hraise].
  - apply (proj1 (build_ti_dataloader_errors unknown_dataset "sks" 4 None true)
             "ImagePairPreferenceDatasetConfig").
    reflexivity.
Defined.

(** One configuration, with and without a cache directory. *)
Lemma build_ti_dataloader_cache_dir_frame_witness :
  exists dl1 dl2,
    (build_textual_inversion_sd_dataloader preset_config "sks" 4 None true).2 = Ok dl1 /\
    (build_textual_inversion_sd_dataloader preset_config "sks" 4 (Some "/cache")
       true).2 = Ok dl2 /\
    dl_batch_size dl1 = dl_batch_size dl2 /\
    dl_shuffle dl1 = dl_shuffle dl2.
Proof.
  assert (Hrun1 : exists dl,
            (build_textual_inversion_sd_dataloader preset_config "sks" 4 None
               true).2 = Ok dl)
    by (eexists; vm_compute; reflexivity).
  assert (Hrun2 : exists dl,
            (build_textual_inversion_sd_dataloader preset_config "sks" 4
               (Some "/cache") true).2 = Ok dl)
    by (eexists; vm_compute; reflexivity).
  destruct Hrun1 as [dl1 Hrun1], Hrun2 as [dl2 Hrun2].
  destruct (proj2 (build_ti_dataloader_cache_dir_frame preset_config "sks" 4 true
                     None (Some "/cache")) dl1 dl2 Hrun1 Hrun2)
    as (Hshuffle & _ & Hsize & _).
  exists dl1, dl2. repeat (split; [assumption|]). assumption.
Defined.

End TIDataLoaderCaseFacts.

Section ForwardCaseFacts.

Import Forward ForwardExample ForwardCases Caching.

(** Cached latents: another VAE and a stray [image] change nothing. *)
Lemma train_forward_cached_latents_witness :
  train_forward no_override cached_batch_with_image other_vae tokenizer text_encoder
    unet float32 None initial_state =
  train_forward no_override cached_batch vae tokenizer text_encoder unet float32
    None initial_state.
Proof.
  apply (train_forward_cached_latents no_override cached_batch_with_image
           cached_batch cached_latents other_vae vae);
    vm_compute; reflexivity.
Defined.

(** Cached conditioning: another tokenizer and text encoder and stray
    captions change nothing. *)
Lemma train_forward_cached_conditioning_witness :
  train_forward no_override cached_batch_with_caption vae other_tokenizer
    other_text_encoder unet float32 None initial_state =
  train_forward no_override cached_batch vae tokenizer text_encoder unet float32
    None initial_state.
Proof.
  apply (train_forward_cached_conditioning no_override cached_batch_with_caption
           cached_batch cached_conditioning vae other_tokenizer tokenizer
           other_text_encoder text_encoder);
    vm_compute; reflexivity.
Defined.

(** The sample ids are not read. *)
Lemma train_forward_ignores_other_fields_witness :
  train_forward no_override raw_batch_with_id vae tokenizer text_encoder unet float32
    None initial_state =
  train_forward no_override raw_batch vae tokenizer text_encoder unet float32 None
    initial_state.
Proof.
  apply (train_forward_ignores_other_fields no_override raw_batch "id"
           (VCaptions ["7"; "8"])).
  intros Hin.
  repeat (apply elem_of_cons in Hin as [Hin|Hin]; [discriminate|]).
  now apply elem_of_nil in Hin.
Defined.

(** Captions without images. *)
Lemma train_forward_missing_image_witness :
  train_forward no_override captions_only vae tokenizer text_encoder unet float32
    None initial_state = (Raise (KeyError "image"), initial_state).
Proof.
  apply (train_forward_missing_image no_override captions_only); vm_compute; reflexivity.
Defined.

(** Images without captions, and a prediction type to register. *)
Lemma train_forward_missing_caption_witness :
  (train_forward v_override images_only vae tokenizer text_encoder unet float32 None
     initial_state).1 = Raise (KeyError "caption") /\
  noise_scheduler
    (train_forward v_override images_only vae tokenizer text_encoder unet float32 None
       initial_state).2 = noise_scheduler initial_state.
Proof.
  apply (train_forward_missing_caption v_override images_only vae tokenizer
           text_encoder unet float32 None initial_state);
    vm_compute; reflexivity.
Defined.

(** A second call after a first that registered [v_prediction]. *)
Lemma train_forward_scheduler_settled_witness :
  exists loss st1,
    train_forward v_override cached_batch vae tokenizer text_encoder unet float32 None
      initial_state = (Ok loss, st1) /\
    noise_scheduler
      (train_forward v_override raw_batch other_vae other_tokenizer other_text_encoder
         unet bfloat16 (Some 5%Q) st1).2 = noise_scheduler st1.
Proof.
  assert (Hrun : exists loss st1,
            train_forward v_override cached_batch vae tokenizer text_encoder unet
              float32 None initial_state = (Ok loss, st1))
    by (eexists _, _; vm_compute; reflexivity).
  destruct Hrun as (loss & st1 & Hrun). exists loss, st1. split; [exact Hrun|].
  exact (train_forward_scheduler_settled v_override cached_batch raw_batch vae
           other_vae tokenizer other_tokenizer text_encoder other_text_encoder unet
           unet float32 bfloat16 None (Some 5%Q) initial_state loss st1 Hrun).
Defined.

(** The latents of the cache pass, fed back. *)
Lemma train_forward_on_cached_vae_outputs_witness :
  train_forward no_override raw_batch_with_latents other_vae tokenizer text_encoder
    unet float32 None after_encoding =
  train_forward no_override raw_batch vae tokenizer text_encoder unet float32 None
    initial_state.
Proof.
  apply (train_forward_on_cached_vae_outputs no_override raw_batch
           raw_batch_with_latents vae other_vae tokenizer text_encoder unet float32
           None initial_state encoded_latents after_encoding);
    vm_compute; reflexivity.
Defined.

(** The conditioning of the cache pass, fed back. *)
Lemma train_forward_on_cached_text_encoder_outputs_witness :
  train_forward no_override raw_batch_with_conditioning vae other_tokenizer
    other_text_encoder unet float32 None initial_state =
  train_forward no_override raw_batch vae tokenizer text_encoder unet float32 None
    initial_state.
Proof.
  apply (train_forward_on_cached_text_encoder_outputs no_override raw_batch
           raw_batch_with_conditioning vae tokenizer other_tokenizer text_encoder
           other_text_encoder unet float32 None initial_state encoded_captions);
    vm_compute; reflexivity.
Defined.

End ForwardCaseFacts.

Section TrainCaseFacts.

Import Train TrainExample TrainCases TrainEvents.

(** Flipping and not cropping: the flip is named. *)
Lemma train_vae_cache_requirements_witness :
  (train vae_cache_with_flip (single_process 4)).2 =
  Raise (ValueError "'cache_vae_outputs' cannot be True if 'random_flip' is True.").
Proof.
  destruct (train_vae_cache_requirements vae_cache_with_flip (single_process 4)
              eq_refl (or_introl eq_refl)) as (_ & _ & Hmsg).
  apply Hmsg. reflexivity.
Defined.

(** The textual-inversion loader in the LoRA pipeline. *)
Lemma train_unsupported_data_loader_witness :
  (train textual_inversion_loader (single_process 4)).2 =
    Raise (ValueError
             "Unsupported data loader config type: 'TEXTUAL_INVERSION_SD_DATA_LOADER'.") /\
  EvInitOptimizer ∈ (train textual_inversion_loader (single_process 4)).1.
Proof.
  destruct (train_unsupported_data_loader textual_inversion_loader (single_process 4)
              eq_refl) as (_ & _ & Hlate).
  destruct (Hlate eq_refl eq_refl) as (Hmsg & _ & Hoptimizer).
  split; [exact Hmsg | exact Hoptimizer].
Defined.

(** Zero steps asked for. *)
Lemma train_zero_max_train_steps_witness :
  exists t,
    set_up zero_steps (single_process 4) = (t, Ok tt) /\
    train zero_steps (single_process 4) =
      (t, Raise (TypeError "unsupported operand type(s) for *: 'NoneType' and 'int'")).
Proof.
  assert (Hset : exists t, set_up zero_steps (single_process 4) = (t, Ok tt))
    by (eexists; vm_compute; reflexivity).
  destruct Hset as [t Hset]. exists t. split; [exact Hset|].
  apply (train_zero_max_train_steps zero_steps (single_process 4) t Hset);
    [reflexivity | discriminate].
Defined.

(** No accumulation, and no batches. *)
Lemma train_division_by_zero_witness :
  (exists t,
     set_up zero_accumulation (single_process 4) = (t, Ok tt) /\
     train zero_accumulation (single_process 4) = (t, Raise ZeroDivisionError)) /\
  (exists t,
     set_up ten_steps (single_process 0) = (t, Ok tt) /\
     train ten_steps (single_process 0) = (t, Raise ZeroDivisionError)).
Proof.
  split.
  - assert (Hset : exists t, set_up zero_accumulation (single_process 4) = (t, Ok tt))
      by (eexists; vm_compute; reflexivity).
    destruct Hset as [t Hset]. exists t. split; [exact Hset|].
    apply (train_division_by_zero zero_accumulation (single_process 4) t Hset).
    left. reflexivity.
  - assert (Hset : exists t, set_up ten_steps (single_process 0) = (t, Ok tt))
      by (eexists; vm_compute; reflexivity).
    destruct Hset as [t Hset]. exists t. split; [exact Hset|].
    apply (train_division_by_zero ten_steps (single_process 0) t Hset).
    right. split; [reflexivity | discriminate].
Defined.

(** Three epochs over five batches, two to the step: nine steps. *)
Lemma compute_schedule_epochs_hold_steps_witness :
  exists schedule,
    compute_schedule three_epochs 5 = Ok schedule /\
    num_train_epochs schedule = 3 /\
    num_train_steps schedule = 9.
Proof.
  destruct (compute_schedule_epochs_hold_steps three_epochs 5)
    as (schedule & Hschedule & _ & _ & Hepochs).
  - split; reflexivity.
  - lia.
  - reflexivity.
  - right. split; [reflexivity | eexists; reflexivity].
  - intros s [=].
  - intros e [= <-]. reflexivity.
  - reflexivity.
  - destruct (Hepochs 3 eq_refl) as (He & Hs & Hlen).
    exists schedule. split; [exact Hschedule|]. split; [exact He|].
    cbn in Hlen. lia.
Defined.

End TrainCaseFacts.

Section CheckpointCaseFacts.

Import Checkpoint CheckpointCases.

(** A format that is neither of the two. *)
Lemma save_checkpoint_unsupported_format_witness :
  (_save_sd_lora_checkpoint all_succeed 3 40 (Some "unet") None tracker "safetensors"
     (Some [0; 1; 2]%nat)).2 = Raise (unsupported_format "safetensors").
Proof.
  destruct (save_checkpoint_unsupported_format all_succeed 3 40 (Some "unet") None
              tracker "safetensors" (Some [0; 1; 2]%nat))
    as (Hraise & _); [discriminate | discriminate | exact Hraise].
Defined.

(** Three callbacks, the second of which fails. *)
Lemma save_checkpoint_notifies_callbacks_witness :
  let checkpoint :=
    {| models := [{| file_path := "checkpoints/checkpoint";
                     model_type := SD1_LORA_KOHYA |}];
       epoch := 3; step := 40 |} in
  (_save_sd_lora_checkpoint second_fails 3 40 (Some "unet") None tracker "kohya"
     (Some [0; 1; 2]%nat)).2 = Raise (RuntimeError "callback failed") /\
  omap notified
    (_save_sd_lora_checkpoint second_fails 3 40 (Some "unet") None tracker "kohya"
       (Some [0; 1; 2]%nat)).1 = [(0%nat, checkpoint); (1%nat, checkpoint)].
Proof.
  destruct (save_checkpoint_notifies_callbacks second_fails 3 40 (Some "unet") None
              tracker "kohya" [0; 1; 2]%nat SD1_LORA_KOHYA eq_refl)
    as (_ & _ & Hraise).
  apply (Hraise [0%nat] 1%nat [2%nat] (RuntimeError "callback failed"));
    [reflexivity | | reflexivity].
  intros cb Hin. apply list_elem_of_singleton in Hin. subst cb. reflexivity.
Defined.

End CheckpointCaseFacts.
